(** * Prize administration: creation pipeline and list screen

    A shallow embedding of
    - [src/lib/prize-service.ts]  (createPrizeDocument),
    - [src/components/prizes/CreatePrizeModal.tsx]  (schema, handlers, submit),
    - the prize list page  (formatCurrency, fetchPrizes),
    together with the properties of the specification that concern them.

    Conventions.  JavaScript strings are [string] (sequences of 8-bit code
    units), arrays are [list], Firestore collections and the Storage bucket
    are [gmap]s keyed by document id or object path, and a JavaScript
    [number] is an IEEE-754 binary64 value, represented by [spec_float]
    with the operations of the standard library's [SpecFloat] at precision
    53 and maximal exponent 1024.  Where the decimal digits of a double
    matter, the real numbers involved are rationals ([Q]). *)

From Stdlib Require Import ZArith QArith Qround Qpower Qabs Lqa.
From Stdlib Require Import Ascii String Sorted Floats.SpecFloat.
From stdpp Require Import base tactics option list strings pretty gmap.

Local Open Scope Z_scope.

(** ** JavaScript values used by the code *)

Definition number : Type := spec_float.

(** A browser [File]: its name and its contents. *)
Record File := mkFile { file_name : string; file_data : string }.

(** A thrown [Error]; only its [message] is ever read by the code. *)
Record exn := Error { message : string }.

(** [a || b] on a possibly-undefined string: [b] when [a] is [undefined]
    or the empty string. *)
Definition str_or (a : option string) (b : string) : string :=
  match a with
  | Some s => if decide (s = "") then b else s
  | None => b
  end.

(** The one-character string holding a double quote. *)
Definition dquote : string := String (ascii_of_nat 34) EmptyString.

(** ** Documents *)

(** [CreatePrizeData], prize-service.ts lines 17-41. *)
Module CreatePrizeData.
Record t := mk {
  prizeName : string;
  quantityAvailable : string;
  fullDescription : string;
  keywords : list string;
  tags : string;
  sponsorId : string;
  prizeCategory : string;
  stockDate : string;
  fulfillmentMethod : string;
  deliveryTimeline : string;
  claimWindow : string;
  pickupRequired : bool;
  eligibleRegions : string;
  retailValueUSD : string;
  breakEvenValue : number;
  ageRestriction : string;
  idRequired : bool;
  useStandardTerms : bool;
  termsConditionsUrl : string;
  customTermsType : string;
  customTermsUrl : string;
  additionalInfo : string;
  status : string
}.
End CreatePrizeData.

(** The object literal [prizeDoc], prize-service.ts lines 67-94. *)
Module PrizeDoc.
Record t := mk {
  prizeName : string;
  quantityAvailable : string;
  fullDescription : string;
  keywords : list string;
  tags : string;
  thumbnail : string;
  images : list string;
  sponsorId : string;
  prizeCategory : string;
  stockDate : string;
  fulfillmentMethod : string;
  deliveryTimeline : string;
  claimWindow : string;
  pickupRequired : bool;
  eligibleRegions : string;
  retailValueUSD : string;
  breakEvenValue : number;
  ageRestriction : string;
  idRequired : bool;
  useStandardTerms : bool;
  termsConditionsUrl : string;
  customTermsType : string;
  customTermsUrl : string;
  additionalInfo : string;
  status : string;
  createdAt : Z
}.
End PrizeDoc.

(** ** The managed backend

    The code talks to Firebase Storage and Firestore through four
    asynchronous calls.  Each call that is issued is recorded, with its
    outcome, in the [trace] of the world. *)

Inductive Call :=
  | UploadBytes (path : string) (file : File)
  | GetDownloadURL (path : string)
  | AddDoc (collection : string) (document : PrizeDoc.t)
  | UpdateDoc (collection id field elem : string).

(** The three stages of the submission sequence. *)
Inductive Stage := Uploading | Persisting | LinkingSponsor.

Definition stage (c : Call) : Stage :=
  match c with
  | UploadBytes _ _ | GetDownloadURL _ => Uploading
  | AddDoc _ _ => Persisting
  | UpdateDoc _ _ _ _ => LinkingSponsor
  end.

Definition stage_rank (s : Stage) : nat :=
  match s with Uploading => 0 | Persisting => 1 | LinkingSponsor => 2 end.

Definition Stage_eqb (a b : Stage) : bool :=
  match a, b with
  | Uploading, Uploading | Persisting, Persisting
  | LinkingSponsor, LinkingSponsor => true
  | _, _ => false
  end.

Record Event := mkEvent { ev_call : Call; ev_ok : bool }.

Record World := mkWorld {
  clock : Z;                                 (* milliseconds, Date.now() *)
  storage : gmap string File;                (* Storage objects by path *)
  prize_database : gmap string PrizeDoc.t;   (* Firestore collection *)
  sponsors : gmap string (list string);      (* sponsors/{id}.prizesCreation *)
  trace : list Event;                        (* network calls, oldest first *)
  console : list string                      (* console.warn / console.error *)
}.

(** What the code cannot decide: whether the service rejects a call, how
    long a call takes, which URL Storage hands out for an object and which
    identifier Firestore generates for a new document.  The URL is taken
    to depend on the object path only. *)
Record Backend := mkBackend {
  fault : World -> Call -> option string;
  elapsed : World -> Call -> Z;
  download_url : string -> string;
  auto_id : World -> string
}.

(** ** Asynchronous computations

    An [async] function is a state transformer on the world that ends in a
    value or in a thrown error; effects performed before a throw stay. *)

Definition M (A : Type) : Type := World -> (exn + A) * World.

Definition ret {A} (a : A) : M A := fun w => (inr a, w).

Definition bind {A B} (m : M A) (k : A -> M B) : M B := fun w =>
  match m w with
  | (inl e, w') => (inl e, w')
  | (inr a, w') => k a w'
  end.

Definition try_catch {A} (m : M A) (handler : exn -> M A) : M A := fun w =>
  match m w with
  | (inl e, w') => handler e w'
  | (inr a, w') => (inr a, w')
  end.

(** [x ← m; k] is [const x = await m; k], and [m;; k] is [await m; k]. *)
#[global] Instance M_ret : MRet M := @ret.
#[global] Instance M_bind : MBind M := fun A B k m => bind m k.

Definition set_clock (t : Z) (w : World) : World :=
  mkWorld t (storage w) (prize_database w) (sponsors w) (trace w) (console w).
Definition set_storage (s : gmap string File) (w : World) : World :=
  mkWorld (clock w) s (prize_database w) (sponsors w) (trace w) (console w).
Definition set_prize_database (p : gmap string PrizeDoc.t) (w : World) : World :=
  mkWorld (clock w) (storage w) p (sponsors w) (trace w) (console w).
Definition set_sponsors (s : gmap string (list string)) (w : World) : World :=
  mkWorld (clock w) (storage w) (prize_database w) s (trace w) (console w).
Definition log_event (e : Event) (w : World) : World :=
  mkWorld (clock w) (storage w) (prize_database w) (sponsors w)
          (trace w ++ [e]) (console w).
Definition log_console (line : string) (w : World) : World :=
  mkWorld (clock w) (storage w) (prize_database w) (sponsors w)
          (trace w) (console w ++ [line]).

Section Service.
Variable be : Backend.

(** One network round trip: time passes, the call is recorded, and it
    either rejects (with the service's message, or with [refused] when
    the service has a reason of its own to refuse) or takes effect. *)
Definition request {A} (c : Call) (refused : option string)
    (effect : World -> A * World) : M A := fun w =>
  let w1 := set_clock (clock w + elapsed be w c) w in
  match fault be w c, refused with
  | Some msg, _ | None, Some msg =>
      (inl (Error msg), log_event (mkEvent c false) w1)
  | None, None =>
      let '(a, w2) := effect w1 in
      (inr a, log_event (mkEvent c true) w2)
  end.

Definition Date_now : M Z := fun w => (inr (clock w), w).
Definition Timestamp_now : M Z := fun w => (inr (clock w), w).

Definition console_warn (line : string) (e : exn) : M unit := fun w =>
  (inr tt, log_console (line +:+ " " +:+ message e) w).

(** [uploadBytes(ref, file)]: stores the object under the reference. *)
Definition uploadBytes (path : string) (file : File) : M unit :=
  request (UploadBytes path file) None
    (fun w => (tt, set_storage (<[path := file]> (storage w)) w)).

(** [getDownloadURL(ref)]: rejects when no object is stored there. *)
Definition getDownloadURL (path : string) : M string := fun w =>
  request (GetDownloadURL path)
    (match storage w !! path with
     | Some _ => None
     | None => Some "storage/object-not-found"
     end)
    (fun w' => (download_url be path, w')) w.

(** [addDoc(collection(db, c), d)]: inserts under a generated id. *)
Definition addDoc (c : string) (d : PrizeDoc.t) : M string :=
  request (AddDoc c d) None
    (fun w => let id := auto_id be w in
              (id, set_prize_database (<[id := d]> (prize_database w)) w)).

(** [arrayUnion(x)] applied to the current array of a field. *)
Definition arrayUnion (x : string) (arr : list string) : list string :=
  if decide (x ∈ arr) then arr else arr ++ [x].

(** [updateDoc(doc(db, "sponsors", id), { prizesCreation: arrayUnion(x) })]:
    rejects when the sponsor document does not exist. *)
Definition updateDoc (id : string) (x : string) : M unit := fun w =>
  request (UpdateDoc "sponsors" id "prizesCreation" x)
    (match sponsors w !! id with
     | Some _ => None
     | None => Some "not-found"
     end)
    (fun w' => (tt, set_sponsors (alter (arrayUnion x) id (sponsors w')) w')) w.

(** *** prize-service.ts *)

(** The loop of lines 55-64, with [imageUrls] as accumulator. *)
Fixpoint uploadImages (imageFiles : list File) (imageUrls : list string)
    : M (list string) :=
  match imageFiles with
  | [] => mret imageUrls
  | file :: rest =>
      now ← Date_now;
      let storageRef := "prize_database/" +:+ pretty now +:+ "_" +:+ file_name file in
      uploadBytes storageRef file;;
      url ← getDownloadURL storageRef;
      uploadImages rest (imageUrls ++ [url])
  end.

(** Lines 67-94. *)
Definition buildPrizeDoc (data : CreatePrizeData.t) (imageUrls : list string)
    (now : Z) : PrizeDoc.t :=
  {| PrizeDoc.prizeName := CreatePrizeData.prizeName data;
     PrizeDoc.quantityAvailable := CreatePrizeData.quantityAvailable data;
     PrizeDoc.fullDescription := CreatePrizeData.fullDescription data;
     PrizeDoc.keywords := CreatePrizeData.keywords data;
     PrizeDoc.tags := CreatePrizeData.tags data;
     PrizeDoc.thumbnail := str_or (imageUrls !! 0%nat) "";
     PrizeDoc.images := imageUrls;
     PrizeDoc.sponsorId := CreatePrizeData.sponsorId data;
     PrizeDoc.prizeCategory := CreatePrizeData.prizeCategory data;
     PrizeDoc.stockDate := CreatePrizeData.stockDate data;
     PrizeDoc.fulfillmentMethod := CreatePrizeData.fulfillmentMethod data;
     PrizeDoc.deliveryTimeline := CreatePrizeData.deliveryTimeline data;
     PrizeDoc.claimWindow := CreatePrizeData.claimWindow data;
     PrizeDoc.pickupRequired := CreatePrizeData.pickupRequired data;
     PrizeDoc.eligibleRegions := CreatePrizeData.eligibleRegions data;
     PrizeDoc.retailValueUSD := CreatePrizeData.retailValueUSD data;
     PrizeDoc.breakEvenValue := CreatePrizeData.breakEvenValue data;
     PrizeDoc.ageRestriction := CreatePrizeData.ageRestriction data;
     PrizeDoc.idRequired := CreatePrizeData.idRequired data;
     PrizeDoc.useStandardTerms := CreatePrizeData.useStandardTerms data;
     PrizeDoc.termsConditionsUrl := CreatePrizeData.termsConditionsUrl data;
     PrizeDoc.customTermsType := CreatePrizeData.customTermsType data;
     PrizeDoc.customTermsUrl := CreatePrizeData.customTermsUrl data;
     PrizeDoc.additionalInfo := CreatePrizeData.additionalInfo data;
     PrizeDoc.status := CreatePrizeData.status data;
     PrizeDoc.createdAt := now |}.

(** Lines 47-109. *)
Definition createPrizeDocument (data : CreatePrizeData.t)
    (imageFiles : list File) (sponsorId : string) : M string :=
  imageUrls ← uploadImages imageFiles [];
  now ← Timestamp_now;
  let prizeDoc := buildPrizeDoc data imageUrls now in
  docRef ← addDoc "prize_database" prizeDoc;
  try_catch (updateDoc sponsorId docRef)
    (fun err => console_warn "Could not update sponsor prizesCreation:" err);;
  mret docRef.

End Service.

(** ** JavaScript numbers and the built-ins the code calls *)

Module Js.

Definition prec : Z := 53.
Definition emax : Z := 1024.

Definition mul : number -> number -> number := SFmul prec emax.
Definition div : number -> number -> number := SFdiv prec emax.

(** The double nearest to an integer. *)
Definition of_Z (z : Z) : number := binary_normalize prec emax z 0 false.

(** The double nearest to [p / q], ties to even. *)
Definition of_ratio (neg : bool) (p q : positive) : number :=
  let '(m, e, l) := SFdiv_core_binary prec emax (Zpos p) 0 (Zpos q) 0 in
  binary_round_aux prec emax neg m e l.

(** The double nearest to [n * 10 ^ scale], for a natural number [n]. *)
Definition of_decimal (neg : bool) (n : Z) (scale : Z) : number :=
  match n with
  | Zpos p =>
      if 0 <=? scale then of_Z ((if neg then - n else n) * 10 ^ scale)
      else of_ratio neg p (Z.to_pos (10 ^ (- scale)))
  | _ => S754_zero neg
  end.

(** The literals [0.25] and [100]. *)
Definition quarter : number := S754_finite false 4503599627370496 (-54).
Definition hundred : number := of_Z 100.

(** *** Strings *)

(** White space and line terminators in the 8-bit range. *)
Definition is_space (c : ascii) : bool :=
  let n := N_of_ascii c in
  ((9 <=? n) && (n <=? 13) || (n =? 32) || (n =? 160))%N.

Fixpoint trimStart (s : string) : string :=
  match s with
  | String c r => if is_space c then trimStart r else s
  | EmptyString => s
  end.

Definition trimEnd (s : string) : string :=
  String.rev (trimStart (String.rev s)).

(** [String.prototype.trim]. *)
Definition trim (s : string) : string := trimEnd (trimStart s).

(** [Array.prototype.join]. *)
Fixpoint join (sep : string) (l : list string) : string :=
  match l with
  | [] => ""
  | [x] => x
  | x :: r => x +:+ sep +:+ join sep r
  end.

(** [Array.prototype.slice(0, end)] for an integer [end]. *)
Definition slice0 {A} (l : list A) (end_ : Z) : list A :=
  let len := Z.of_nat (length l) in
  let final := if end_ <? 0 then Z.max (len + end_) 0 else Z.min end_ len in
  take (Z.to_nat final) l.

(** *** parseFloat *)

Definition digit_of (c : ascii) : option Z :=
  let n := Z.of_N (N_of_ascii c) in
  if (48 <=? n) && (n <=? 57) then Some (n - 48) else None.

(** The longest prefix of decimal digits, and what follows it. *)
Fixpoint take_digits (s : string) : list Z * string :=
  match s with
  | String c r =>
      match digit_of c with
      | Some d => let '(ds, r') := take_digits r in (d :: ds, r')
      | None => ([], s)
      end
  | EmptyString => ([], s)
  end.

Definition digits_value (ds : list Z) : Z :=
  fold_left (fun acc d => 10 * acc + d) ds 0.

(** The value of an [ExponentPart] at the head of [s], 0 when there is
    none (an [e] not followed by digits is not part of the literal). *)
Definition take_exponent (s : string) : Z :=
  match s with
  | String c r =>
      if decide (c = "e"%char \/ c = "E"%char) then
        match r with
        | String "+" r' => digits_value (fst (take_digits r'))
        | String "-" r' => - digits_value (fst (take_digits r'))
        | _ => digits_value (fst (take_digits r))
        end
      else 0
  | EmptyString => 0
  end.

Definition has_prefix (p s : string) : bool :=
  String.prefix p s.

(** [StrUnsignedDecimalLiteral] at the head of [s]. *)
Definition parse_unsigned (neg : bool) (s : string) : number :=
  if has_prefix "Infinity" s then S754_infinity neg
  else
    let '(ip, r1) := take_digits s in
    let '(fp, r2) :=
      match r1 with
      | String "." r => take_digits r
      | _ => ([], r1)
      end in
    match ip, fp with
    | [], [] => S754_nan
    | _, _ =>
        of_decimal neg (digits_value (ip ++ fp))
                   (take_exponent r2 - Z.of_nat (length fp))
    end.

(** [parseFloat(s)]: the number denoted by the longest prefix of the
    trimmed string that is a decimal literal, [NaN] when there is none. *)
Definition parseFloat (s : string) : number :=
  match trimStart s with
  | String "+" r => parse_unsigned false r
  | String "-" r => parse_unsigned true r
  | t => parse_unsigned false t
  end.

(** *** Math.round *)

(** The integer nearest to [x], ties towards +infinity. *)
Definition Math_round (x : number) : number :=
  match x with
  | S754_finite s m e =>
      if 0 <=? e then x
      else
        let q := 2 ^ (- e) in
        let n := if s then Zneg m else Zpos m in
        let k := (2 * n + q) / (2 * q) in
        if k =? 0 then S754_zero s else of_Z k
  | _ => x
  end.

(** *** Number.prototype.toFixed and Intl.NumberFormat *)

#[global] Instance number_eq_dec : EqDecision number.
Proof. solve_decision. Defined.

(** [|x| * 10^f] rounded to the nearest integer, ties away from zero,
    for the finite value [m * 2^e]: [toFixed] rounds the exact binary
    value. *)
Definition round_scaled (m : positive) (e : Z) (f : nat) : Z :=
  let p := 10 ^ Z.of_nat f in
  if 0 <=? e then Zpos m * 2 ^ e * p
  else let q := 2 ^ (- e) in (2 * (Zpos m * p) + q) / (2 * q).

Definition digit_char (d : Z) : ascii := ascii_of_N (Z.to_N (48 + d mod 10)).

(** The last [f] decimal digits of [n], most significant first. *)
Fixpoint low_digits (f : nat) (n : Z) : list ascii :=
  match f with
  | O => []
  | S f' => low_digits f' (n / 10) ++ [digit_char n]
  end.

(** Remove up to [n] zeros from the head of a reversed digit list. *)
Fixpoint strip_zeros (n : nat) (r : list ascii) : list ascii :=
  match n, r with
  | S n', c :: r' => if decide (c = "0"%char) then strip_zeros n' r' else r
  | _, _ => r
  end.

(** Fraction digits of [n / 10^mx]: [mx] digits, trailing zeros removed
    as long as more than [mn] digits remain. *)
Definition fraction_digits (mn mx : nat) (n : Z) : list ascii :=
  rev (strip_zeros (mx - mn) (rev (low_digits mx n))).

Definition with_point (frac : list ascii) : string :=
  match frac with
  | [] => ""
  | _ => "." +:+ string_of_list_ascii frac
  end.

(** The digits of a reversed integer part, a comma after every third. *)
Fixpoint group_rev (r : list ascii) (i : nat) : list ascii :=
  match r with
  | [] => []
  | c :: r' =>
      match i with
      | 3%nat => ","%char :: c :: group_rev r' 1
      | _ => c :: group_rev r' (S i)
      end
  end.

Definition group (digits : string) : string :=
  string_of_list_ascii (rev (group_rev (rev (list_ascii_of_string digits)) 0)).

(** Digits of [Number::toString] for an integer-valued double
    [x = N >= 10^21] with [n] decimal digits: the least [k] for which a
    [k]-digit [s] gives [s * 10^(n-k) = x], the closest such [s]. *)
Fixpoint shortest (fuel : nat) (k n N : Z) (x : number) : Z :=
  match fuel with
  | O => N
  | S fuel' =>
      let p := 10 ^ (n - k) in
      let lo := N / p in
      let hi := lo + 1 in
      let ok c := bool_decide (of_Z (c * p) = x) in
      match ok lo, ok hi with
      | true, true =>
          match (N - lo * p ?= hi * p - N) with
          | Lt => lo * p
          | Gt => hi * p
          | Eq => if Z.even lo then lo * p else hi * p
          end
      | true, false => lo * p
      | false, true => hi * p
      | false, false => shortest fuel' (k + 1) n N x
      end
  end.

Fixpoint drop_trailing_zeros (r : list ascii) : list ascii :=
  match r with
  | c :: r' => if decide (c = "0"%char) then drop_trailing_zeros r' else r
  | [] => []
  end.

(** [Number::toString] on a finite [x = m * 2^e >= 10^21]. *)
Definition toString_large (m : positive) (e : Z) : string :=
  let N := Zpos m * 2 ^ e in
  let n := Z.of_nat (String.length (pretty N)) in
  let V := pretty (shortest 17 1 n N (S754_finite false m e)) in
  let ds := rev (drop_trailing_zeros (rev (list_ascii_of_string V))) in
  let expo := "e+" +:+ pretty (Z.of_nat (String.length V) - 1) in
  match ds with
  | [] => ""
  | [d] => String d expo
  | d :: r => String d ("." +:+ string_of_list_ascii r) +:+ expo
  end.

Definition sign_string (s : bool) : string := if s then "-" else "".

(** [x.toFixed(f)]. *)
Definition toFixed (x : number) (f : nat) : string :=
  match x with
  | S754_nan => "NaN"
  | S754_infinity s => sign_string s +:+ "Infinity"
  | S754_zero _ => "0" +:+ with_point (low_digits f 0)
  | S754_finite s m e =>
      if (0 <=? e) && (10 ^ 21 <=? Zpos m * 2 ^ e)
      then sign_string s +:+ toString_large m e
      else
        let n := round_scaled m e f in
        sign_string s +:+ pretty (n / 10 ^ Z.of_nat f)
          +:+ with_point (low_digits f n)
  end.

(** The options bag given to [new Intl.NumberFormat("en-US", ...)]. *)
Record NumberFormatOptions := mkOptions {
  style : string;
  currency : string;
  minimumFractionDigits : option nat;
  maximumFractionDigits : option nat
}.

(** Minor-unit digits of the currency (ISO 4217): 2 for the US dollar. *)
Definition currency_digits (o : NumberFormatOptions) : nat := 2.

(** Resolution of the fraction-digit settings (ECMA-402,
    SetNumberFormatDigitOptions): a bound that is left out is taken
    from the currency, but never across the bound that is given. *)
Definition resolved_fraction_digits (o : NumberFormatOptions) : nat * nat :=
  let c := currency_digits o in
  match minimumFractionDigits o, maximumFractionDigits o with
  | None, None => (c, c)
  | Some mn, None => (mn, Nat.max c mn)
  | None, Some mx => (Nat.min c mx, mx)
  | Some mn, Some mx => (mn, mx)
  end.

(** The parts of a formatted amount. *)
Record Parts := mkParts {
  minus : bool;
  integer : string;
  fraction : list ascii
}.

(** *** The decimal digits of a double

    [Intl.NumberFormat] does not round the binary value of a double: like
    [Number::toString] it starts from the decimal with the fewest digits
    that is read back as the same double, and rounds that decimal. *)

(** The real number [m * 2^e]. *)
Definition real (m : positive) (e : Z) : Q := (inject_Z (Zpos m) * 2 ^ e)%Q.

(** Half the distance to the next double below and above.  Below a power
    of two the doubles lie twice as close, except at the bottom of the
    range. *)
Definition half_gap_below (m : positive) (e : Z) : Q :=
  if (Zpos m =? 2 ^ 52) && (-1074 <? e) then (2 ^ (e - 2))%Q else (2 ^ (e - 1))%Q.

Definition half_gap_above (e : Z) : Q := (2 ^ (e - 1))%Q.

(** The decimal [c * 10^t]. *)
Definition decimal (c t : Z) : Q := (inject_Z c * 10 ^ t)%Q.

(** [y] is read as the double [m * 2^e]: it is nearer to it than to any
    other double, or halfway to a neighbour when [m] is even (round to
    nearest, ties to even). *)
Definition denotes (m : positive) (e : Z) (y : Q) : Prop :=
  if Z.even (Zpos m)
  then (real m e - half_gap_below m e <= y /\ y <= real m e + half_gap_above e)%Q
  else (real m e - half_gap_below m e < y /\ y < real m e + half_gap_above e)%Q.

Definition denotesb (m : positive) (e : Z) (y : Q) : bool :=
  if Z.even (Zpos m)
  then Qle_bool (real m e - half_gap_below m e) y
       && Qle_bool y (real m e + half_gap_above e)
  else negb (Qle_bool y (real m e - half_gap_below m e))
       && negb (Qle_bool (real m e + half_gap_above e) y).

(** The number of decimal digits of [z >= 1], less one. *)
Fixpoint ilog10 (fuel : nat) (z : Z) : Z :=
  match fuel with
  | O => 0
  | S fuel' => if z <? 10 then 0 else 1 + ilog10 fuel' (z / 10)
  end.

Definition log10_floor (z : Z) : Z := ilog10 (S (Z.to_nat (Z.log2 z))) z.

(** The decimal exponent of [v > 0]: the [n] with [10^(n-1) <= v < 10^n]. *)
Definition dexp (v : Q) : Z :=
  if Qle_bool 1 v then log10_floor (Qfloor v) + 1
  else
    let k := log10_floor (Qfloor (/ v)) in
    if Qle_bool (10 ^ (- k)) v then 1 - k else - k.

(** Of the two multiples of [10^t] next to the value, the one that
    denotes the double; the closer one when both do, the even one when
    they are equally close. *)
Definition pick (m : positive) (e : Z) (t : Z) : option Z :=
  let v := real m e in
  let lo := Qfloor (v / 10 ^ t) in
  let hi := lo + 1 in
  match denotesb m e (decimal lo t), denotesb m e (decimal hi t) with
  | true, true =>
      Some (match (v - decimal lo t ?= decimal hi t - v)%Q with
            | Lt => lo
            | Gt => hi
            | Eq => if Z.even lo then lo else hi
            end)
  | true, false => Some lo
  | false, true => Some hi
  | false, false => None
  end.

(** One digit, two digits, ...: the scale goes down from [t] until a
    multiple of [10^t] denotes the double.  At the scale of the binary
    expansion the value itself is such a multiple. *)
Fixpoint search (fuel : nat) (m : positive) (e : Z) (t : Z) : Z * Z :=
  match pick m e t with
  | Some c => (c, t)
  | None =>
      match fuel with
      | S fuel' => search fuel' m e (t - 1)
      | O => (Qfloor (real m e / 10 ^ t), t)
      end
  end.

(** The digits [c] and the scale [t] of the shortest decimal [c * 10^t]
    that denotes the double [m * 2^e]. *)
Definition shortest_decimal (m : positive) (e : Z) : Z * Z :=
  let t := dexp (real m e) - 1 in
  search (Z.to_nat (t - Z.min e 0)) m e t.

(** [c * 10^t] in units of [10^-f], rounded to the nearest integer,
    halves away from zero (roundingMode "halfExpand"), for [c >= 0]. *)
Definition round_decimal (c t : Z) (f : nat) : Z :=
  let s := t + Z.of_nat f in
  if 0 <=? s then c * 10 ^ s
  else let q := 10 ^ (- s) in (2 * c + q) / (2 * q).

Definition format_parts (o : NumberFormatOptions) (m : positive) (e : Z)
    (s : bool) : Parts :=
  let '(mn, mx) := resolved_fraction_digits o in
  let d := shortest_decimal m e in
  let n := round_decimal d.1 d.2 mx in
  mkParts s (pretty (n / 10 ^ Z.of_nat mx)) (fraction_digits mn mx n).

(** The sign U+221E.  It lies outside the 8-bit range and stands here as
    the three bytes of its UTF-8 encoding. *)
Definition infinity_sign : string :=
  String (ascii_of_nat 226) (String (ascii_of_nat 136)
    (String (ascii_of_nat 158) EmptyString)).

(** [new Intl.NumberFormat("en-US", o).format(x)] for [style: "currency"],
    [currency: "USD"]. *)
Definition NumberFormat_format (o : NumberFormatOptions) (x : number) : string :=
  match x with
  | S754_nan => "$NaN"
  | S754_infinity s => sign_string s +:+ "$" +:+ infinity_sign
  | S754_zero s =>
      sign_string s +:+ "$0" +:+
        with_point (fraction_digits (fst (resolved_fraction_digits o))
                                    (snd (resolved_fraction_digits o)) 0)
  | S754_finite s m e =>
      let p := format_parts o m e s in
      sign_string (minus p) +:+ "$" +:+ group (integer p) +:+ with_point (fraction p)
  end.

End Js.

(** ** CreatePrizeModal.tsx *)

(** The values held by the form, [FormValues] (lines 41-68).  A field the
    schema declares [.optional()] may be [undefined]. *)
Module FormValues.
Record t := mk {
  prizeName : string;
  quantityAvailable : string;
  detail1 : option string;
  detail2 : option string;
  detail3 : option string;
  fullDescription : string;
  tags : string;
  sponsorId : string;
  prizeCategory : string;
  stockDate : string;
  fulfillmentMethod : string;
  deliveryTimeline : string;
  claimWindow : string;
  pickupRequired : bool;
  eligibleRegions : string;
  retailValueUSD : string;
  ageRestriction : string;
  idRequired : bool;
  useStandardTerms : bool;
  termsConditionsUrl : option string;
  customTermsType : option string;
  customTermsUrl : option string;
  additionalInfo : option string;
  acceptedTerms : option bool
}.

(** [defaultValues], lines 143-168. *)
Definition defaultValues : t :=
  mk "" "" (Some "") (Some "") (Some "") "" "" "" "" "" "" "" "" false "" ""
     "" false true (Some "") (Some "url") (Some "") (Some "") (Some false).

Definition set_prizeCategory (v : string) (f : t) : t :=
  mk (prizeName f) (quantityAvailable f) (detail1 f) (detail2 f) (detail3 f)
     (fullDescription f) (tags f) (sponsorId f) v (stockDate f)
     (fulfillmentMethod f) (deliveryTimeline f) (claimWindow f)
     (pickupRequired f) (eligibleRegions f) (retailValueUSD f)
     (ageRestriction f) (idRequired f) (useStandardTerms f)
     (termsConditionsUrl f) (customTermsType f) (customTermsUrl f)
     (additionalInfo f) (acceptedTerms f).

Definition set_eligibleRegions (v : string) (f : t) : t :=
  mk (prizeName f) (quantityAvailable f) (detail1 f) (detail2 f) (detail3 f)
     (fullDescription f) (tags f) (sponsorId f) (prizeCategory f) (stockDate f)
     (fulfillmentMethod f) (deliveryTimeline f) (claimWindow f)
     (pickupRequired f) v (retailValueUSD f)
     (ageRestriction f) (idRequired f) (useStandardTerms f)
     (termsConditionsUrl f) (customTermsType f) (customTermsUrl f)
     (additionalInfo f) (acceptedTerms f).

Definition set_retailValueUSD (v : string) (f : t) : t :=
  mk (prizeName f) (quantityAvailable f) (detail1 f) (detail2 f) (detail3 f)
     (fullDescription f) (tags f) (sponsorId f) (prizeCategory f) (stockDate f)
     (fulfillmentMethod f) (deliveryTimeline f) (claimWindow f)
     (pickupRequired f) (eligibleRegions f) v
     (ageRestriction f) (idRequired f) (useStandardTerms f)
     (termsConditionsUrl f) (customTermsType f) (customTermsUrl f)
     (additionalInfo f) (acceptedTerms f).
End FormValues.

(** A validation issue: the field it is attached to and the message given
    in the schema, [None] when the library's own message is used. *)
Record Issue := mkIssue { issue_path : string; issue_message : option string }.

(** [z.string().min(n, msg)] *)
Definition z_min (path : string) (n : nat) (msg : string) (v : string) : list Issue :=
  if decide (String.length v < n)%nat then [mkIssue path (Some msg)] else [].

(** [z.string().max(n)] *)
Definition z_max (path : string) (n : nat) (v : string) : list Issue :=
  if decide (n < String.length v)%nat then [mkIssue path None] else [].

(** [formSchema], lines 41-66: the issues raised on a form.  Booleans and
    optional fields accept every value of their type. *)
Definition formSchema (v : FormValues.t) : list Issue :=
  z_min "prizeName" 1 "Prize name is required" (FormValues.prizeName v)
  ++ z_max "prizeName" 200 (FormValues.prizeName v)
  ++ z_min "quantityAvailable" 1 "Quantity is required" (FormValues.quantityAvailable v)
  ++ z_min "fullDescription" 1 "Full description is required" (FormValues.fullDescription v)
  ++ z_max "fullDescription" 2000 (FormValues.fullDescription v)
  ++ z_min "tags" 1 "Tags are required" (FormValues.tags v)
  ++ z_min "sponsorId" 1 "Sponsor is required" (FormValues.sponsorId v)
  ++ z_min "prizeCategory" 1 "Category is required" (FormValues.prizeCategory v)
  ++ z_min "stockDate" 1 "Stock date is required" (FormValues.stockDate v)
  ++ z_min "fulfillmentMethod" 1 "Fulfillment method is required" (FormValues.fulfillmentMethod v)
  ++ z_min "deliveryTimeline" 1 "Delivery timeline is required" (FormValues.deliveryTimeline v)
  ++ z_min "claimWindow" 1 "Claim window is required" (FormValues.claimWindow v)
  ++ z_min "eligibleRegions" 1 "Eligible regions required" (FormValues.eligibleRegions v)
  ++ z_min "retailValueUSD" 1 "Prize value is required" (FormValues.retailValueUSD v)
  ++ z_min "ageRestriction" 1 "Age restriction is required" (FormValues.ageRestriction v).

(** The schema accepts a form when it raises no issue. *)
Definition accepts (v : FormValues.t) : bool :=
  match formSchema v with [] => true | _ => false end.

(** [PRIZE_CATEGORIES] and [REGIONS], lines 72-91. *)
Definition PRIZE_CATEGORIES : list string :=
  ["Electronics"; "Gift Cards"; "Experiences"; "Fashion"; "Home & Garden";
   "Sports & Outdoors"; "Food & Beverage"; "Travel"; "Other"].

Definition REGIONS : list string :=
  ["arima"; "chaguanas"; "couva"; "diego martin"; "point fortin";
   "port of spain"; "princes town"; "san fernando"; "san juan";
   "sangre grande"; "siparia"; "tobago"; "tunapuna"].

Record Toast := mkToast {
  toast_title : string;
  toast_description : string;
  toast_variant : string
}.

(** The state of one mounted modal: the [useState] cells (lines 133-139),
    the form library's values and errors, and what the component has sent
    to its surroundings (toasts, file readers started, the [open] flag it
    drives through [onOpenChange], calls of [onCreated]). *)
Record Modal := mkModal {
  categories : list string;
  newCategory : string;
  imageFiles : list File;
  imagePreviews : list string;
  saving : bool;
  selectedRegions : list string;
  form : FormValues.t;
  errors : list Issue;
  toasts : list Toast;
  readers : list File;
  open : bool;
  created : nat
}.

Definition initial_modal : Modal :=
  mkModal PRIZE_CATEGORIES "" [] [] false [] FormValues.defaultValues [] [] [] true 0.

Definition set_categories v (st : Modal) : Modal :=
  mkModal v (newCategory st) (imageFiles st) (imagePreviews st) (saving st)
          (selectedRegions st) (form st) (errors st) (toasts st) (readers st)
          (open st) (created st).
Definition set_newCategory v (st : Modal) : Modal :=
  mkModal (categories st) v (imageFiles st) (imagePreviews st) (saving st)
          (selectedRegions st) (form st) (errors st) (toasts st) (readers st)
          (open st) (created st).
Definition set_imageFiles v (st : Modal) : Modal :=
  mkModal (categories st) (newCategory st) v (imagePreviews st) (saving st)
          (selectedRegions st) (form st) (errors st) (toasts st) (readers st)
          (open st) (created st).
Definition set_imagePreviews v (st : Modal) : Modal :=
  mkModal (categories st) (newCategory st) (imageFiles st) v (saving st)
          (selectedRegions st) (form st) (errors st) (toasts st) (readers st)
          (open st) (created st).
Definition set_saving v (st : Modal) : Modal :=
  mkModal (categories st) (newCategory st) (imageFiles st) (imagePreviews st) v
          (selectedRegions st) (form st) (errors st) (toasts st) (readers st)
          (open st) (created st).
Definition set_selectedRegions v (st : Modal) : Modal :=
  mkModal (categories st) (newCategory st) (imageFiles st) (imagePreviews st)
          (saving st) v (form st) (errors st) (toasts st) (readers st)
          (open st) (created st).
Definition set_form v (st : Modal) : Modal :=
  mkModal (categories st) (newCategory st) (imageFiles st) (imagePreviews st)
          (saving st) (selectedRegions st) v (errors st) (toasts st) (readers st)
          (open st) (created st).
Definition set_errors v (st : Modal) : Modal :=
  mkModal (categories st) (newCategory st) (imageFiles st) (imagePreviews st)
          (saving st) (selectedRegions st) (form st) v (toasts st) (readers st)
          (open st) (created st).
Definition toast (t : Toast) (st : Modal) : Modal :=
  mkModal (categories st) (newCategory st) (imageFiles st) (imagePreviews st)
          (saving st) (selectedRegions st) (form st) (errors st)
          (toasts st ++ [t]) (readers st) (open st) (created st).
Definition start_readers (fs : list File) (st : Modal) : Modal :=
  mkModal (categories st) (newCategory st) (imageFiles st) (imagePreviews st)
          (saving st) (selectedRegions st) (form st) (errors st) (toasts st)
          (readers st ++ fs) (open st) (created st).
Definition onOpenChange (v : bool) (st : Modal) : Modal :=
  mkModal (categories st) (newCategory st) (imageFiles st) (imagePreviews st)
          (saving st) (selectedRegions st) (form st) (errors st) (toasts st)
          (readers st) v (created st).
Definition onCreated (st : Modal) : Modal :=
  mkModal (categories st) (newCategory st) (imageFiles st) (imagePreviews st)
          (saving st) (selectedRegions st) (form st) (errors st) (toasts st)
          (readers st) (open st) (S (created st)).

(** [form.reset()]: values back to the defaults, errors cleared. *)
Definition form_reset (st : Modal) : Modal :=
  set_errors [] (set_form FormValues.defaultValues st).

(** Lines 171-174: the text shown in the read-only break-even box. *)
Definition breakEvenValue (retailValue : string) : string :=
  if decide (retailValue = "") then "0.00"
  else Js.toFixed
         (Js.div (Js.Math_round
                    (Js.mul (Js.mul (Js.parseFloat retailValue) Js.quarter) Js.hundred))
                 Js.hundred) 2.

(** Lines 188-204.  [files] is [None] for [null]; the previews arrive
    later, one per reader started. *)
Definition handleImageUpload (files : option (list File)) (st : Modal) : Modal :=
  match files with
  | None => st
  | Some files =>
      let remaining := 4 - Z.of_nat (length (imageFiles st)) in
      let newFiles := Js.slice0 files remaining in
      let updated := imageFiles st ++ newFiles in
      start_readers newFiles (set_imageFiles updated st)
  end.

(** [reader.onload], lines 198-199. *)
Definition reader_onload (result : string) (st : Modal) : Modal :=
  set_imagePreviews (imagePreviews st ++ [result]) st.

(** [prev.filter((_, i) => i !== idx)] *)
Fixpoint filter_index {A} (idx : nat) (i : nat) (l : list A) : list A :=
  match l with
  | [] => []
  | x :: r => if decide (i = idx) then filter_index idx (S i) r
              else x :: filter_index idx (S i) r
  end.

(** Lines 206-209. *)
Definition removeImage (idx : nat) (st : Modal) : Modal :=
  set_imagePreviews (filter_index idx 0 (imagePreviews st))
    (set_imageFiles (filter_index idx 0 (imageFiles st)) st).

(** The new list computed by the updater of [toggleRegion], lines 214-216. *)
Definition toggled (region : string) (prev : list string) : list string :=
  if decide (region ∈ prev)
  then filter (fun r => r <> region) prev
  else prev ++ [region].

(** [form.setValue(name, v, { shouldValidate: true })] for
    [eligibleRegions]: the value is stored and the field validated again. *)
Definition setValue_eligibleRegions (v : string) (st : Modal) : Modal :=
  let f := FormValues.set_eligibleRegions v (form st) in
  set_errors
    (filter (fun i => issue_path i <> "eligibleRegions") (errors st)
     ++ filter (fun i => issue_path i = "eligibleRegions") (formSchema f))
    (set_form f st).

(** Lines 212-220. *)
Definition toggleRegion (region : string) (st : Modal) : Modal :=
  let next := toggled region (selectedRegions st) in
  set_selectedRegions next (setValue_eligibleRegions (Js.join ", " next) st).

(** Lines 223-230. *)
Definition addCategory (st : Modal) : Modal :=
  let trimmed := Js.trim (newCategory st) in
  if decide (trimmed <> "" /\ trimmed ∉ categories st) then
    set_newCategory ""
      (set_form (FormValues.set_prizeCategory trimmed (form st))
         (set_categories (categories st ++ [trimmed]) st))
  else st.

(** [[a, b, c].filter(Boolean)] on possibly-undefined strings. *)
Definition filter_Boolean (l : list (option string)) : list string :=
  omap (fun o => match o with
                 | Some s => if decide (s = "") then None else Some s
                 | None => None
                 end) l.

(** The number stored as [breakEvenValue], line 263. *)
Definition submitted_breakEven (retailValueUSD : string) : number :=
  Js.div (Js.Math_round
            (Js.mul (Js.mul (Js.parseFloat retailValueUSD) Js.quarter) Js.hundred))
         Js.hundred.

(** The argument object of lines 248-272. *)
Definition submitted_data (values : FormValues.t) : CreatePrizeData.t :=
  {| CreatePrizeData.prizeName := FormValues.prizeName values;
     CreatePrizeData.quantityAvailable := FormValues.quantityAvailable values;
     CreatePrizeData.fullDescription := FormValues.fullDescription values;
     CreatePrizeData.keywords :=
       filter_Boolean [FormValues.detail1 values; FormValues.detail2 values;
                       FormValues.detail3 values];
     CreatePrizeData.tags := FormValues.tags values;
     CreatePrizeData.sponsorId := FormValues.sponsorId values;
     CreatePrizeData.prizeCategory := FormValues.prizeCategory values;
     CreatePrizeData.stockDate := FormValues.stockDate values;
     CreatePrizeData.fulfillmentMethod := FormValues.fulfillmentMethod values;
     CreatePrizeData.deliveryTimeline := FormValues.deliveryTimeline values;
     CreatePrizeData.claimWindow := FormValues.claimWindow values;
     CreatePrizeData.pickupRequired := FormValues.pickupRequired values;
     CreatePrizeData.eligibleRegions := FormValues.eligibleRegions values;
     CreatePrizeData.retailValueUSD := FormValues.retailValueUSD values;
     CreatePrizeData.breakEvenValue :=
       submitted_breakEven (FormValues.retailValueUSD values);
     CreatePrizeData.ageRestriction := FormValues.ageRestriction values;
     CreatePrizeData.idRequired := FormValues.idRequired values;
     CreatePrizeData.useStandardTerms := FormValues.useStandardTerms values;
     CreatePrizeData.termsConditionsUrl := str_or (FormValues.termsConditionsUrl values) "";
     CreatePrizeData.customTermsType := str_or (FormValues.customTermsType values) "";
     CreatePrizeData.customTermsUrl := str_or (FormValues.customTermsUrl values) "";
     CreatePrizeData.additionalInfo := str_or (FormValues.additionalInfo values) "";
     CreatePrizeData.status := "Active" |}.

Definition images_required : Toast :=
  mkToast "Images required" "Please upload at least one image." "destructive".

Section Submit.
Variable be : Backend.

(** [onSubmit], lines 233-294. *)
Definition onSubmit (values : FormValues.t) (st : Modal) (w : World)
    : Modal * World :=
  if decide (length (imageFiles st) = 0%nat) then (toast images_required st, w)
  else
    let st := set_saving true st in
    match createPrizeDocument be (submitted_data values) (imageFiles st)
                              (FormValues.sponsorId values) w with
    | (inr _, w') =>
        let st := toast (mkToast "Prize created"
                           (dquote +:+ FormValues.prizeName values
                                   +:+ dquote +:+ " saved successfully.")
                           "default") st in
        let st := form_reset st in
        let st := set_imageFiles [] st in
        let st := set_imagePreviews [] st in
        let st := set_selectedRegions [] st in
        let st := onOpenChange false st in
        let st := onCreated st in
        (set_saving false st, w')
    | (inl err, w') =>
        let w' := log_console ("Error creating prize: " +:+ message err) w' in
        let st := toast (mkToast "Error"
                           (str_or (Some (message err)) "Failed to create prize.")
                           "destructive") st in
        (set_saving false st, w')
    end.

(** [form.handleSubmit(onSubmit)]: the resolver validates the current
    values against the schema; the handler runs only on a form without
    issues, otherwise the issues become the form's errors. *)
Definition handleSubmit (st : Modal) (w : World) : Modal * World :=
  match formSchema (form st) with
  | [] => onSubmit (form st) (set_errors [] st) w
  | issues => (set_errors issues st, w)
  end.

End Submit.

(** ** The prize list page *)

Module Prizes.

(** A fetched prize: its numeric value, and its other fields, whose type
    is declared in a module that is not part of the sources at hand. *)
Record Prize (R : Type) := mkPrize { prizeValue : number; prize_rest : R }.
Arguments mkPrize {R}.
Arguments prizeValue {R}.
Arguments prize_rest {R}.

(** A table row: [{ ...prize, prizeValue: <string> }]. *)
Record Row (R : Type) := mkRow { row_prizeValue : string; row_rest : R }.
Arguments mkRow {R}.
Arguments row_prizeValue {R}.
Arguments row_rest {R}.

Record Page (R : Type) := mkPage {
  loading : bool;
  prizes : list (Row R);
  createOpen : bool
}.
Arguments mkPage {R}.
Arguments loading {R}.
Arguments prizes {R}.
Arguments createOpen {R}.

(** Lines 13-19. *)
Definition formatCurrency (value : number) : string :=
  Js.NumberFormat_format
    (Js.mkOptions "currency" "USD" (Some 0%nat) None) value.

Section Fetch.
Context {R : Type}.
(** [getPrizes] of [@/lib/firestore], a read of the prize collection. *)
Variable getPrizes : M (list (Prize R)).

(** Lines 39-54. *)
Definition fetchPrizes (st : Page R) (w : World) : Page R * World :=
  let st := mkPage true (prizes st) (createOpen st) in
  match getPrizes w with
  | (inr data, w') =>
      let rows := map (fun prize =>
                         mkRow (formatCurrency (prizeValue prize))
                               (prize_rest prize)) data in
      (mkPage false rows (createOpen st), w')
  | (inl error, w') =>
      (mkPage false (prizes st) (createOpen st),
       log_console ("Error fetching prizes: " +:+ message error) w')
  end.
End Fetch.

End Prizes.

(** ** Observations on a run *)

(** The calls issued between two worlds of one run. *)
Definition new_events (w w' : World) : list Event :=
  drop (length (trace w)) (trace w').

Definition stage_is (s : Stage) (e : Event) : bool :=
  Stage_eqb (stage (ev_call e)) s.

(** Some call of stage [s] was issued. *)
Definition attempted (s : Stage) (evs : list Event) : bool :=
  existsb (stage_is s) evs.

(** Some call of stage [s] was rejected. *)
Definition failed (s : Stage) (evs : list Event) : bool :=
  existsb (fun e => stage_is s e && negb (ev_ok e)) evs.

(** Some call of stage [s] went through. *)
Definition succeeded (s : Stage) (evs : list Event) : bool :=
  existsb (fun e => stage_is s e && ev_ok e) evs.

(** The objects sent to Storage, in the order of the calls. *)
Definition uploads (evs : list Event) : list (string * File) :=
  omap (fun e => match ev_call e with
                 | UploadBytes p f => Some (p, f)
                 | _ => None
                 end) evs.

(** The object path of line 59 for a file uploaded at time [now]. *)
Definition storage_path (now : Z) (file : File) : string :=
  "prize_database/" +:+ pretty now +:+ "_" +:+ file_name file.

(** The line written by the handler of lines 104-106 for an error [e]. *)
Definition warning (e : exn) : string :=
  "Could not update sponsor prizesCreation:" +:+ " " +:+ message e.

(** No call is followed by a call of an earlier stage. *)
Definition stage_le (a b : Event) : Prop :=
  (stage_rank (stage (ev_call a)) <= stage_rank (stage (ev_call b)))%nat.

Definition in_stage_order (evs : list Event) : Prop :=
  StronglySorted stage_le evs.

Definition is_throw {A} (r : exn + A) : bool :=
  match r with inl _ => true | inr _ => false end.

(** The conditions under which each validator of the schema is silent. *)
Definition well_formed (v : FormValues.t) : Prop :=
  FormValues.prizeName v <> "" /\
  (String.length (FormValues.prizeName v) <= 200)%nat /\
  FormValues.quantityAvailable v <> "" /\
  FormValues.fullDescription v <> "" /\
  (String.length (FormValues.fullDescription v) <= 2000)%nat /\
  FormValues.tags v <> "" /\
  FormValues.sponsorId v <> "" /\
  FormValues.prizeCategory v <> "" /\
  FormValues.stockDate v <> "" /\
  FormValues.fulfillmentMethod v <> "" /\
  FormValues.deliveryTimeline v <> "" /\
  FormValues.claimWindow v <> "" /\
  FormValues.eligibleRegions v <> "" /\
  FormValues.retailValueUSD v <> "" /\
  FormValues.ageRestriction v <> "".

(** [parseFloat] reads a finite number that is not negative. *)
Definition nonneg_decimal (v : string) : bool :=
  match Js.parseFloat v with
  | S754_zero _ | S754_finite false _ _ => true
  | _ => false
  end.

(** An amount of [c] cents as typed with two decimals, "19.99" for 1999. *)
Definition cents_string (c : Z) : string :=
  pretty (c / 100) +:+ "." +:+ string_of_list_ascii (Js.low_digits 2 c).

(** In the words of the list screen's contract: the fraction shown for
    [r] cents of a dollar, [0 <= r < 100].  Nothing for a whole dollar,
    one digit for whole dimes, two digits otherwise. *)
Definition shown_cents (r : Z) : string :=
  if r =? 0 then ""
  else if r mod 10 =? 0 then "." +:+ pretty (r / 10)
  else "." +:+ pretty (r / 10) +:+ pretty (r mod 10).

(** A quarter of [c] cents in cents, halves rounded up. *)
Definition quarter_half_up (c : Z) : Z := (c + 2) / 4.

(** For the value of [c] cents, what is submitted is the double nearest
    to [k] cents and what is previewed is [k] cents with two decimals. *)
Definition break_even_is (c k : Z) : bool :=
  bool_decide (submitted_breakEven (cents_string c) = Js.of_decimal false k (-2))
  && String.eqb (breakEvenValue (cents_string c)) (cents_string k).

(** The amounts up to 100.00, in cents, whose break-even value comes out a
    cent below the quarter rounded half up. *)
Definition half_cent_slips : list Z :=
  [58; 114; 226; 230; 402; 406; 410; 414; 502; 506; 510; 854; 862; 870;
   878; 954; 962; 970; 978; 1606; 1658; 1674; 1690; 1706; 1758; 1774; 1790;
   1806; 1858; 1874; 1890; 1906; 1958; 1974; 1990; 2006; 3230; 3262; 3266;
   3298; 3330; 3362; 3366; 3398; 3430; 3462; 3466; 3498; 3530; 3562; 3566;
   3598; 3630; 3662; 3666; 3698; 3730; 3762; 3766; 3798; 3830; 3862; 3866;
   3898; 3930; 3962; 3966; 3998; 4030; 4062; 4066; 6410; 6446; 6474; 6482;
   6510; 6546; 6574; 6582; 6610; 6646; 6674; 6682; 6710; 6746; 6774; 6782;
   6810; 6846; 6874; 6882; 6910; 6946; 6974; 6982; 7010; 7046; 7074; 7082;
   7110; 7146; 7174; 7182; 7210; 7246; 7274; 7282; 7310; 7346; 7374; 7382;
   7410; 7446; 7474; 7482; 7510; 7546; 7574; 7582; 7610; 7646; 7674; 7682;
   7710; 7746; 7774; 7782; 7810; 7846; 7874; 7882; 7910; 7946; 7974; 7982;
   8010; 8046; 8074; 8082; 8110; 8146; 8174; 8182].

(** The break-even value, in cents, that the code gives for [c] cents. *)
Definition expected_cents (c : Z) : Z :=
  if existsb (Z.eqb c) half_cent_slips then quarter_half_up c - 1
  else quarter_half_up c.

Definition break_even_check (c : Z) : bool := break_even_is c (expected_cents c).

(** The largest amount, in cents, covered by the exhaustive check. *)
Definition checked_cents : Z := 10000.

(** [P] holds on the [n] integers from [c] on. *)
Fixpoint all_from (n : nat) (c : Z) (P : Z -> bool) : bool :=
  match n with
  | O => true
  | S n' => P c && all_from n' (c + 1) P
  end.

(** What can happen to a mounted modal: the user attaches or removes
    images, picks regions, types and adds a category, edits the form,
    submits; a file reader delivers a preview. *)
Inductive Action :=
  | Attach (files : option (list File))
  | ReaderLoaded (result : string)
  | Remove (idx : nat)
  | Toggle (region : string)
  | TypeCategory (text : string)
  | AddCategory
  | Edit (values : FormValues.t)
  | Submit.

Definition act (be : Backend) (s : Modal * World) (a : Action) : Modal * World :=
  let '(st, w) := s in
  match a with
  | Attach files => (handleImageUpload files st, w)
  | ReaderLoaded result => (reader_onload result st, w)
  | Remove idx => (removeImage idx st, w)
  | Toggle region => (toggleRegion region st, w)
  | TypeCategory text => (set_newCategory text st, w)
  | AddCategory => (addCategory st, w)
  | Edit values => (set_form values st, w)
  | Submit => handleSubmit be st w
  end.

(** ** Sample inputs

    A form that passes the schema, two staged files, a world with one
    sponsor, and backends that reject nothing, or one kind of call. *)

Definition sample_form : FormValues.t :=
  FormValues.mk "Smart TV" "3" (Some "55 inch") (Some "") (Some "4K")
    "A television." "tv, electronics" "s1" "Electronics" "2026-01-15"
    "Courier" "3-7 Days" "1 Week" false "arima, couva" "1000" "18+"
    true true (Some "") (Some "url") (Some "") (Some "") (Some false).

Definition sample_files : list File :=
  [mkFile "front.png" "PNG1"; mkFile "back.png" "PNG2"].

Definition sample_world : World :=
  mkWorld 1700000000000 ∅ ∅ {[ "s1" := ["p0"] ]} [] [].

(** The modal after "arima" and then "couva" have been picked. *)
Definition two_regions : Modal :=
  toggleRegion "couva" (toggleRegion "arima" initial_modal).

(** The modal with a valid form and nothing staged. *)
Definition filled_no_images : Modal := set_form sample_form initial_modal.

(** Six files picked at once. *)
Definition six_files : list File :=
  map (fun n => mkFile n "IMG") ["1.png"; "2.png"; "3.png"; "4.png"; "5.png"; "6.png"].

(** The modal with "  Toys  " typed into the new-category box. *)
Definition typed_toys : Modal := set_newCategory "  Toys  " initial_modal.

(** A read that returns two prizes, worth 1000 and 19.99. *)
Definition two_prizes : M (list (Prizes.Prize string)) :=
  mret [Prizes.mkPrize (Js.parseFloat "1000") "Smart TV";
        Prizes.mkPrize (Js.parseFloat "19.99") "Mug"].

Definition empty_page : Prizes.Page string := Prizes.mkPage true [] false.

Definition rejecting (which : Call -> bool) : Backend :=
  mkBackend (fun _ c => if which c then Some "unavailable" else None)
            (fun _ _ => 40)
            (fun path => "https://storage.example/" +:+ path)
            (fun w => "prize-" +:+ pretty (size (prize_database w))).

Definition backend_ok : Backend := rejecting (fun _ => false).

Definition backend_upload_fails : Backend :=
  rejecting (fun c => match c with
                      | UploadBytes _ f => bool_decide (file_name f = "back.png")
                      | _ => false
                      end).

Definition backend_insert_fails : Backend :=
  rejecting (fun c => match c with AddDoc _ _ => true | _ => false end).

Definition backend_link_fails : Backend :=
  rejecting (fun c => match c with UpdateDoc _ _ _ _ => true | _ => false end).

(** ** Render-time logic of the modal *)

(** A sponsor as the modal reads it (lines 178, 458-462 and 479-481): its
    id, name and status, and the optional list of logo URLs.  The type is
    declared in a module that is not part of the sources at hand. *)
Record Sponsor := mkSponsor {
  sponsor_id : string;
  sponsor_name : string;
  sponsor_status : string;
  sponsor_logo : option (list string)
}.

(** Lines 458-464: value and label of the items of the sponsor select. *)
Definition sponsorOptions (sponsors : list Sponsor) : list (string * string) :=
  map (fun s => (sponsor_id s, sponsor_name s))
      (filter (fun s => sponsor_status s = "Active") sponsors).

(** Line 178: [sponsors.find((s) => s.id === selectedSponsorId)]. *)
Definition selectedSponsor (sponsors : list Sponsor) (selectedSponsorId : string)
    : option Sponsor :=
  snd <$> list_find (fun s => sponsor_id s = selectedSponsorId) sponsors.

(** Lines 479-487: the logo shown, [None] for "No logo uploaded". *)
Definition shownLogo (sponsors : list Sponsor) (selectedSponsorId : string)
    : option string :=
  match selectedSponsor sponsors selectedSponsorId with
  | Some s =>
      match sponsor_logo s with
      | Some (url :: _) => if decide (url = "") then None else Some url
      | _ => None
      end
  | None => None
  end.

(** Line 400: the upload box is rendered while fewer than 4 files are staged. *)
Definition uploadBoxVisible (st : Modal) : bool :=
  bool_decide (length (imageFiles st) < 4)%nat.

(** Lines 741-742: the radio group shows [useStandardTerms] as "standard"
    or "custom" and stores a choice as [v === "standard"]. *)
Definition termsRadioValue (useStandardTerms : bool) : string :=
  if useStandardTerms then "standard" else "custom".

Definition termsRadioChange (v : string) : bool := bool_decide (v = "standard").

(** A backend rejects nothing. *)
Definition never_rejects (be : Backend) : Prop :=
  forall w c, fault be w c = None.

(** The calls of a list of events that went through. *)
Definition accepted_calls (evs : list Event) : list Call :=
  map ev_call (filter (fun e => ev_ok e = true) evs).

(** Objects present in a bucket are present in a later one. *)
Definition grows (s s' : gmap string File) : Prop :=
  forall p, is_Some (s !! p) -> is_Some (s' !! p).

(** A backend that rejects nothing and whose clock stands still. *)
Definition backend_frozen : Backend :=
  mkBackend (fun _ _ => None) (fun _ _ => 0)
            (fun path => "https://storage.example/" +:+ path)
            (fun w => "prize-" +:+ pretty (size (prize_database w))).

(** Two files with the same name and different contents. *)
Definition same_name_files : list File :=
  [mkFile "photo.png" "FIRST"; mkFile "photo.png" "SECOND"].

(** The modal with a valid form and two staged files. *)
Definition filled_two_images : Modal :=
  set_imageFiles sample_files (set_form sample_form initial_modal).

Definition sample_sponsors : list Sponsor :=
  [mkSponsor "s1" "Acme" "Active" (Some ["https://logo.example/acme.png"]);
   mkSponsor "s2" "Globex" "Suspended" None;
   mkSponsor "s3" "Initech" "Active" (Some [])].

(** A read of the prize collection that fails. *)
Definition failing_read : M (list (Prizes.Prize string)) :=
  fun w => (inl (Error "permission-denied"), w).

(** * Properties *)

(** ** The backend calls *)

Section ServiceFacts.
Variable be : Backend.

Lemma uploadBytes_inv p f w r w' :
  uploadBytes be p f w = (r, w') ->
  prize_database w' = prize_database w /\ sponsors w' = sponsors w /\
  console w' = console w /\
  exists ok, trace w' = trace w ++ [mkEvent (UploadBytes p f) ok] /\
             ok = negb (is_throw r) /\
             (ok = true -> storage w' !! p = Some f).
Proof.
  unfold uploadBytes, request. intros H.
  destruct (fault be w (UploadBytes p f)); simplify_eq/=.
  - repeat split; eauto. exists false. repeat split; auto. discriminate.
  - repeat split; eauto. exists true. repeat split; auto.
    intros _. apply lookup_insert_eq.
Qed.

Lemma getDownloadURL_inv p w r w' :
  getDownloadURL be p w = (r, w') ->
  prize_database w' = prize_database w /\ sponsors w' = sponsors w /\
  console w' = console w /\
  exists ok, trace w' = trace w ++ [mkEvent (GetDownloadURL p) ok] /\
             ok = negb (is_throw r) /\
             (ok = true -> r = inr (download_url be p)).
Proof.
  unfold getDownloadURL, request. intros H.
  destruct (fault be w (GetDownloadURL p)), (storage w !! p); simplify_eq/=;
    repeat split; eauto; eexists; repeat split; eauto; discriminate.
Qed.

Lemma addDoc_inv c d w r w' :
  addDoc be c d w = (r, w') ->
  sponsors w' = sponsors w /\ console w' = console w /\
  exists ok, trace w' = trace w ++ [mkEvent (AddDoc c d) ok] /\
             ok = negb (is_throw r) /\
             match r with
             | inr id =>
                 prize_database w' = <[id := d]> (prize_database w) /\
                 exists w1, id = auto_id be w1 /\
                            prize_database w1 = prize_database w /\
                            trace w1 = trace w
             | inl _ => prize_database w' = prize_database w
             end.
Proof.
  unfold addDoc, request. intros H.
  destruct (fault be w (AddDoc c d)); simplify_eq/=;
    repeat split; eauto; eexists; repeat split; eauto.
Qed.

Lemma updateDoc_inv id x w r w' :
  updateDoc be id x w = (r, w') ->
  prize_database w' = prize_database w /\ console w' = console w /\
  exists ok, trace w' = trace w ++ [mkEvent (UpdateDoc "sponsors" id "prizesCreation" x) ok] /\
             ok = negb (is_throw r) /\
             if ok then sponsors w' = alter (arrayUnion x) id (sponsors w)
                        /\ is_Some (sponsors w !! id)
             else sponsors w' = sponsors w.
Proof.
  unfold updateDoc, request. intros H.
  destruct (fault be w _), (sponsors w !! id) eqn:E; simplify_eq/=;
    repeat split; eauto; eexists; repeat split; eauto.
Qed.

Lemma uploadImages_cons file rest acc w :
  uploadImages be (file :: rest) acc w =
  match uploadBytes be (storage_path (clock w) file) file w with
  | (inl e, w1) => (inl e, w1)
  | (inr _, w1) =>
      match getDownloadURL be (storage_path (clock w) file) w1 with
      | (inl e, w2) => (inl e, w2)
      | (inr url, w2) => uploadImages be rest (acc ++ [url]) w2
      end
  end.
Proof. reflexivity. Qed.

Lemma uploadImages_inv files : forall acc w r w',
  uploadImages be files acc w = (r, w') ->
  prize_database w' = prize_database w /\ sponsors w' = sponsors w /\
  console w' = console w /\
  exists evs, trace w' = trace w ++ evs /\
    Forall (fun e => stage (ev_call e) = Uploading) evs /\
    match r with
    | inr urls =>
        Forall (fun e => ev_ok e = true) evs /\
        map snd (uploads evs) = files /\
        urls = acc ++ map (fun pf => download_url be pf.1) (uploads evs)
    | inl _ =>
        failed Uploading evs = true /\
        map snd (uploads evs) `prefix_of` files
    end.
Proof.
  induction files as [|file rest IH]; intros acc w r w' H.
  - cbn in H. unfold mret, M_ret, ret in H. simplify_eq. split_and!; auto.
    exists (@nil Event). rewrite !app_nil_r. split_and!; auto.
  - rewrite uploadImages_cons in H.
    set (p := storage_path (clock w) file) in *.
    destruct (uploadBytes be p file w) as [r1 w1] eqn:E1.
    apply uploadBytes_inv in E1 as (Hp1 & Hs1 & Hc1 & ok1 & Ht1 & Hok1 & _).
    destruct r1 as [e1|[]]; simpl in Hok1; subst ok1.
    { simplify_eq. split_and!; auto.
      eexists; split; [eassumption|]. split_and!.
      - repeat constructor.
      - reflexivity.
      - cbn. exists rest. reflexivity. }
    destruct (getDownloadURL be p w1) as [r2 w2] eqn:E2.
    apply getDownloadURL_inv in E2 as (Hp2 & Hs2 & Hc2 & ok2 & Ht2 & Hok2 & Hu2).
    destruct r2 as [e2|url]; simpl in Hok2; subst ok2.
    { simplify_eq. split_and!; try congruence.
      eexists; split; [rewrite Ht2, Ht1, <- app_assoc; reflexivity|].
      split_and!.
      - repeat constructor.
      - reflexivity.
      - cbn. exists rest. reflexivity. }
    specialize (Hu2 eq_refl). simplify_eq.
    apply IH in H as (Hp3 & Hs3 & Hc3 & evs & Ht3 & Hst & Hr).
    split_and!; try congruence.
    exists (mkEvent (UploadBytes p file) true :: mkEvent (GetDownloadURL p) true :: evs).
    split; [rewrite Ht3, Ht2, Ht1, <- !app_assoc; reflexivity|].
    split; [repeat constructor; assumption|].
    change (uploads (_ :: _ :: evs)) with ((p, file) :: uploads evs).
    destruct r as [e|urls].
    + destruct Hr as [Hf Hpre]. split.
      * exact Hf.
      * cbn [map snd]. apply prefix_cons. assumption.
    + destruct Hr as (Hok & Hfs & Hurls). split_and!.
      * repeat constructor; assumption.
      * cbn [map snd]. congruence.
      * rewrite Hurls, <- app_assoc. reflexivity.
Qed.

Lemma createPrizeDocument_unfold data files sid w :
  createPrizeDocument be data files sid w =
  match uploadImages be files [] w with
  | (inl e, w1) => (inl e, w1)
  | (inr urls, w1) =>
      match addDoc be "prize_database" (buildPrizeDoc data urls (clock w1)) w1 with
      | (inl e, w2) => (inl e, w2)
      | (inr id, w2) =>
          match updateDoc be sid id w2 with
          | (inl err, w3) => (inr id, log_console (warning err) w3)
          | (inr _, w3) => (inr id, w3)
          end
      end
  end.
Proof.
  unfold createPrizeDocument, mbind, M_bind, bind, try_catch, Timestamp_now.
  destruct (uploadImages be files [] w) as [[e|urls] w1]; [reflexivity|].
  destruct (addDoc be _ _ w1) as [[e|id] w2]; [reflexivity|].
  destruct (updateDoc be sid id w2) as [[e|[]] w3]; reflexivity.
Qed.

(** The four ways a run can go. *)
Lemma createPrizeDocument_run data files sid w r w' :
  createPrizeDocument be data files sid w = (r, w') ->
  exists evs,
    Forall (fun e => stage (ev_call e) = Uploading) evs /\
    map snd (uploads evs) `prefix_of` files /\
    ((is_throw r = true /\ trace w' = trace w ++ evs /\
      failed Uploading evs = true /\
      prize_database w' = prize_database w /\ sponsors w' = sponsors w /\
      console w' = console w)
     \/
     exists doc,
       Forall (fun e => ev_ok e = true) evs /\
       map snd (uploads evs) = files /\
       PrizeDoc.images doc = map (fun pf => download_url be pf.1) (uploads evs) /\
       (exists now, doc = buildPrizeDoc data (PrizeDoc.images doc) now) /\
       ((is_throw r = true /\
         trace w' = trace w ++ evs ++ [mkEvent (AddDoc "prize_database" doc) false] /\
         prize_database w' = prize_database w /\ sponsors w' = sponsors w /\
         console w' = console w)
        \/
        exists id up,
          r = inr id /\
          trace w' = trace w ++ evs ++
                     [mkEvent (AddDoc "prize_database" doc) true;
                      mkEvent (UpdateDoc "sponsors" sid "prizesCreation" id) up] /\
          prize_database w' = <[id := doc]> (prize_database w) /\
          (exists w1, id = auto_id be w1 /\
                      prize_database w1 = prize_database w /\
                      trace w1 = trace w ++ evs) /\
          if up then
            sponsors w' = alter (arrayUnion id) sid (sponsors w) /\
            is_Some (sponsors w !! sid) /\ console w' = console w
          else
            sponsors w' = sponsors w /\
            exists err, console w' = console w ++ [warning err])).
Proof.
  rewrite createPrizeDocument_unfold. intros H.
  destruct (uploadImages be files [] w) as [r1 w1] eqn:E1.
  apply uploadImages_inv in E1 as (Hp1 & Hs1 & Hc1 & evs & Ht1 & Hst & Hr).
  exists evs. split; [assumption|].
  destruct r1 as [e|urls].
  { destruct Hr as [Hf Hpre]. simplify_eq. split; [assumption|].
    left. split_and!; try reflexivity; auto. }
  destruct Hr as (Hok & Hfs & Hurls). simpl in Hurls.
  split; [rewrite Hfs; reflexivity|]. right.
  set (doc := buildPrizeDoc data urls (clock w1)) in *.
  exists doc. split_and!; auto.
  { exists (clock w1). reflexivity. }
  destruct (addDoc be "prize_database" doc w1) as [r2 w2] eqn:E2.
  apply addDoc_inv in E2 as (Hs2 & Hc2 & ok2 & Ht2 & Hok2 & Hp2).
  destruct r2 as [e|id]; simpl in Hok2; subst ok2.
  { simplify_eq. left. split_and!; try reflexivity; try congruence.
    rewrite Ht2, Ht1, <- app_assoc. reflexivity. }
  right.
  destruct (updateDoc be sid id w2) as [r3 w3] eqn:E3.
  apply updateDoc_inv in E3 as (Hp3 & Hc3 & ok3 & Ht3 & Hok3 & Hsp3).
  exists id, ok3.
  assert (Htr : trace w3 = trace w ++ evs ++
                [mkEvent (AddDoc "prize_database" doc) true;
                 mkEvent (UpdateDoc "sponsors" sid "prizesCreation" id) ok3]).
  { rewrite Ht3, Ht2, Ht1, <- !app_assoc. reflexivity. }
  destruct Hp2 as (Hp2 & wi & Hid & Hpi & Hti).
  assert (Hgen : exists w1, id = auto_id be w1 /\
                   prize_database w1 = prize_database w /\
                   trace w1 = trace w ++ evs).
  { exists wi. split_and!; congruence. }
  destruct r3 as [err|[]]; simpl in Hok3; subst ok3; simplify_eq; cbn.
  - split_and!; try congruence. exists err. congruence.
  - destruct Hsp3 as [Hsp3 Hsome].
    split_and!; try congruence.
Qed.

End ServiceFacts.

(** ** Traces *)

Lemma new_events_app w w' evs :
  trace w' = trace w ++ evs -> new_events w w' = evs.
Proof. intros H. unfold new_events. rewrite H. apply drop_app_length. Qed.

Lemma failed_app s a b : failed s (a ++ b) = failed s a || failed s b.
Proof. apply existsb_app. Qed.

Lemma attempted_app s a b : attempted s (a ++ b) = attempted s a || attempted s b.
Proof. apply existsb_app. Qed.

Lemma succeeded_app s a b : succeeded s (a ++ b) = succeeded s a || succeeded s b.
Proof. apply existsb_app. Qed.

Lemma failed_all_ok s evs :
  Forall (fun e => ev_ok e = true) evs -> failed s evs = false.
Proof.
  unfold failed. induction 1 as [|e evs He _ IH]; [reflexivity|].
  cbn [existsb]. rewrite He, IH. cbn. rewrite andb_false_r. reflexivity.
Qed.

Lemma attempted_other_stage s evs :
  Forall (fun e => stage (ev_call e) = Uploading) evs -> s <> Uploading ->
  attempted s evs = false.
Proof.
  unfold attempted. intros Hall Hs.
  induction Hall as [|e evs He _ IH]; [reflexivity|].
  cbn [existsb]. rewrite IH. unfold stage_is. rewrite He.
  destruct s; [congruence|reflexivity..].
Qed.

Lemma failed_not_attempted s evs : attempted s evs = false -> failed s evs = false.
Proof.
  unfold attempted, failed.
  induction evs as [|e evs IH]; [reflexivity|]. cbn [existsb].
  intros [H1 H2]%orb_false_elim. rewrite H1, (IH H2). reflexivity.
Qed.

Lemma succeeded_not_attempted s evs : attempted s evs = false -> succeeded s evs = false.
Proof.
  unfold attempted, succeeded.
  induction evs as [|e evs IH]; [reflexivity|]. cbn [existsb].
  intros [H1 H2]%orb_false_elim. rewrite H1, (IH H2). reflexivity.
Qed.

Lemma uploads_other_stage evs :
  Forall (fun e => stage (ev_call e) <> Uploading) evs -> uploads evs = [].
Proof.
  induction 1 as [|e evs He _ IH]; [reflexivity|].
  unfold uploads in *. cbn. rewrite IH.
  destruct (ev_call e); cbn in *; congruence.
Qed.

Lemma uploads_app a b : uploads (a ++ b) = uploads a ++ uploads b.
Proof. apply omap_app. Qed.

Lemma in_stage_order_app evs tail :
  Forall (fun e => stage (ev_call e) = Uploading) evs ->
  in_stage_order tail -> in_stage_order (evs ++ tail).
Proof.
  intros Hall Htail. induction Hall as [|e evs He _ IH]; [exact Htail|].
  cbn. constructor; [exact IH|].
  apply Forall_forall. intros b _. unfold stage_le. rewrite He. cbn. lia.
Qed.

(** ** Claims on createPrizeDocument *)

(** C1.  The stages of createPrizeDocument run in order: the calls of a
    run are the uploads of a prefix of the staged files, in their order,
    then at most the insert, then at most the sponsor update.  When an
    image upload is rejected the function throws, no insert and no sponsor
    update has been attempted and neither collection has changed; when the
    insert is rejected (every upload having gone through) the function
    throws and no sponsor update has been attempted. *)
Theorem createPrizeDocument_stages be data imageFiles sponsorId w r w' :
  createPrizeDocument be data imageFiles sponsorId w = (r, w') ->
  let evs := new_events w w' in
  trace w' = trace w ++ evs /\
  in_stage_order evs /\
  map snd (uploads evs) `prefix_of` imageFiles /\
  (failed Uploading evs = true ->
     is_throw r = true /\
     attempted Persisting evs = false /\
     attempted LinkingSponsor evs = false /\
     prize_database w' = prize_database w /\ sponsors w' = sponsors w) /\
  (failed Persisting evs = true ->
     is_throw r = true /\
     failed Uploading evs = false /\
     map snd (uploads evs) = imageFiles /\
     attempted LinkingSponsor evs = false /\
     prize_database w' = prize_database w /\ sponsors w' = sponsors w).
Proof.
  intros H.
  apply createPrizeDocument_run in H as (ups & Hst & Hpre & Hcases).
  assert (HnP : attempted Persisting ups = false)
    by (apply attempted_other_stage; [assumption|discriminate]).
  assert (HnL : attempted LinkingSponsor ups = false)
    by (apply attempted_other_stage; [assumption|discriminate]).
  destruct Hcases as [(Hthrow & Ht & Hf & Hp & Hs & _)
                     | (doc & Hok & Hfiles & _ & _ & Hcases)].
  - (* an upload was rejected *)
    cbv zeta. rewrite (new_events_app _ _ _ Ht).
    split_and!; auto.
    + rewrite <- (app_nil_r ups). apply in_stage_order_app; [assumption|constructor].
    + intros HfP. rewrite (failed_not_attempted _ _ HnP) in HfP. discriminate.
  - pose proof (failed_all_ok Uploading ups Hok) as HfU.
    destruct Hcases as [(Hthrow & Ht & Hp & Hs & _)
                       | (id & up & -> & Ht & Hp & _ & Hup)].
    + (* the insert was rejected *)
      cbv zeta. rewrite (new_events_app _ _ _ Ht).
      rewrite !failed_app, !attempted_app, uploads_app, HfU, HnL.
      rewrite (failed_not_attempted _ _ HnP). cbn. unfold stage_is. cbn.
      rewrite app_nil_r, Hfiles.
      split_and!; auto; try discriminate;
        try (intros _; split_and!; auto; fail).
      apply in_stage_order_app; [assumption|repeat constructor].
    + (* the insert went through *)
      cbv zeta. rewrite (new_events_app _ _ _ Ht).
      rewrite !failed_app, !attempted_app, uploads_app, HfU.
      rewrite (failed_not_attempted _ _ HnP). cbn. unfold stage_is. cbn.
      rewrite app_nil_r, Hfiles.
      split_and!; auto; try discriminate;
        try (intros _; split_and!; auto; fail).
      apply in_stage_order_app; [assumption|].
      repeat constructor.
Qed.

Lemma createPrizeDocument_stages_witness :
  exists r w',
    createPrizeDocument backend_insert_fails (submitted_data sample_form)
      sample_files "s1" sample_world = (r, w') /\
    failed Persisting (new_events sample_world w') = true /\
    is_throw r = true /\
    attempted LinkingSponsor (new_events sample_world w') = false /\
    prize_database w' = prize_database sample_world.
Proof.
  pose (run := createPrizeDocument backend_insert_fails
                 (submitted_data sample_form) sample_files "s1" sample_world).
  assert (Hrun : run = (run.1, run.2)) by apply surjective_pairing.
  exists run.1, run.2. split; [exact Hrun|].
  assert (Hf : failed Persisting (new_events sample_world run.2) = true)
    by (vm_compute; reflexivity).
  split; [exact Hf|].
  destruct (createPrizeDocument_stages _ _ _ _ _ _ _ Hrun) as (_ & _ & _ & _ & HP).
  destruct (HP Hf) as (Hthrow & _ & _ & HnL & Hp & _).
  split_and!; assumption.
Defined.

(** The same run with the second upload rejected: one file has gone to
    Storage, nothing else has happened. *)
Example upload_rejected_run :
  let run := createPrizeDocument backend_upload_fails (submitted_data sample_form)
               sample_files "s1" sample_world in
  run.1 = inl (Error "unavailable") /\
  map (fun e => (stage (ev_call e), ev_ok e)) (trace run.2)
    = [(Uploading, true); (Uploading, true); (Uploading, false)] /\
  map snd (uploads (trace run.2)) = [mkFile "front.png" "PNG1"; mkFile "back.png" "PNG2"] /\
  prize_database run.2 = ∅.
Proof. vm_compute. split_and!; reflexivity. Qed.

(** C2.  When the uploads and the insert go through, createPrizeDocument
    returns the identifier generated for the new document, whether or not
    the sponsor update goes through.  A rejected sponsor update leaves one
    warning on the console, changes no sponsor, and the document stays in
    the collection under the returned identifier. *)
Theorem createPrizeDocument_link_best_effort be data imageFiles sponsorId w r w' :
  createPrizeDocument be data imageFiles sponsorId w = (r, w') ->
  failed Uploading (new_events w w') = false ->
  succeeded Persisting (new_events w w') = true ->
  exists id doc,
    r = inr id /\
    (exists w1, id = auto_id be w1 /\ prize_database w1 = prize_database w) /\
    prize_database w' = <[id := doc]> (prize_database w) /\
    prize_database w' !! id = Some doc /\
    if failed LinkingSponsor (new_events w w')
    then sponsors w' = sponsors w /\
         exists err, console w' = console w ++ [warning err]
    else console w' = console w.
Proof.
  intros H HfU HsP.
  apply createPrizeDocument_run in H as (ups & Hst & Hpre & Hcases).
  assert (HnP : attempted Persisting ups = false)
    by (apply attempted_other_stage; [assumption|discriminate]).
  assert (HnL : attempted LinkingSponsor ups = false)
    by (apply attempted_other_stage; [assumption|discriminate]).
  destruct Hcases as [(_ & Ht & Hf & _) | (doc & Hok & _ & _ & _ & Hcases)].
  { rewrite (new_events_app _ _ _ Ht) in HfU. congruence. }
  destruct Hcases as [(_ & Ht & _) | (id & up & -> & Ht & Hp & Hgen & Hup)].
  { rewrite (new_events_app _ _ _ Ht), succeeded_app in HsP.
    rewrite (succeeded_not_attempted _ _ HnP) in HsP. discriminate. }
  rewrite (new_events_app _ _ _ Ht).
  rewrite failed_app, (failed_not_attempted _ _ HnL).
  exists id, doc. split_and!; auto.
  - destruct Hgen as (w1 & ? & ? & _). eauto.
  - rewrite Hp. apply lookup_insert_eq.
  - destruct up; cbn.
    + destruct Hup as (_ & _ & Hc). exact Hc.
    + exact Hup.
Qed.

Lemma createPrizeDocument_link_best_effort_witness :
  exists r w',
    createPrizeDocument backend_link_fails (submitted_data sample_form)
      sample_files "s1" sample_world = (r, w') /\
    failed Uploading (new_events sample_world w') = false /\
    succeeded Persisting (new_events sample_world w') = true /\
    failed LinkingSponsor (new_events sample_world w') = true /\
    exists id doc, r = inr id /\ prize_database w' !! id = Some doc.
Proof.
  pose (run := createPrizeDocument backend_link_fails
                 (submitted_data sample_form) sample_files "s1" sample_world).
  assert (Hrun : run = (run.1, run.2)) by apply surjective_pairing.
  exists run.1, run.2. split; [exact Hrun|].
  assert (HfU : failed Uploading (new_events sample_world run.2) = false)
    by (vm_compute; reflexivity).
  assert (HsP : succeeded Persisting (new_events sample_world run.2) = true)
    by (vm_compute; reflexivity).
  assert (HfL : failed LinkingSponsor (new_events sample_world run.2) = true)
    by (vm_compute; reflexivity).
  split_and!; [exact HfU|exact HsP|exact HfL|].
  destruct (createPrizeDocument_link_best_effort _ _ _ _ _ _ _ Hrun HfU HsP)
    as (id & doc & Hr & _ & _ & Hdoc & _).
  exists id, doc. split; assumption.
Defined.

Lemma thumbnail_is_first_image data urls now :
  match urls with
  | [] => PrizeDoc.thumbnail (buildPrizeDoc data urls now) = ""
  | u :: _ => PrizeDoc.thumbnail (buildPrizeDoc data urls now) = u
  end.
Proof.
  destruct urls as [|u urls]; cbn; [reflexivity|].
  destruct (decide (u = "")); congruence.
Qed.

(** C3.  When createPrizeDocument returns an identifier, the collection
    holds under it a document whose images are the download URLs of the
    staged files, one per file and in the order of the uploads, whose
    thumbnail is the first image (the empty string when there is none),
    and whose status is the status passed in, which the submit handler
    sets to "Active".  When the sponsor update went through, the
    sponsor's prizesCreation array contains the identifier. *)
Theorem createPrizeDocument_persisted be data imageFiles sponsorId w id w' :
  createPrizeDocument be data imageFiles sponsorId w = (inr id, w') ->
  exists doc,
    prize_database w' !! id = Some doc /\
    map snd (uploads (new_events w w')) = imageFiles /\
    PrizeDoc.images doc
      = map (fun pf => download_url be pf.1) (uploads (new_events w w')) /\
    length (PrizeDoc.images doc) = length imageFiles /\
    (imageFiles <> [] -> PrizeDoc.images doc !! 0%nat = Some (PrizeDoc.thumbnail doc)) /\
    (imageFiles = [] -> PrizeDoc.thumbnail doc = "") /\
    PrizeDoc.status doc = CreatePrizeData.status data /\
    (forall values, data = submitted_data values -> PrizeDoc.status doc = "Active") /\
    (succeeded LinkingSponsor (new_events w w') = true ->
       exists arr, sponsors w' !! sponsorId = Some arr /\ id ∈ arr).
Proof.
  intros H.
  apply createPrizeDocument_run in H as (ups & Hst & Hpre & Hcases).
  destruct Hcases as [(Hthrow & _) | (doc & Hok & Hfiles & Himg & [now Hdoc] & Hcases)];
    [discriminate|].
  destruct Hcases as [(Hthrow & _) | (id' & up & Hid & Ht & Hp & _ & Hup)];
    [discriminate|].
  injection Hid as <-.
  rewrite (new_events_app _ _ _ Ht), uploads_app.
  rewrite (uploads_other_stage [_; _]) by (repeat constructor; discriminate).
  rewrite app_nil_r.
  assert (Hlen : length (PrizeDoc.images doc) = length imageFiles).
  { rewrite Himg, length_map, <- (length_map snd), Hfiles. reflexivity. }
  pose proof (thumbnail_is_first_image data (PrizeDoc.images doc) now) as Hthumb.
  rewrite <- Hdoc in Hthumb.
  exists doc. split_and!; auto.
  - rewrite Hp. apply lookup_insert_eq.
  - intros Hne. destruct (PrizeDoc.images doc) as [|u urls].
    + destruct imageFiles; [congruence|discriminate].
    + cbn. congruence.
  - intros ->. destruct (PrizeDoc.images doc); [exact Hthumb|discriminate].
  - rewrite Hdoc. reflexivity.
  - intros values ->. rewrite Hdoc. reflexivity.
  - rewrite succeeded_app.
    rewrite (succeeded_not_attempted _ ups)
      by (apply attempted_other_stage; [assumption|discriminate]).
    destruct up; cbn; [intros _|discriminate].
    destruct Hup as (Hs & [arr Harr] & _).
    exists (arrayUnion id arr). split.
    + rewrite Hs. rewrite lookup_alter_eq, Harr. reflexivity.
    + unfold arrayUnion. destruct (decide (id ∈ arr)); [assumption|].
      apply elem_of_app. right. apply list_elem_of_singleton. reflexivity.
Qed.

Lemma createPrizeDocument_persisted_witness :
  exists id w',
    createPrizeDocument backend_ok (submitted_data sample_form)
      sample_files "s1" sample_world = (inr id, w') /\
    succeeded LinkingSponsor (new_events sample_world w') = true /\
    exists doc arr,
      prize_database w' !! id = Some doc /\
      length (PrizeDoc.images doc) = 2%nat /\
      PrizeDoc.status doc = "Active" /\
      sponsors w' !! "s1" = Some arr /\ id ∈ arr.
Proof.
  pose (run := createPrizeDocument backend_ok
                 (submitted_data sample_form) sample_files "s1" sample_world).
  assert (Hrun : run = (inr "prize-0", run.2)) by (vm_compute; reflexivity).
  exists "prize-0", run.2. split; [exact Hrun|].
  assert (HsL : succeeded LinkingSponsor (new_events sample_world run.2) = true)
    by (vm_compute; reflexivity).
  split; [exact HsL|].
  destruct (createPrizeDocument_persisted _ _ _ _ _ _ _ Hrun)
    as (doc & Hdoc & _ & _ & Hlen & _ & _ & _ & Hact & Hlink).
  destruct (Hlink HsL) as (arr & Harr & Hin).
  exists doc, arr. split_and!; eauto.
Defined.

(** ** Claims on the modal *)

(** C5.  With no staged image, the submit handler adds one toast, titled
    "Images required", and returns: form, errors and flags are as they
    were and the world, and with it the trace of network calls, is the one
    it started from, whatever the form holds.  The handler is reached only
    through the schema: an accepted form gets this toast and no field
    error, a form with issues gets its field errors and no toast.  No
    other handler of the modal adds a toast, and a submission with a file
    staged adds a different one. *)
Theorem onSubmit_requires_images be st w :
  imageFiles st = [] ->
  let notification :=
    mkToast "Images required" "Please upload at least one image." "destructive" in
  (forall values,
     toasts (onSubmit be values st w).1 = toasts st ++ [notification] /\
     errors (onSubmit be values st w).1 = errors st /\
     form (onSubmit be values st w).1 = form st /\
     saving (onSubmit be values st w).1 = saving st /\
     open (onSubmit be values st w).1 = open st /\
     created (onSubmit be values st w).1 = created st /\
     (onSubmit be values st w).2 = w) /\
  (accepts (form st) = true ->
     toasts (handleSubmit be st w).1 = toasts st ++ [notification] /\
     errors (handleSubmit be st w).1 = []) /\
  (accepts (form st) = false ->
     toasts (handleSubmit be st w).1 = toasts st /\
     errors (handleSubmit be st w).1 = formSchema (form st) /\
     formSchema (form st) <> []) /\
  (handleSubmit be st w).2 = w /\
  new_events w (handleSubmit be st w).2 = [] /\
  (forall st0 w0 a, a <> Submit -> toasts (act be (st0, w0) a).1 = toasts st0) /\
  (forall values st0, imageFiles st0 <> [] ->
     exists t, toasts (onSubmit be values st0 w).1 = toasts st0 ++ [t] /\
               t <> notification).
Proof.
  intros Hnone notification.
  assert (Hsub : forall values st0, imageFiles st0 = [] ->
            onSubmit be values st0 w = (toast images_required st0, w)).
  { intros values st0 H0. unfold onSubmit. rewrite H0. reflexivity. }
  assert (Hhs : handleSubmit be st w =
    (if accepts (form st) then toast images_required (set_errors [] st)
     else set_errors (formSchema (form st)) st, w)).
  { unfold handleSubmit, accepts.
    destruct (formSchema (form st)); [|reflexivity].
    apply Hsub. exact Hnone. }
  split; [|split; [|split; [|split; [|split; [|split]]]]].
  - intros values. rewrite (Hsub values st Hnone). split_and!; reflexivity.
  - intros Hacc. rewrite Hhs, Hacc. split; reflexivity.
  - intros Hrej. rewrite Hhs, Hrej. split_and!; [reflexivity..|].
    unfold accepts in Hrej. destruct (formSchema (form st)); [discriminate|].
    discriminate.
  - rewrite Hhs. reflexivity.
  - rewrite Hhs. cbn [snd]. unfold new_events. apply drop_all.
  - intros st0 w0 a Ha. destruct a; cbn [act fst]; try reflexivity.
    + destruct files; reflexivity.
    + unfold addCategory. destruct (decide _); reflexivity.
    + congruence.
  - intros values st0 Hfiles. unfold onSubmit.
    rewrite decide_False
      by (destruct (imageFiles st0); [congruence|discriminate]).
    cbn [imageFiles set_saving].
    destruct (createPrizeDocument be _ _ _ w) as [[err|id] w'];
      cbn [fst]; eexists; (split; [reflexivity|discriminate]).
Qed.

Lemma onSubmit_requires_images_witness :
  imageFiles filled_no_images = [] /\
  accepts (form filled_no_images) = true /\
  toasts (handleSubmit backend_ok filled_no_images sample_world).1
    = [mkToast "Images required" "Please upload at least one image."
               "destructive"] /\
  (handleSubmit backend_ok filled_no_images sample_world).2 = sample_world.
Proof.
  assert (H0 : imageFiles filled_no_images = []) by reflexivity.
  assert (Hacc : accepts (form filled_no_images) = true) by (vm_compute; reflexivity).
  split_and!; [exact H0|exact Hacc|..];
    destruct (onSubmit_requires_images backend_ok filled_no_images sample_world H0)
      as (_ & Hok & _ & Hw & _).
  - exact (proj1 (Hok Hacc)).
  - exact Hw.
Defined.

(** A form with an issue and no image: field errors, no notification. *)
Example invalid_form_no_notification :
  handleSubmit backend_ok initial_modal sample_world =
    (set_errors (formSchema FormValues.defaultValues) initial_modal, sample_world) /\
  length (formSchema FormValues.defaultValues) = 13%nat.
Proof. vm_compute. split; reflexivity. Qed.

Lemma filter_out_itself (region : string) :
  filter (fun r => r <> region) [region] = [].
Proof. rewrite filter_cons_False by tauto. reflexivity. Qed.

Lemma toggled_twice region prev :
  toggled region (toggled region prev) =
    if decide (region ∈ prev)
    then filter (fun r => r <> region) prev ++ [region]
    else prev.
Proof.
  unfold toggled at 2. destruct (decide (region ∈ prev)) as [Hin|Hnot].
  - unfold toggled. rewrite decide_False; [reflexivity|].
    rewrite list_elem_of_filter. tauto.
  - unfold toggled. rewrite decide_True.
    + rewrite filter_app, filter_out_itself.
      rewrite app_nil_r. induction prev as [|x prev IH]; [reflexivity|].
      apply not_elem_of_cons in Hnot as [Hx Hnot].
      rewrite filter_cons_True by congruence. f_equal. exact (IH Hnot).
    + apply elem_of_app. right. apply list_elem_of_singleton. reflexivity.
Qed.

Lemma toggled_keeps_others region prev :
  filter (fun r => r <> region) (toggled region prev)
    = filter (fun r => r <> region) prev.
Proof.
  unfold toggled. destruct (decide (region ∈ prev)).
  - rewrite list_filter_filter. apply list_filter_iff. tauto.
  - rewrite filter_app, filter_out_itself. apply app_nil_r.
Qed.

Lemma toggleRegion_fields region st :
  selectedRegions (toggleRegion region st) = toggled region (selectedRegions st) /\
  FormValues.eligibleRegions (form (toggleRegion region st))
    = Js.join ", " (toggled region (selectedRegions st)).
Proof. split; reflexivity. Qed.

(** C6 (as the code has it).  Every toggle rewrites eligibleRegions as the
    selected regions joined by ", ", and keeps the other regions in their
    order.  Toggling a region that is not selected, twice, gives back the
    list and the string; toggling a selected region twice moves it to the
    end of the list. *)
Theorem toggleRegion_twice region st :
  let st1 := toggleRegion region st in
  let st2 := toggleRegion region st1 in
  FormValues.eligibleRegions (form st1) = Js.join ", " (selectedRegions st1) /\
  filter (fun r => r <> region) (selectedRegions st1)
    = filter (fun r => r <> region) (selectedRegions st) /\
  selectedRegions st2 =
    (if decide (region ∈ selectedRegions st)
     then filter (fun r => r <> region) (selectedRegions st) ++ [region]
     else selectedRegions st) /\
  FormValues.eligibleRegions (form st2) = Js.join ", " (selectedRegions st2) /\
  (region ∉ selectedRegions st ->
   FormValues.eligibleRegions (form st) = Js.join ", " (selectedRegions st) ->
   FormValues.eligibleRegions (form st2) = FormValues.eligibleRegions (form st)).
Proof.
  cbv zeta.
  destruct (toggleRegion_fields region st) as [Hl1 Hs1].
  destruct (toggleRegion_fields region (toggleRegion region st)) as [Hl2 Hs2].
  rewrite Hl1 in Hl2, Hs2. rewrite toggled_twice in Hl2, Hs2.
  split_and!.
  - rewrite Hs1, Hl1. reflexivity.
  - rewrite Hl1. apply toggled_keeps_others.
  - exact Hl2.
  - rewrite Hs2, Hl2. reflexivity.
  - intros Hnot Hinv. rewrite Hs2, Hinv, decide_False by assumption. reflexivity.
Qed.

Lemma toggleRegion_twice_witness :
  ("tobago" ∉ selectedRegions two_regions) /\
  FormValues.eligibleRegions (form two_regions)
    = Js.join ", " (selectedRegions two_regions) /\
  FormValues.eligibleRegions
    (form (toggleRegion "tobago" (toggleRegion "tobago" two_regions)))
    = FormValues.eligibleRegions (form two_regions).
Proof.
  assert (Hnot : "tobago" ∉ selectedRegions two_regions).
  { vm_compute. intros H. repeat (apply elem_of_cons in H as [H|H]; [discriminate|]).
    inversion H. }
  assert (Hinv : FormValues.eligibleRegions (form two_regions)
                 = Js.join ", " (selectedRegions two_regions)) by reflexivity.
  split_and!; [exact Hnot|exact Hinv|].
  destruct (toggleRegion_twice "tobago" two_regions) as (_ & _ & _ & _ & H).
  exact (H Hnot Hinv).
Defined.

(** C6 as stated fails: with "arima" and "couva" selected in that order,
    toggling "arima" twice leaves "couva, arima". *)
Lemma toggleRegion_twice_counterexample :
  FormValues.eligibleRegions (form two_regions) = "arima, couva" /\
  FormValues.eligibleRegions
    (form (toggleRegion "arima" (toggleRegion "arima" two_regions)))
    = "couva, arima" /\
  FormValues.eligibleRegions
    (form (toggleRegion "arima" (toggleRegion "arima" two_regions)))
    <> FormValues.eligibleRegions (form two_regions).
Proof. vm_compute. split_and!; [reflexivity|reflexivity|discriminate]. Qed.

Lemma slice0_take {A} (l : list A) (n : nat) :
  Js.slice0 l (Z.of_nat n) = take n l.
Proof.
  unfold Js.slice0.
  destruct (Z.ltb_spec (Z.of_nat n) 0) as [Hneg|_]; [lia|].
  destruct (Nat.le_gt_cases n (length l)) as [Hle|Hgt].
  - rewrite Z.min_l by lia. rewrite Nat2Z.id. reflexivity.
  - rewrite Z.min_r by lia. rewrite Nat2Z.id.
    rewrite !take_ge by lia. reflexivity.
Qed.

Lemma handleImageUpload_files files st :
  (length (imageFiles st) <= 4)%nat ->
  imageFiles (handleImageUpload (Some files) st)
    = imageFiles st ++ take (4 - length (imageFiles st)) files.
Proof.
  intros Hk. unfold handleImageUpload. cbn.
  replace (4 - Z.of_nat (length (imageFiles st)))
    with (Z.of_nat (4 - length (imageFiles st))) by lia.
  rewrite slice0_take. reflexivity.
Qed.

Lemma handleImageUpload_length files st :
  (length (imageFiles st) <= 4)%nat ->
  length (imageFiles (handleImageUpload (Some files) st))
    = Nat.min (length (imageFiles st) + length files) 4.
Proof.
  intros Hk. rewrite handleImageUpload_files by exact Hk.
  rewrite length_app, length_take. lia.
Qed.

(** C7.  With [k <= 4] files staged, attaching [m] files appends the first
    [4 - k] of them, in their order, and drops the rest without a
    notification or an error: [min (k + m) 4] files are staged afterwards,
    never more than 4; six files attached to an empty list leave its first
    four. *)
Theorem handleImageUpload_cap files st :
  (length (imageFiles st) <= 4)%nat ->
  let st' := handleImageUpload (Some files) st in
  imageFiles st' = imageFiles st ++ take (4 - length (imageFiles st)) files /\
  length (imageFiles st') = Nat.min (length (imageFiles st) + length files) 4 /\
  (length (imageFiles st') <= 4)%nat /\
  toasts st' = toasts st /\ errors st' = errors st /\
  (imageFiles st = [] -> length files = 6%nat -> imageFiles st' = take 4 files).
Proof.
  intros Hk st'.
  pose proof (handleImageUpload_files files st Hk) as Hfiles.
  fold st' in Hfiles.
  pose proof (handleImageUpload_length files st Hk) as Hlen.
  fold st' in Hlen.
  split_and!.
  - exact Hfiles.
  - exact Hlen.
  - rewrite Hlen. lia.
  - reflexivity.
  - reflexivity.
  - intros Hnil _. rewrite Hfiles, Hnil. reflexivity.
Qed.

Lemma handleImageUpload_cap_witness :
  (length (imageFiles initial_modal) <= 4)%nat /\
  imageFiles (handleImageUpload (Some six_files) initial_modal) = take 4 six_files /\
  length (imageFiles (handleImageUpload (Some six_files) initial_modal)) = 4%nat.
Proof.
  assert (Hk : (length (imageFiles initial_modal) <= 4)%nat) by (cbn; lia).
  split; [exact Hk|].
  destruct (handleImageUpload_cap six_files initial_modal Hk)
    as (_ & Hlen & _ & _ & _ & Hsix).
  split; [apply Hsix; reflexivity|exact Hlen].
Defined.

(** Beyond the cap, which no modal reaches, [slice(0, -1)] would let all
    but the last new file through. *)
Example handleImageUpload_beyond_cap :
  let st := set_imageFiles (take 5 six_files) initial_modal in
  length (imageFiles (handleImageUpload (Some sample_files) st)) = 6%nat.
Proof. reflexivity. Qed.

Lemma length_filter_index {A} idx (l : list A) :
  forall i, (length (filter_index idx i l) <= length l)%nat.
Proof.
  induction l as [|x l IH]; intros i; cbn; [lia|].
  destruct (decide (i = idx)); cbn; specialize (IH (S i)); lia.
Qed.

Lemma onSubmit_imageFiles be values st w :
  imageFiles (onSubmit be values st w).1 = imageFiles st \/
  imageFiles (onSubmit be values st w).1 = [].
Proof.
  unfold onSubmit. destruct (decide _); [left; reflexivity|].
  destruct (createPrizeDocument _ _ _ _ _) as [[e|id] w'];
    [left|right]; reflexivity.
Qed.

(** The bound assumed above holds in every state a modal reaches. *)
Lemma staged_files_at_most_four be w (actions : list Action) :
  (length (imageFiles (foldl (act be) (initial_modal, w) actions).1) <= 4)%nat.
Proof.
  assert (H : forall s, (length (imageFiles s.1) <= 4)%nat ->
              (length (imageFiles (foldl (act be) s actions).1) <= 4)%nat).
  { induction actions as [|a actions IH]; intros [st w0] Hst; [exact Hst|].
    cbn [foldl]. apply IH. cbn [fst] in Hst.
    destruct a as [[files|]| | | | | | |]; cbn [act fst].
    - rewrite handleImageUpload_length by exact Hst. lia.
    - exact Hst.
    - exact Hst.
    - cbn. etrans; [apply length_filter_index|exact Hst].
    - exact Hst.
    - exact Hst.
    - unfold addCategory. destruct (decide _); exact Hst.
    - exact Hst.
    - unfold handleSubmit. destruct (formSchema (form st)); [|exact Hst].
      destruct (onSubmit_imageFiles be (form st) (set_errors [] st) w0) as [->| ->];
        [exact Hst|cbn; lia]. }
  apply H. cbn. lia.
Qed.

(** X23.  A failed submission keeps what the user has entered and staged:
    when createPrizeDocument throws, the form values, the staged files and
    the regions are as before, the modal stays open with saving off, and
    one destructive toast carries the error's message. *)
Lemma onSubmit_failure_keeps_form be values st w e w' :
  imageFiles st <> [] ->
  createPrizeDocument be (submitted_data values) (imageFiles st)
    (FormValues.sponsorId values) w = (inl e, w') ->
  let st' := (onSubmit be values st w).1 in
  form st' = form st /\ imageFiles st' = imageFiles st /\
  selectedRegions st' = selectedRegions st /\ saving st' = false /\
  open st' = open st /\
  toasts st' = toasts st ++
    [mkToast "Error" (str_or (Some (message e)) "Failed to create prize.")
             "destructive"].
Proof.
  intros Hne Hrun. unfold onSubmit.
  rewrite decide_False by (destruct (imageFiles st); [congruence|discriminate]).
  cbn [imageFiles set_saving]. rewrite Hrun. cbn. split_and!; reflexivity.
Qed.

(** C10.  When the trimmed input is not empty and not among the
    categories, addCategory appends it, selects it as the form's
    prizeCategory and empties the input; otherwise it changes nothing. *)
Theorem addCategory_effect st :
  let trimmed := Js.trim (newCategory st) in
  (trimmed <> "" -> trimmed ∉ categories st ->
     categories (addCategory st) = categories st ++ [trimmed] /\
     FormValues.prizeCategory (form (addCategory st)) = trimmed /\
     newCategory (addCategory st) = "") /\
  (trimmed = "" \/ trimmed ∈ categories st -> addCategory st = st).
Proof.
  intros trimmed. unfold addCategory. fold trimmed. split.
  - intros Hne Hnew. rewrite decide_True by tauto. split_and!; reflexivity.
  - intros Hno. rewrite decide_False; [reflexivity|]. tauto.
Qed.

Lemma addCategory_effect_witness :
  Js.trim (newCategory typed_toys) <> "" /\
  (Js.trim (newCategory typed_toys) ∉ categories typed_toys) /\
  categories (addCategory typed_toys) = PRIZE_CATEGORIES ++ ["Toys"] /\
  FormValues.prizeCategory (form (addCategory typed_toys)) = "Toys" /\
  newCategory (addCategory typed_toys) = "".
Proof.
  assert (Hne : Js.trim (newCategory typed_toys) <> "")
    by (vm_compute; discriminate).
  assert (Hnew : Js.trim (newCategory typed_toys) ∉ categories typed_toys)
    by (refine (bool_decide_unpack _ _); vm_compute; exact I).
  split_and!; [exact Hne|exact Hnew|..];
    destruct (addCategory_effect typed_toys) as [Hadd _];
    destruct (Hadd Hne Hnew) as (Hc & Hp & Hn).
  - exact Hc.
  - exact Hp.
  - exact Hn.
Defined.

(** Adding "Toys", padded or not, a second time changes nothing. *)
Example addCategory_duplicate :
  let st := addCategory typed_toys in
  addCategory (set_newCategory "Toys" st) = set_newCategory "Toys" st /\
  addCategory (set_newCategory "  Toys  " st) = set_newCategory "  Toys  " st /\
  addCategory (set_newCategory "   " st) = set_newCategory "   " st.
Proof. vm_compute. split_and!; reflexivity. Qed.

(** ** Claims on validation and on the break-even value *)

Lemma z_min_silent path msg v : z_min path 1 msg v = [] <-> v <> "".
Proof.
  unfold z_min. destruct v as [|c v]; cbn.
  - rewrite decide_True by lia. split; [discriminate|congruence].
  - rewrite decide_False by lia. split; [discriminate|reflexivity].
Qed.

Lemma z_max_silent path n v : z_max path n v = [] <-> (String.length v <= n)%nat.
Proof.
  unfold z_max. destruct (decide (n < String.length v)%nat).
  - split; [discriminate|lia].
  - split; [lia|reflexivity].
Qed.

Lemma accepts_well_formed v : accepts v = true <-> well_formed v.
Proof.
  unfold accepts, well_formed, formSchema.
  rewrite <- !z_min_silent, <- !z_max_silent.
  split.
  - intros H. destruct (_ ++ _) eqn:E in H; [|discriminate].
    repeat (apply app_eq_nil in E as [? E]). split_and!; eassumption.
  - intros H. destruct_and!.
    repeat match goal with Hx : _ = [] |- _ => rewrite Hx; clear Hx end.
    reflexivity.
Qed.

(** C8 (as the code has it).  The schema asks of retailValueUSD only that
    it is not empty: on a form it accepts the field is a non-empty string,
    any non-empty string in its place is accepted as well, and the string
    is stored as it is. *)
Theorem formSchema_retailValueUSD v :
  accepts v = true ->
  FormValues.retailValueUSD v <> "" /\
  (forall s, accepts (FormValues.set_retailValueUSD s v) = true <-> s <> "") /\
  CreatePrizeData.retailValueUSD (submitted_data v) = FormValues.retailValueUSD v.
Proof.
  intros Hacc. apply accepts_well_formed in Hacc as Hwf.
  split_and!.
  - unfold well_formed in Hwf. tauto.
  - intros s. rewrite accepts_well_formed.
    unfold well_formed in *. cbn. tauto.
  - reflexivity.
Qed.

Lemma formSchema_retailValueUSD_witness :
  accepts sample_form = true /\
  FormValues.retailValueUSD sample_form <> "" /\
  accepts (FormValues.set_retailValueUSD "about a thousand" sample_form) = true.
Proof.
  assert (Hacc : accepts sample_form = true) by (vm_compute; reflexivity).
  split; [exact Hacc|].
  destruct (formSchema_retailValueUSD sample_form Hacc) as (Hne & Hany & _).
  split; [exact Hne|]. apply Hany. discriminate.
Defined.

(** C8 as stated fails: the schema accepts a negative value and a text
    that is no number at all. *)
Lemma formSchema_retailValueUSD_counterexample :
  accepts (FormValues.set_retailValueUSD "-5" sample_form) = true /\
  Js.parseFloat "-5" = Js.of_Z (-5) /\
  nonneg_decimal "-5" = false /\
  accepts (FormValues.set_retailValueUSD "abc" sample_form) = true /\
  Js.parseFloat "abc" = S754_nan /\
  nonneg_decimal "abc" = false /\
  submitted_breakEven "abc" = S754_nan.
Proof. vm_compute. split_and!; reflexivity. Qed.

Lemma all_from_spec P n : forall c,
  all_from n c P = true -> forall x, c <= x < c + Z.of_nat n -> P x = true.
Proof.
  induction n as [|n IH]; intros c H x Hx; [lia|].
  cbn [all_from] in H. apply andb_true_iff in H as [Hc Hrest].
  destruct (Z.eq_dec x c) as [->|Hne]; [exact Hc|].
  apply (IH (c + 1) Hrest). lia.
Qed.

Lemma break_even_is_spec c k :
  break_even_is c k = true ->
  submitted_breakEven (cents_string c) = Js.of_decimal false k (-2) /\
  breakEvenValue (cents_string c) = cents_string k.
Proof.
  unfold break_even_is. intros [H1 H2]%andb_true_iff. split.
  - apply bool_decide_eq_true in H1. exact H1.
  - apply String.eqb_eq. exact H2.
Qed.

Lemma break_even_checked :
  all_from (Z.to_nat (checked_cents + 1)) 0 break_even_check = true.
Proof. vm_compute. reflexivity. Qed.

(** [Math.round] takes an exact half to the integer above. *)
Lemma Math_round_half_up k :
  0 <= k -> Js.Math_round (S754_finite false (Z.to_pos (2 * k + 1)) (-1)) = Js.of_Z (k + 1).
Proof.
  intros Hk. unfold Js.Math_round. cbn [Z.leb Z.compare Z.opp].
  rewrite Z2Pos.id by lia. change (2 ^ (- (-1))) with 2.
  replace (2 * (2 * k + 1) + 2) with ((k + 1) * (2 * 2)) by ring.
  rewrite Z.div_mul by lia.
  destruct (Z.eqb_spec (k + 1) 0); [lia|reflexivity].
Qed.

(** C4.  The code rounds the double product, not the decimal value.  A
    quarter of 0.58 is 0.145, which rounds half up to 0.15; but
    parseFloat("0.58") * 0.25 * 100 is the double just below 14.5,
    Math.round takes it to 14, and 0.14 is submitted and previewed.  The
    rounding itself is half up: Math.round takes 14.5 to 15 and every
    exact half to the integer above, and for "0.02", where the product is
    exactly 0.5, 0.01 is submitted.  For "1000" and "19.99" the code gives
    250 and 5, and the preview always shows the submitted number with two
    decimals. *)
Theorem breakEven_rounding_slip :
  nonneg_decimal "0.58" = true /\
  quarter_half_up 58 = 15 /\
  Js.mul (Js.mul (Js.parseFloat "0.58") Js.quarter) Js.hundred
    = S754_finite false 8162774324609023 (-49) /\
  Js.of_decimal false 145 (-1) = S754_finite false 8162774324609024 (-49) /\
  (Js.real 8162774324609023 (-49) < 145 # 10)%Q /\
  submitted_breakEven "0.58" = Js.of_decimal false 14 (-2) /\
  submitted_breakEven "0.58" <> Js.of_decimal false 15 (-2) /\
  breakEvenValue "0.58" = "0.14" /\
  Js.Math_round (Js.of_decimal false 145 (-1)) = Js.of_Z 15 /\
  (forall k, 0 <= k ->
     Js.Math_round (S754_finite false (Z.to_pos (2 * k + 1)) (-1)) = Js.of_Z (k + 1)) /\
  (Js.mul (Js.mul (Js.parseFloat "0.02") Js.quarter) Js.hundred
     = Js.of_decimal false 5 (-1) /\
   submitted_breakEven "0.02" = Js.of_decimal false 1 (-2) /\
   breakEvenValue "0.02" = "0.01") /\
  (submitted_breakEven "1000" = Js.of_Z 250 /\ breakEvenValue "1000" = "250.00") /\
  (submitted_breakEven "19.99" = Js.of_Z 5 /\ breakEvenValue "19.99" = "5.00") /\
  (forall v, v <> "" -> breakEvenValue v = Js.toFixed (submitted_breakEven v) 2).
Proof.
  assert (Hprev : forall v, v <> "" ->
            breakEvenValue v = Js.toFixed (submitted_breakEven v) 2).
  { intros v Hv. unfold breakEvenValue. rewrite decide_False by exact Hv.
    reflexivity. }
  repeat match goal with
         | |- (forall k, 0 <= k -> _) /\ _ => split; [exact Math_round_half_up|]
         | |- _ <> _ /\ _ => split; [vm_compute; discriminate|]
         | |- (_ /\ _) /\ _ => split; [split_and!; vm_compute; reflexivity|]
         | |- _ /\ _ => split; [vm_compute; reflexivity|]
         end.
  exact Hprev.
Qed.

(** ** The decimal digits of a double *)

Section DecimalFacts.
Local Open Scope Q_scope.

Lemma ten_pos t : 0 < 10 ^ t.
Proof. apply Qpower_0_lt. reflexivity. Qed.

Lemma two_pos e : 0 < 2 ^ e.
Proof. apply Qpower_0_lt. reflexivity. Qed.

Lemma ten_succ t : 10 ^ (t + 1) == 10 * 10 ^ t.
Proof. rewrite Qpower_plus by discriminate. change (10 ^ 1) with 10. ring. Qed.

Lemma two_pred e : 2 ^ e == 2 * 2 ^ (e - 1).
Proof.
  replace e with ((e - 1) + 1)%Z at 1 by ring.
  rewrite Qpower_plus by discriminate. change (2 ^ 1) with 2. ring.
Qed.

Lemma ten_le a b : (a <= b)%Z -> 10 ^ a <= 10 ^ b.
Proof. intros H. apply Qpower_le_compat_l; [exact H|discriminate]. Qed.

Lemma ten_lt a b : (a < b)%Z -> 10 ^ a < 10 ^ b.
Proof. intros H. apply Qpower_lt_compat_l; [exact H|reflexivity]. Qed.

Lemma real_pos m e : 0 < Js.real m e.
Proof.
  unfold Js.real. apply Qmult_lt_0_compat; [|apply two_pos].
  change 0 with (inject_Z 0). rewrite <- Zlt_Qlt. lia.
Qed.

Lemma real_ge m e : 2 ^ e <= Js.real m e.
Proof.
  unfold Js.real. rewrite <- (Qmult_1_l (2 ^ e)) at 1.
  apply Qmult_le_compat_r; [|apply Qlt_le_weak, two_pos].
  change 1 with (inject_Z 1). rewrite <- Zle_Qle. lia.
Qed.

Lemma half_gap_above_pos e : 0 < Js.half_gap_above e.
Proof. apply two_pos. Qed.

Lemma half_gap_below_bounds m e :
  0 < Js.half_gap_below m e /\ Js.half_gap_below m e <= Js.half_gap_above e.
Proof.
  unfold Js.half_gap_below, Js.half_gap_above.
  destruct (_ && _).
  - split; [apply two_pos|].
    apply Qpower_le_compat_l; [lia|discriminate].
  - split; [apply two_pos|apply Qle_refl].
Qed.

Lemma lower_pos m e : 0 < Js.real m e - Js.half_gap_below m e.
Proof.
  pose proof (real_ge m e) as Hr. pose proof (half_gap_below_bounds m e) as [_ Hb].
  pose proof (two_pred e) as Ht. pose proof (two_pos (e - 1)) as Hp.
  unfold Js.half_gap_above in Hb. lra.
Qed.

Lemma denotes_self m e : Js.denotes m e (Js.real m e).
Proof.
  pose proof (half_gap_below_bounds m e) as [Hb _].
  pose proof (half_gap_above_pos e) as Ha.
  unfold Js.denotes. destruct (Z.even _); split; lra.
Qed.

Lemma denotes_convex m e y1 y2 y :
  Js.denotes m e y1 -> Js.denotes m e y2 -> y1 <= y -> y <= y2 -> Js.denotes m e y.
Proof.
  unfold Js.denotes. destruct (Z.even _); intros [? ?] [? ?] ? ?; split; lra.
Qed.

Lemma denotes_ext m e y y' : y == y' -> Js.denotes m e y -> Js.denotes m e y'.
Proof.
  intros Heq H. apply (denotes_convex m e y y); [exact H|exact H| |].
  - lra.
  - lra.
Qed.

Lemma denotes_pos m e y : Js.denotes m e y -> 0 < y.
Proof.
  pose proof (lower_pos m e). unfold Js.denotes.
  destruct (Z.even _); intros [? ?]; lra.
Qed.

Lemma denotes_near m e y :
  Js.denotes m e y ->
  Js.real m e - 2 ^ (e - 1) <= y /\ y <= Js.real m e + 2 ^ (e - 1).
Proof.
  pose proof (half_gap_below_bounds m e) as [_ Hb].
  unfold Js.denotes. destruct (Z.even _); intros [? ?];
    unfold Js.half_gap_above in *; split; lra.
Qed.

Lemma denotesb_spec m e y : Js.denotesb m e y = true <-> Js.denotes m e y.
Proof.
  unfold Js.denotesb, Js.denotes. destruct (Z.even _).
  - rewrite andb_true_iff, !Qle_bool_iff. tauto.
  - rewrite andb_true_iff, !negb_true_iff.
    rewrite <- !not_true_iff_false, !Qle_bool_iff.
    split; intros [H1 H2]; split;
      first [apply Qnot_le_lt; assumption | apply Qlt_not_le; assumption].
Qed.


Lemma decimal_mono c c' t : (c <= c')%Z -> Js.decimal c t <= Js.decimal c' t.
Proof.
  intros H. unfold Js.decimal. apply Qmult_le_compat_r.
  - rewrite <- Zle_Qle. exact H.
  - apply Qlt_le_weak, ten_pos.
Qed.

Lemma decimal_succ c t : Js.decimal (c + 1) t == Js.decimal c t + 10 ^ t.
Proof. unfold Js.decimal. rewrite inject_Z_plus. ring. Qed.

Lemma decimal_pos c t : 0 < Js.decimal c t -> (0 < c)%Z.
Proof.
  unfold Js.decimal. intros H. pose proof (ten_pos t) as Hp.
  destruct (Z_lt_le_dec 0 c) as [Hc|Hc]; [exact Hc|exfalso].
  assert (inject_Z c <= 0) by (change 0 with (inject_Z 0); rewrite <- Zle_Qle; exact Hc).
  assert (inject_Z c * 10 ^ t <= 0 * 10 ^ t)
    by (apply Qmult_le_compat_r; [assumption|apply Qlt_le_weak, Hp]).
  lra.
Qed.

Lemma floor_bracket v t :
  Js.decimal (Qfloor (v / 10 ^ t)) t <= v /\ v < Js.decimal (Qfloor (v / 10 ^ t) + 1) t.
Proof.
  pose proof (ten_pos t) as Hp.
  assert (Hne : ~ 10 ^ t == 0) by (intros H; rewrite H in Hp; discriminate).
  assert (Hv : v / 10 ^ t * 10 ^ t == v) by (field; exact Hne).
  unfold Js.decimal. split.
  - rewrite <- Hv at 2. apply Qmult_le_compat_r; [apply Qfloor_le|lra].
  - rewrite <- Hv at 1. apply Qmult_lt_r; [exact Hp|apply Qlt_floor].
Qed.

Lemma dist_below y v : y <= v -> Qabs (y - v) == v - y.
Proof. intros H. rewrite Qabs_neg by lra. ring. Qed.

Lemma dist_above y v : v <= y -> Qabs (y - v) == y - v.
Proof. intros H. rewrite Qabs_pos by lra. reflexivity. Qed.


(** A multiple of [10^t] that Js.denotes the double forces the one next to
    the value on its side to denote it as well. *)
Lemma denotes_towards m e t c' :
  Js.denotes m e (Js.decimal c' t) ->
  let lo := Qfloor (Js.real m e / 10 ^ t) in
  ((c' <= lo)%Z /\ Js.denotes m e (Js.decimal lo t)) \/
  ((lo + 1 <= c')%Z /\ Js.denotes m e (Js.decimal (lo + 1) t)).
Proof.
  intros Hd lo. destruct (floor_bracket (Js.real m e) t) as [Hlo Hhi]. fold lo in Hlo, Hhi.
  destruct (Z_le_gt_dec c' lo) as [Hc|Hc].
  - left. split; [exact Hc|].
    apply (denotes_convex m e (Js.decimal c' t) (Js.real m e));
      [exact Hd|apply denotes_self|apply decimal_mono; exact Hc|exact Hlo].
  - right. split; [lia|].
    apply (denotes_convex m e (Js.real m e) (Js.decimal c' t));
      [apply denotes_self|exact Hd|lra|apply decimal_mono; lia].
Qed.

Lemma pick_none m e t :
  Js.pick m e t = None -> forall c', ~ Js.denotes m e (Js.decimal c' t).
Proof.
  unfold Js.pick. intros Hp c' Hd.
  destruct (denotes_towards m e t c' Hd) as [[_ H]|[_ H]];
    apply denotesb_spec in H; rewrite H in Hp.
  - destruct (Js.denotesb m e (Js.decimal (_ + 1) t)); discriminate.
  - destruct (Js.denotesb m e (Js.decimal (Qfloor _) t)); discriminate.
Qed.

Lemma pick_some m e t c :
  Js.pick m e t = Some c ->
  (c = Qfloor (Js.real m e / 10 ^ t) \/ c = Qfloor (Js.real m e / 10 ^ t) + 1)%Z /\
  Js.denotes m e (Js.decimal c t) /\
  (forall c', Js.denotes m e (Js.decimal c' t) ->
     Qabs (Js.decimal c t - Js.real m e) <= Qabs (Js.decimal c' t - Js.real m e)).
Proof.
  unfold Js.pick. set (v := Js.real m e). set (lo := Qfloor (v / 10 ^ t)).
  destruct (floor_bracket v t) as [Hlo Hhi]. fold lo in Hlo, Hhi.
  assert (Hfar : forall c',
            ((c' <= lo)%Z -> v - Js.decimal lo t <= Qabs (Js.decimal c' t - v)) /\
            ((lo + 1 <= c')%Z -> Js.decimal (lo + 1) t - v <= Qabs (Js.decimal c' t - v))).
  { intros c'. split; intros Hc.
    - pose proof (decimal_mono c' lo t Hc). rewrite dist_below by lra. lra.
    - pose proof (decimal_mono (lo + 1) c' t Hc). rewrite dist_above by lra. lra. }
  assert (Hdlo : Qabs (Js.decimal lo t - v) == v - Js.decimal lo t) by (apply dist_below; lra).
  assert (Hdhi : Qabs (Js.decimal (lo + 1) t - v) == Js.decimal (lo + 1) t - v)
    by (apply dist_above; lra).
  destruct (Js.denotesb m e (Js.decimal lo t)) eqn:Elo;
    destruct (Js.denotesb m e (Js.decimal (lo + 1) t)) eqn:Ehi; intros Hp;
    [| | |discriminate].
  - (* both denote the double: the closer one *)
    apply denotesb_spec in Elo, Ehi.
    assert (Hc : (c = lo /\ v - Js.decimal lo t <= Js.decimal (lo + 1) t - v) \/
                 (c = (lo + 1)%Z /\ Js.decimal (lo + 1) t - v <= v - Js.decimal lo t)).
    { destruct (Qcompare_spec (v - Js.decimal lo t) (Js.decimal (lo + 1) t - v))
        as [He|Hl|Hg].
      - destruct (Z.even lo); injection Hp as <-; [left|right]; split; try reflexivity; lra.
      - injection Hp as <-. left. split; [reflexivity|lra].
      - injection Hp as <-. right. split; [reflexivity|lra]. }
    destruct Hc as [[-> Hle]|[-> Hle]].
    + split; [left; reflexivity|]. split; [exact Elo|].
      intros c' Hd. rewrite Hdlo.
      destruct (Z_le_gt_dec c' lo) as [Hc|Hc].
      * apply (Hfar c'). exact Hc.
      * pose proof (proj2 (Hfar c') ltac:(lia)). lra.
    + split; [right; reflexivity|]. split; [exact Ehi|].
      intros c' Hd. rewrite Hdhi.
      destruct (Z_le_gt_dec c' lo) as [Hc|Hc].
      * pose proof (proj1 (Hfar c') Hc). lra.
      * apply (Hfar c'). lia.
  - (* only the lower one *)
    injection Hp as <-. apply denotesb_spec in Elo.
    split; [left; reflexivity|]. split; [exact Elo|].
    intros c' Hd. rewrite Hdlo.
    destruct (denotes_towards m e t c' Hd) as [[Hc _]|[_ H]].
    + apply (Hfar c'). exact Hc.
    + apply denotesb_spec in H. fold v lo in H. congruence.
  - (* only the upper one *)
    injection Hp as <-. apply denotesb_spec in Ehi.
    split; [right; reflexivity|]. split; [exact Ehi|].
    intros c' Hd. rewrite Hdhi.
    destruct (denotes_towards m e t c' Hd) as [[_ H]|[Hc _]].
    + apply denotesb_spec in H. fold v lo in H. congruence.
    + apply (Hfar c'). exact Hc.
Qed.


Lemma inject_Z_pow (a n : Z) : (0 <= n)%Z -> inject_Z (a ^ n) == inject_Z a ^ n.
Proof. apply Zpower_Qpower. Qed.

(** The binary expansion [m * 2^e] is itself a Js.decimal of scale [t]
    when [t] is at most [e] and [0]. *)
Lemma exact_multiple m e t :
  (t <= e)%Z -> (t <= 0)%Z ->
  Js.decimal (Zpos m * 2 ^ (e - t) * 5 ^ (- t)) t == Js.real m e.
Proof.
  intros He Ht. unfold Js.decimal, Js.real.
  rewrite !inject_Z_mult, !inject_Z_pow by lia.
  change (inject_Z 2) with 2. change (inject_Z 5) with 5.
  assert (H10 : 10 ^ t == 2 ^ t * 5 ^ t).
  { change 10 with (2 * 5) at 1. apply Qmult_power. }
  assert (H2 : 2 ^ (e - t) * 2 ^ t == 2 ^ e).
  { rewrite <- Qpower_plus by discriminate. replace (e - t + t)%Z with e by ring.
    reflexivity. }
  assert (H5 : 5 ^ (- t) * 5 ^ t == 1).
  { rewrite <- Qpower_plus by discriminate. replace (- t + t)%Z with 0%Z by ring.
    reflexivity. }
  rewrite H10.
  transitivity (inject_Z (Z.pos m) * (2 ^ (e - t) * 2 ^ t) * (5 ^ (- t) * 5 ^ t)); [ring|].
  rewrite H2, H5. ring.
Qed.

Lemma search_spec fuel m e : forall t,
  (t - Z.of_nat fuel <= Z.min e 0)%Z ->
  let c := (Js.search fuel m e t).1 in
  let r := (Js.search fuel m e t).2 in
  (r <= t)%Z /\
  (c = Qfloor (Js.real m e / 10 ^ r) \/ c = Qfloor (Js.real m e / 10 ^ r) + 1)%Z /\
  Js.denotes m e (Js.decimal c r) /\
  (forall c', Js.denotes m e (Js.decimal c' r) ->
     Qabs (Js.decimal c r - Js.real m e) <= Qabs (Js.decimal c' r - Js.real m e)) /\
  (forall t' c', (r < t' <= t)%Z -> ~ Js.denotes m e (Js.decimal c' t')).
Proof.
  induction fuel as [|fuel IH]; intros t Hfuel; cbn [Js.search];
    destruct (Js.pick m e t) as [c|] eqn:Hp; cbn [fst snd].
  - destruct (pick_some m e t c Hp) as (Hc & Hd & Hcl).
    split; [lia|]. split; [exact Hc|]. split; [exact Hd|]. split; [exact Hcl|].
    intros t' c' Ht'. lia.
  - exfalso. apply (pick_none m e t Hp (Zpos m * 2 ^ (e - t) * 5 ^ (- t))%Z).
    apply (denotes_ext m e (Js.real m e)); [|apply denotes_self].
    symmetry. apply exact_multiple; lia.
  - destruct (pick_some m e t c Hp) as (Hc & Hd & Hcl).
    split; [lia|]. split; [exact Hc|]. split; [exact Hd|]. split; [exact Hcl|].
    intros t' c' Ht'. lia.
  - destruct (IH (t - 1)%Z ltac:(lia)) as (Hr & Hc & Hd & Hcl & Hno).
    split; [lia|]. split; [exact Hc|]. split; [exact Hd|]. split; [exact Hcl|].
    intros t' c' Ht'. destruct (Z.eq_dec t' t) as [->|Hne].
    + apply (pick_none m e t Hp).
    + apply Hno. lia.
Qed.


Lemma ilog10_spec fuel : forall z,
  (1 <= z < 2 ^ Z.of_nat fuel)%Z ->
  (0 <= Js.ilog10 fuel z /\
   10 ^ Js.ilog10 fuel z <= z < 10 ^ (Js.ilog10 fuel z + 1))%Z.
Proof.
  induction fuel as [|fuel IH]; intros z Hz.
  - change (2 ^ Z.of_nat 0)%Z with 1%Z in Hz. lia.
  - cbn [Js.ilog10]. destruct (Z.ltb_spec z 10) as [Hlt|Hge].
    + cbn. lia.
    + rewrite Nat2Z.inj_succ, Z.pow_succ_r in Hz by lia.
      assert (Hq : (1 <= z / 10 < 2 ^ Z.of_nat fuel)%Z).
      { split; [apply Z.div_le_lower_bound; lia|].
        apply Z.div_lt_upper_bound; lia. }
      destruct (IH _ Hq) as (H0 & Hlo & Hhi).
      pose proof (Z.mul_div_le z 10 ltac:(lia)) as Hd1.
      pose proof (Z.mul_succ_div_gt z 10 ltac:(lia)) as Hd2.
      set (k := Js.ilog10 fuel (z / 10)) in *.
      replace (1 + k + 1)%Z with (Z.succ (Z.succ k)) by lia.
      replace (1 + k)%Z with (Z.succ k) by lia.
      rewrite !Z.pow_succ_r by lia.
      replace (k + 1)%Z with (Z.succ k) in Hhi by lia.
      rewrite Z.pow_succ_r in Hhi by lia.
      lia.
Qed.

Lemma log10_floor_spec z :
  (1 <= z)%Z ->
  (0 <= Js.log10_floor z /\ 10 ^ Js.log10_floor z <= z < 10 ^ (Js.log10_floor z + 1))%Z.
Proof.
  intros Hz. apply ilog10_spec. split; [exact Hz|].
  rewrite Nat2Z.inj_succ, Z2Nat.id by (apply Z.log2_nonneg).
  apply Z.log2_spec. lia.
Qed.

Lemma ten_inject k : (0 <= k)%Z -> inject_Z (10 ^ k) == 10 ^ k.
Proof. intros H. rewrite inject_Z_pow by exact H. reflexivity. Qed.

(** The Js.decimal exponent brackets the value. *)
Lemma dexp_spec v : 0 < v -> 10 ^ (Js.dexp v - 1) <= v /\ v < 10 ^ Js.dexp v.
Proof.
  intros Hv. unfold Js.dexp.
  destruct (Qle_bool 1 v) eqn:E1.
  - apply Qle_bool_iff in E1.
    assert (Hz : (1 <= Qfloor v)%Z).
    { change 1%Z with (Qfloor 1). apply Qfloor_resp_le. exact E1. }
    destruct (log10_floor_spec _ Hz) as (H0 & Hlo & Hhi).
    set (k := Js.log10_floor (Qfloor v)) in *.
    replace (k + 1 - 1)%Z with k by ring.
    rewrite <- !ten_inject by lia.
    pose proof (Qfloor_le v) as Hf1. pose proof (Qlt_floor v) as Hf2.
    rewrite Zle_Qle in Hlo.
    assert (Hhi' : (Qfloor v + 1 <= 10 ^ (k + 1))%Z) by lia.
    rewrite Zle_Qle in Hhi'.
    split; lra.
  - assert (Hlt : v < 1).
    { apply Qnot_le_lt. intros H. apply Qle_bool_iff in H. congruence. }
    assert (Hne : ~ v == 0) by (intros H; rewrite H in Hv; discriminate).
    assert (Hinv : 0 < / v) by (apply Qinv_lt_0_compat; exact Hv).
    assert (Hvi : / v * v == 1) by (field; exact Hne).
    assert (H1 : 1 <= / v).
    { apply Qle_shift_inv_l; [exact Hv|]. lra. }
    assert (Hz : (1 <= Qfloor (/ v))%Z).
    { change 1%Z with (Qfloor 1). apply Qfloor_resp_le. exact H1. }
    destruct (log10_floor_spec _ Hz) as (H0 & Hlo & Hhi).
    set (k := Js.log10_floor (Qfloor (/ v))) in *.
    pose proof (Qfloor_le (/ v)) as Hf1. pose proof (Qlt_floor (/ v)) as Hf2.
    rewrite Zle_Qle in Hlo.
    assert (Hhi' : (Qfloor (/ v) + 1 <= 10 ^ (k + 1))%Z) by lia.
    rewrite Zle_Qle in Hhi'.
    rewrite !ten_inject in * by lia.
    (* 10^k <= 1/v < 10^(k+1) *)
    assert (Hup : v <= 10 ^ (- k)).
    { rewrite Qpower_opp. apply Qle_shift_inv_l; [apply ten_pos|].
      apply Qle_trans with (v * / v).
      - apply Qmult_le_l; [exact Hv|lra].
      - rewrite Qmult_comm, Hvi. apply Qle_refl. }
    assert (Hdown : 10 ^ (- k - 1) < v).
    { replace (- k - 1)%Z with (- (k + 1))%Z by ring. rewrite Qpower_opp.
      apply Qlt_shift_inv_r; [apply ten_pos|].
      apply Qle_lt_trans with (/ v * v).
      - rewrite Hvi. apply Qle_refl.
      - rewrite (Qmult_comm v). apply Qmult_lt_r; [exact Hv|lra]. }
    destruct (Qle_bool (10 ^ (- k)) v) eqn:E2.
    + apply Qle_bool_iff in E2.
      replace (1 - k - 1)%Z with (- k)%Z by ring.
      split; [exact E2|].
      apply Qle_lt_trans with (10 ^ (- k)); [exact Hup|]. apply ten_lt. lia.
    + assert (Hlt2 : v < 10 ^ (- k)).
      { apply Qnot_le_lt. intros H. apply Qle_bool_iff in H. congruence. }
      split; [apply Qlt_le_weak; exact Hdown|exact Hlt2].
Qed.


Lemma digits_exist (k : nat) : forall c,
  (0 < c < 10 ^ Z.of_nat k)%Z ->
  exists j : nat, (1 <= j <= k)%nat /\
    (10 ^ (Z.of_nat j - 1) <= c < 10 ^ Z.of_nat j)%Z.
Proof.
  induction k as [|k IH]; intros c Hc.
  - change (10 ^ Z.of_nat 0)%Z with 1%Z in Hc. lia.
  - destruct (Z_lt_le_dec c (10 ^ Z.of_nat k)) as [Hlt|Hge].
    + destruct (IH c ltac:(lia)) as (j & Hj & Hb). exists j. split; [lia|exact Hb].
    + exists (S k). split; [lia|].
      replace (Z.of_nat (S k) - 1)%Z with (Z.of_nat k) by lia. lia.
Qed.

Lemma decimal_pow k t : (0 <= k)%Z -> Js.decimal (10 ^ k) t == 10 ^ (k + t).
Proof.
  intros Hk. unfold Js.decimal. rewrite ten_inject by exact Hk.
  rewrite Qpower_plus by discriminate. reflexivity.
Qed.

Lemma decimal_lt_inv c c' t : Js.decimal c t < Js.decimal c' t -> (c < c')%Z.
Proof.
  intros H. destruct (Z_lt_le_dec c c') as [Hlt|Hge]; [exact Hlt|exfalso].
  pose proof (decimal_mono c' c t Hge). lra.
Qed.

(** What the Js.search returns, in the words of Number::toString: a Js.decimal
    that Js.denotes the double, with as few digits as any Js.decimal that does,
    and the closest to the value among the multiples of its scale. *)
Lemma shortest_decimal_spec m e :
  let c := (Js.shortest_decimal m e).1 in
  let t := (Js.shortest_decimal m e).2 in
  (0 < c)%Z /\
  Js.denotes m e (Js.decimal c t) /\
  (forall c' t' (k : nat), (0 < c' < 10 ^ Z.of_nat k)%Z ->
     Js.denotes m e (Js.decimal c' t') ->
     exists c'' t'', (0 < c'' < 10 ^ Z.of_nat k)%Z /\
                     Js.decimal c'' t'' == Js.decimal c t) /\
  (forall c', Js.denotes m e (Js.decimal c' t) ->
     Qabs (Js.decimal c t - Js.real m e) <= Qabs (Js.decimal c' t - Js.real m e)).
Proof.
  unfold Js.shortest_decimal. set (v := Js.real m e). set (n := Js.dexp v).
  destruct (dexp_spec v (real_pos m e)) as [Hn1 Hn2]. fold n in Hn1, Hn2.
  set (fuel := Z.to_nat (n - 1 - Z.min e 0)).
  destruct (search_spec fuel m e (n - 1)%Z ltac:(unfold fuel; lia))
    as (Hr & Hc & Hd & Hcl & Hno).
  set (c := (Js.search fuel m e (n - 1)).1) in *.
  set (r := (Js.search fuel m e (n - 1)).2) in *.
  cbv zeta. fold v in Hc, Hcl.
  assert (Hcpos : (0 < c)%Z) by (apply (decimal_pos c r), (denotes_pos m e), Hd).
  split; [exact Hcpos|]. split; [exact Hd|]. split; [|exact Hcl].
  (* the digits of c *)
  assert (HK : (0 <= n - r)%Z) by lia.
  assert (Htop : Js.decimal (10 ^ (n - r)) r == 10 ^ n).
  { rewrite decimal_pow by exact HK. replace (n - r + r)%Z with n by ring. reflexivity. }
  destruct (floor_bracket v r) as [Hlo Hhi].
  assert (Hcle : (c <= 10 ^ (n - r))%Z).
  { assert ((Qfloor (v / 10 ^ r) < 10 ^ (n - r))%Z); [|lia].
    apply (decimal_lt_inv _ _ r). rewrite Htop. lra. }
  intros c' t' k Hc' Hd'.
  assert (Hk1 : (1 <= k)%nat).
  { destruct k; [|lia]. change (10 ^ Z.of_nat 0)%Z with 1%Z in Hc'. lia. }
  destruct (Z.eq_dec c (10 ^ (n - r))%Z) as [Hceq|Hcne].
  { exists 1%Z, n. split.
    - split; [lia|]. apply Z.pow_gt_1; lia.
    - rewrite Hceq, Htop. unfold Js.decimal. ring. }
  destruct (Z_le_gt_dec (n - r) (Z.of_nat k)) as [Hfit|Hlong].
  { exists c, r. split; [|reflexivity]. split; [exact Hcpos|].
    apply Z.lt_le_trans with (10 ^ (n - r))%Z; [lia|].
    apply Z.pow_le_mono_r; lia. }
  exfalso.
  destruct (digits_exist k c' Hc') as (j & Hj & Hjlo & Hjhi).
  apply (decimal_mono _ _ t') in Hjlo.
  assert (Hjhi' : Js.decimal c' t' < Js.decimal (10 ^ Z.of_nat j) t').
  { unfold Js.decimal. apply Qmult_lt_r; [apply ten_pos|]. rewrite <- Zlt_Qlt. exact Hjhi. }
  rewrite decimal_pow in Hjlo, Hjhi' by lia.
  destruct (Z.lt_trichotomy (Z.of_nat j + t')%Z n) as [Hlt|[Heq|Hgt]].
  - (* the other Js.decimal lies below the decade of the value *)
    apply (Hno (n - 1)%Z 1%Z); [lia|].
    apply (denotes_convex m e (Js.decimal c' t') v);
      [exact Hd'|apply denotes_self| |].
    + apply Qle_trans with (10 ^ (Z.of_nat j + t')); [lra|].
      unfold Js.decimal. rewrite Qmult_1_l. apply ten_le. lia.
    + unfold Js.decimal. rewrite Qmult_1_l. exact Hn1.
  - (* the same decade: its scale was tried *)
    apply (Hno t' c'); [lia|exact Hd'].
  - (* the other Js.decimal lies above the decade of the value *)
    apply (Hno (n - 1)%Z 10%Z); [lia|].
    assert (H10 : Js.decimal 10 (n - 1) == 10 ^ n).
    { unfold Js.decimal. replace n with (n - 1 + 1)%Z at 2 by ring.
      rewrite ten_succ. reflexivity. }
    apply (denotes_convex m e v (Js.decimal c' t'));
      [apply denotes_self|exact Hd'| |].
    + rewrite H10. lra.
    + rewrite H10. apply Qle_trans with (10 ^ (Z.of_nat j - 1 + t')); [|lra].
      apply ten_le. lia.
Qed.


(** [Js.round_decimal c t f] is [c * 10^t] in units of [10^-f], rounded to
    the nearest integer, halves upwards. *)
Lemma round_decimal_spec c t (f : nat) :
  let n := Js.round_decimal c t f in
  inject_Z n - (1 # 2) <= 10 ^ Z.of_nat f * Js.decimal c t /\
  10 ^ Z.of_nat f * Js.decimal c t < inject_Z n + (1 # 2).
Proof.
  unfold Js.round_decimal. set (s := (t + Z.of_nat f)%Z).
  assert (Hs : 10 ^ Z.of_nat f * Js.decimal c t == inject_Z c * 10 ^ s).
  { unfold Js.decimal, s. rewrite (Qpower_plus 10 t) by discriminate. ring. }
  destruct (Z.leb_spec 0 s) as [Hge|Hlt]; cbv zeta.
  - rewrite Hs, inject_Z_mult, ten_inject by exact Hge. split; lra.
  - set (q := (10 ^ (- s))%Z).
    assert (Hq : (0 < q)%Z) by (apply Z.pow_pos_nonneg; lia).
    assert (HQ : inject_Z q == 10 ^ (- s)) by (apply ten_inject; lia).
    assert (HQpos : 0 < inject_Z q) by (rewrite HQ; apply ten_pos).
    assert (Hx : 10 ^ Z.of_nat f * Js.decimal c t * inject_Z q == inject_Z c).
    { rewrite Hs, HQ. rewrite <- Qmult_assoc, <- Qpower_plus by discriminate.
      replace (s + - s)%Z with 0%Z by ring. change (10 ^ 0) with 1. ring. }
    set (x := 10 ^ Z.of_nat f * Js.decimal c t) in *.
    set (n := ((2 * c + q) / (2 * q))%Z).
    pose proof (Z.mul_div_le (2 * c + q) (2 * q) ltac:(lia)) as H1.
    pose proof (Z.mul_succ_div_gt (2 * c + q) (2 * q) ltac:(lia)) as H2.
    fold n in H1, H2.
    rewrite Zle_Qle in H1. rewrite Zlt_Qlt in H2.
    unfold Z.succ in H2.
    repeat rewrite ?inject_Z_mult, ?inject_Z_plus in H1.
    repeat rewrite ?inject_Z_mult, ?inject_Z_plus in H2.
    change (inject_Z 2) with 2 in H1, H2. change (inject_Z 1) with 1 in H2.
    split.
    + apply (Qmult_le_r _ _ (inject_Z q)); [exact HQpos|]. rewrite Hx. lra.
    + apply (Qmult_lt_r _ _ (inject_Z q)); [exact HQpos|]. rewrite Hx. lra.
Qed.

End DecimalFacts.

(** ** Claims on the list page *)

Lemma shown_cents_spec n :
  Js.with_point (Js.fraction_digits 0 2 n) = shown_cents (n mod 100).
Proof.
  assert (Hmod : n mod 100 = n mod 10 + 10 * ((n / 10) mod 10))
    by (change 100 with (10 * 10); apply Z.rem_mul_r; lia).
  unfold Js.fraction_digits, Js.low_digits, Js.digit_char.
  rewrite Hmod.
  pose proof (Z.mod_pos_bound n 10 ltac:(lia)) as Hb.
  pose proof (Z.mod_pos_bound (n / 10) 10 ltac:(lia)) as Ha.
  set (b := n mod 10) in *. set (a := (n / 10) mod 10) in *.
  assert (Hbs : b = 0 \/ b = 1 \/ b = 2 \/ b = 3 \/ b = 4 \/ b = 5 \/
                b = 6 \/ b = 7 \/ b = 8 \/ b = 9) by lia.
  assert (Has : a = 0 \/ a = 1 \/ a = 2 \/ a = 3 \/ a = 4 \/ a = 5 \/
                a = 6 \/ a = 7 \/ a = 8 \/ a = 9) by lia.
  clearbody a b. clear Hmod Ha Hb.
  destruct_or!; subst a b; vm_compute; reflexivity.
Qed.

Lemma formatCurrency_finite s m e :
  let d := Js.shortest_decimal m e in
  let n := Js.round_decimal d.1 d.2 2 in
  Prizes.formatCurrency (S754_finite s m e)
    = Js.sign_string s +:+ "$" +:+ Js.group (pretty (n / 100))
        +:+ shown_cents (n mod 100).
Proof. cbv zeta. rewrite <- shown_cents_spec. reflexivity. Qed.




(** The decimal digits decide, not the binary value: 1.005 is the double
    1.00499999999999989..., and it is shown as 1.01. *)
Example formatCurrency_examples :
  Prizes.formatCurrency (Js.parseFloat "1.005") = "$1.01" /\
  Prizes.formatCurrency (Js.parseFloat "2.675") = "$2.68" /\
  Prizes.formatCurrency (Js.parseFloat "19.9") = "$19.9" /\
  Prizes.formatCurrency (Js.parseFloat "-1234.5") = "-$1,234.5" /\
  Prizes.formatCurrency (Js.parseFloat "0.004") = "$0" /\
  Prizes.formatCurrency (Js.of_Z (2 ^ 64)) = "$18,446,744,073,709,552,000" /\
  Prizes.formatCurrency (Js.parseFloat "x") = "$NaN".
Proof. vm_compute. split_and!; reflexivity. Qed.

(** * Further properties of the code *)

(** ** prize-service.ts *)

Section ServiceMore.
Variable be : Backend.

Lemma uploadBytes_accepted p f w :
  fault be w (UploadBytes p f) = None ->
  uploadBytes be p f w =
    (inr tt, log_event (mkEvent (UploadBytes p f) true)
               (set_storage (<[p := f]> (storage w))
                  (set_clock (clock w + elapsed be w (UploadBytes p f)) w))).
Proof. intros H. unfold uploadBytes, request. rewrite H. reflexivity. Qed.

Lemma getDownloadURL_accepted p f w :
  fault be w (GetDownloadURL p) = None -> storage w !! p = Some f ->
  getDownloadURL be p w =
    (inr (download_url be p),
     log_event (mkEvent (GetDownloadURL p) true)
       (set_clock (clock w + elapsed be w (GetDownloadURL p)) w)).
Proof. intros H Hs. unfold getDownloadURL, request. rewrite H, Hs. reflexivity. Qed.

Lemma addDoc_accepted c d w :
  fault be w (AddDoc c d) = None ->
  exists id w', addDoc be c d w = (inr id, w').
Proof. intros H. unfold addDoc, request. rewrite H. eauto. Qed.

Lemma uploadImages_accepted files :
  never_rejects be -> forall acc w,
  exists urls w', uploadImages be files acc w = (inr urls, w').
Proof.
  intros Hnf. induction files as [|file rest IH]; intros acc w.
  - exists acc, w. reflexivity.
  - rewrite uploadImages_cons.
    rewrite uploadBytes_accepted by apply Hnf.
    erewrite getDownloadURL_accepted; [apply IH|apply Hnf|].
    cbn. apply lookup_insert_eq.
Qed.

(** With a backend that rejects nothing the function returns an id, also
    when the sponsor document does not exist. *)
Lemma createPrizeDocument_accepted data files sid w :
  never_rejects be ->
  exists id w', createPrizeDocument be data files sid w = (inr id, w').
Proof.
  intros Hnf. rewrite createPrizeDocument_unfold.
  destruct (uploadImages_accepted files Hnf [] w) as (urls & w1 & ->).
  destruct (addDoc_accepted "prize_database"
              (buildPrizeDoc data urls (clock w1)) w1 (Hnf _ _)) as (id & w2 & ->).
  destruct (updateDoc be sid id w2) as [[e|[]] w3]; eauto.
Qed.

(** The number of calls of the upload loop. *)
Lemma uploadImages_calls files : forall acc w r w',
  uploadImages be files acc w = (r, w') ->
  exists evs, trace w' = trace w ++ evs /\
    if is_throw r
    then (1 <= length evs <= 2 * length files)%nat
    else length evs = (2 * length files)%nat.
Proof.
  induction files as [|file rest IH]; intros acc w r w' H.
  - cbn in H. unfold mret, M_ret, ret in H. simplify_eq.
    exists []. rewrite app_nil_r. split; reflexivity.
  - rewrite uploadImages_cons in H.
    set (p := storage_path (clock w) file) in *.
    destruct (uploadBytes be p file w) as [r1 w1] eqn:E1.
    apply uploadBytes_inv in E1 as (_ & _ & _ & ok1 & Ht1 & _ & _).
    destruct r1 as [e1|[]].
    { simplify_eq. eexists; split; [eassumption|]. cbn. lia. }
    destruct (getDownloadURL be p w1) as [r2 w2] eqn:E2.
    apply getDownloadURL_inv in E2 as (_ & _ & _ & ok2 & Ht2 & _ & _).
    destruct r2 as [e2|url].
    { simplify_eq. eexists; split;
        [rewrite Ht2, Ht1, <- app_assoc; reflexivity|]. cbn. lia. }
    apply IH in H as (evs & Ht3 & Hlen).
    exists (mkEvent (UploadBytes p file) ok1 :: mkEvent (GetDownloadURL p) ok2 :: evs).
    split; [rewrite Ht3, Ht2, Ht1, <- !app_assoc; reflexivity|].
    destruct (is_throw r); cbn [length]; lia.
Qed.

End ServiceMore.

(** X1.  With a backend that rejects no call, createPrizeDocument returns
    an id for every input; when the sponsor document exists the link goes
    through as well and the sponsor's array contains the id. *)
Theorem createPrizeDocument_succeeds be data imageFiles sponsorId w :
  never_rejects be ->
  exists id w',
    createPrizeDocument be data imageFiles sponsorId w = (inr id, w') /\
    failed Uploading (new_events w w') = false /\
    succeeded Persisting (new_events w w') = true /\
    (is_Some (sponsors w !! sponsorId) ->
       failed LinkingSponsor (new_events w w') = false /\
       exists arr, sponsors w' !! sponsorId = Some arr /\ id ∈ arr).
Proof.
  intros Hnf.
  destruct (createPrizeDocument_accepted be data imageFiles sponsorId w Hnf)
    as (id & w' & Hrun).
  exists id, w'. split; [exact Hrun|].
  rewrite createPrizeDocument_unfold in Hrun.
  destruct (uploadImages be imageFiles [] w) as [[e|urls] w1] eqn:E1; [discriminate|].
  apply uploadImages_inv in E1 as (_ & Hs1 & _ & evs & Ht1 & Hst & Hok & _).
  destruct (addDoc be _ _ w1) as [[e|id2] w2] eqn:E2; [discriminate|].
  apply addDoc_inv in E2 as (Hs2 & _ & ok2 & Ht2 & Hok2 & _).
  cbn in Hok2. subst ok2.
  assert (Hup : exists r3 w3, updateDoc be sponsorId id2 w2 = (r3, w3) /\
                  w' = (if is_throw r3 then log_console
                          (warning (match r3 with inl e => e | _ => Error "" end)) w3
                        else w3) /\ id = id2).
  { destruct (updateDoc be sponsorId id2 w2) as [[e|[]] w3]; simplify_eq;
      eexists _, _; split_and!; reflexivity. }
  destruct Hup as (r3 & w3 & E3 & Hw' & ->).
  pose proof E3 as E3'.
  apply updateDoc_inv in E3 as (_ & _ & ok3 & Ht3 & Hok3 & Hsp3).
  assert (Htr : trace w' = trace w ++ evs ++
                [mkEvent (AddDoc "prize_database"
                            (buildPrizeDoc data urls (clock w1))) true;
                 mkEvent (UpdateDoc "sponsors" sponsorId "prizesCreation" id2) ok3]).
  { assert (trace w' = trace w3) as -> by (rewrite Hw'; destruct (is_throw r3); reflexivity).
    rewrite Ht3, Ht2, Ht1, <- !app_assoc. reflexivity. }
  rewrite (new_events_app _ _ _ Htr).
  rewrite !failed_app, succeeded_app, (failed_all_ok _ _ Hok).
  rewrite (failed_not_attempted LinkingSponsor evs)
    by (apply attempted_other_stage; [assumption|discriminate]).
  split_and!; [reflexivity|cbn; apply orb_true_r|].
  intros [arr Harr].
  assert (Hok3' : ok3 = true).
  { unfold updateDoc, request in E3'.
    rewrite (Hnf w2), Hs2, Hs1, Harr in E3'.
    simplify_eq. reflexivity. }
  subst ok3. destruct r3 as [e|[]]; [discriminate|].
  cbn in Hw'. subst w3. destruct Hsp3 as [Hsp3 _].
  split; [reflexivity|].
  exists (arrayUnion id2 arr). split.
  - rewrite Hsp3, lookup_alter_eq, Hs2, Hs1, Harr. reflexivity.
  - unfold arrayUnion. destruct (decide (id2 ∈ arr)); [assumption|].
    apply elem_of_app. right. apply list_elem_of_singleton. reflexivity.
Qed.

Lemma createPrizeDocument_succeeds_witness :
  never_rejects backend_ok /\
  exists id w',
    createPrizeDocument backend_ok (submitted_data sample_form) sample_files
      "s1" sample_world = (inr id, w') /\
    exists arr, sponsors w' !! "s1" = Some arr /\ id ∈ arr.
Proof.
  assert (Hnf : never_rejects backend_ok) by (intros w c; reflexivity).
  split; [exact Hnf|].
  destruct (createPrizeDocument_succeeds backend_ok (submitted_data sample_form)
              sample_files "s1" sample_world Hnf)
    as (id & w' & Hrun & _ & _ & Hlink).
  exists id, w'. split; [exact Hrun|].
  apply Hlink. exists ["p0"]. reflexivity.
Defined.

(** X2.  A run issues at least one and at most 2n + 2 calls for n files,
    and it returns an id exactly when it has issued all 2n + 2. *)
Theorem createPrizeDocument_call_count be data imageFiles sponsorId w r w' :
  createPrizeDocument be data imageFiles sponsorId w = (r, w') ->
  (1 <= length (new_events w w') <= 2 * length imageFiles + 2)%nat /\
  (is_throw r = false <->
   length (new_events w w') = (2 * length imageFiles + 2)%nat).
Proof.
  rewrite createPrizeDocument_unfold. intros H.
  destruct (uploadImages be imageFiles [] w) as [r1 w1] eqn:E1.
  apply uploadImages_calls in E1 as (evs & Ht1 & Hlen).
  destruct r1 as [e|urls]; cbn in Hlen.
  { simplify_eq. rewrite (new_events_app _ _ _ Ht1). cbn.
    split; [lia|]. split; [discriminate|lia]. }
  destruct (addDoc be _ _ w1) as [r2 w2] eqn:E2.
  apply addDoc_inv in E2 as (_ & _ & ok2 & Ht2 & _ & _).
  destruct r2 as [e|id].
  { simplify_eq.
    rewrite (new_events_app w w' (evs ++ [mkEvent _ ok2]))
      by (rewrite Ht2, Ht1, <- app_assoc; reflexivity).
    rewrite length_app. cbn. split; [lia|]. split; [discriminate|lia]. }
  destruct (updateDoc be sponsorId id w2) as [r3 w3] eqn:E3.
  apply updateDoc_inv in E3 as (_ & _ & ok3 & Ht3 & _ & _).
  assert (Hr : is_throw r = false /\ trace w' = trace w3)
    by (destruct r3 as [e|[]]; simplify_eq; split; reflexivity).
  destruct Hr as [Hr Htw].
  rewrite (new_events_app w w' (evs ++ [mkEvent _ ok2; mkEvent _ ok3]))
    by (rewrite Htw, Ht3, Ht2, Ht1, <- !app_assoc; reflexivity).
  rewrite length_app. cbn [length]. split; [lia|]. split; [lia|intros _; exact Hr].
Qed.

Lemma createPrizeDocument_call_count_witness :
  exists r w',
    createPrizeDocument backend_link_fails (submitted_data sample_form)
      sample_files "s1" sample_world = (r, w') /\
    is_throw r = false /\
    length (new_events sample_world w') = 6%nat.
Proof.
  pose (run := createPrizeDocument backend_link_fails
                 (submitted_data sample_form) sample_files "s1" sample_world).
  assert (Hrun : run = (run.1, run.2)) by apply surjective_pairing.
  exists run.1, run.2. split; [exact Hrun|].
  assert (Hr : is_throw run.1 = false) by (vm_compute; reflexivity).
  split; [exact Hr|].
  destruct (createPrizeDocument_call_count _ _ _ _ _ _ _ Hrun) as [_ Hiff].
  exact (proj1 Hiff Hr).
Defined.

Lemma arrayUnion_spec x (arr : list string) :
  arr `prefix_of` arrayUnion x arr /\
  (length (arrayUnion x arr) <= S (length arr))%nat /\
  x ∈ arrayUnion x arr /\
  (NoDup arr -> NoDup (arrayUnion x arr)).
Proof.
  unfold arrayUnion. destruct (decide (x ∈ arr)) as [Hin|Hnot].
  - split_and!; [reflexivity|lia|exact Hin|tauto].
  - split_and!.
    + apply prefix_app_r. reflexivity.
    + rewrite length_app. cbn. lia.
    + apply elem_of_app. right. apply list_elem_of_singleton. reflexivity.
    + intros Hnd. apply NoDup_app. split_and!; [exact Hnd| |apply NoDup_singleton].
      intros y Hy Hy'. apply list_elem_of_singleton in Hy'. congruence.
Qed.

(** X3.  createPrizeDocument touches one prize document and one sponsor at
    most: every other document and every other sponsor is as before, a
    missing sponsor is not created, and the sponsor's array keeps its
    entries in place, grows by at most one and gains no duplicate. *)
Theorem createPrizeDocument_frame be data imageFiles sponsorId w r w' :
  createPrizeDocument be data imageFiles sponsorId w = (r, w') ->
  (forall id, r <> inr id -> prize_database w' !! id = prize_database w !! id) /\
  (forall s, s <> sponsorId -> sponsors w' !! s = sponsors w !! s) /\
  match sponsors w !! sponsorId with
  | None => sponsors w' !! sponsorId = None
  | Some arr =>
      exists arr', sponsors w' !! sponsorId = Some arr' /\
        arr `prefix_of` arr' /\ (length arr' <= S (length arr))%nat /\
        (NoDup arr -> NoDup arr')
  end.
Proof.
  intros H.
  apply createPrizeDocument_run in H as (ups & _ & _ & Hcases).
  assert (Hsame : prize_database w' = prize_database w -> sponsors w' = sponsors w ->
    (forall id, r <> inr id -> prize_database w' !! id = prize_database w !! id) /\
    (forall s, s <> sponsorId -> sponsors w' !! s = sponsors w !! s) /\
    match sponsors w !! sponsorId with
    | None => sponsors w' !! sponsorId = None
    | Some arr =>
        exists arr', sponsors w' !! sponsorId = Some arr' /\
          arr `prefix_of` arr' /\ (length arr' <= S (length arr))%nat /\
          (NoDup arr -> NoDup arr')
    end).
  { intros -> ->. split_and!; [reflexivity..|].
    destruct (sponsors w !! sponsorId) as [arr|]; [|reflexivity].
    exists arr. split_and!; [reflexivity|reflexivity|lia|tauto]. }
  destruct Hcases as [(_ & _ & _ & Hp & Hs & _) | (doc & _ & _ & _ & _ & Hcases)];
    [auto|].
  destruct Hcases as [(_ & _ & Hp & Hs & _) | (id & up & -> & _ & Hp & _ & Hup)];
    [auto|].
  assert (Hdocs : forall id', inr id <> inr (A:=exn) id' ->
            prize_database w' !! id' = prize_database w !! id').
  { intros id' Hne. rewrite Hp. apply lookup_insert_ne. congruence. }
  destruct up.
  - destruct Hup as (Hs & [arr Harr] & _). rewrite Hs, Harr.
    split_and!; [exact Hdocs| |].
    + intros s Hne. apply lookup_alter_ne. congruence.
    + exists (arrayUnion id arr). rewrite lookup_alter_eq, Harr.
      split; [reflexivity|].
      destruct (arrayUnion_spec id arr) as (? & ? & _ & ?). auto.
  - destruct Hup as [Hs _]. rewrite Hs.
    split_and!; [exact Hdocs|reflexivity|].
    destruct (sponsors w !! sponsorId) as [arr|]; [|reflexivity].
    exists arr. split_and!; [reflexivity|reflexivity|lia|tauto].
Qed.

Lemma createPrizeDocument_frame_witness :
  exists r w',
    createPrizeDocument backend_ok (submitted_data sample_form) sample_files
      "s1" sample_world = (r, w') /\
    sponsors w' !! "s1" = Some ["p0"; "prize-0"] /\
    sponsors w' !! "s2" = None.
Proof.
  pose (run := createPrizeDocument backend_ok
                 (submitted_data sample_form) sample_files "s1" sample_world).
  assert (Hrun : run = (run.1, run.2)) by apply surjective_pairing.
  exists run.1, run.2. split; [exact Hrun|].
  destruct (createPrizeDocument_frame _ _ _ _ _ _ _ Hrun) as (_ & Hother & _).
  split; [vm_compute; reflexivity|].
  rewrite (Hother "s2") by discriminate. reflexivity.
Defined.

Section StorageFacts.
Variable be : Backend.

Lemma grows_refl s : grows s s.
Proof. intros p H. exact H. Qed.

Lemma grows_trans s1 s2 s3 : grows s1 s2 -> grows s2 s3 -> grows s1 s3.
Proof. intros H1 H2 p H. apply H2, H1, H. Qed.

Lemma uploadBytes_storage p f w r w' :
  uploadBytes be p f w = (r, w') ->
  grows (storage w) (storage w') /\
  (is_throw r = false -> is_Some (storage w' !! p)).
Proof.
  unfold uploadBytes, request. intros H.
  destruct (fault be w (UploadBytes p f)); simplify_eq/=.
  - split; [apply grows_refl|discriminate].
  - split.
    + intros q Hq. destruct (decide (p = q)) as [->|Hne].
      * rewrite lookup_insert_eq. eauto.
      * rewrite lookup_insert_ne by exact Hne. exact Hq.
    + intros _. rewrite lookup_insert_eq. eauto.
Qed.

Lemma getDownloadURL_storage p w r w' :
  getDownloadURL be p w = (r, w') -> storage w' = storage w.
Proof.
  unfold getDownloadURL, request. intros H.
  destruct (fault be w (GetDownloadURL p)), (storage w !! p); simplify_eq/=;
    reflexivity.
Qed.

Lemma addDoc_storage c d w r w' :
  addDoc be c d w = (r, w') -> storage w' = storage w.
Proof.
  unfold addDoc, request. intros H.
  destruct (fault be w (AddDoc c d)); simplify_eq/=; reflexivity.
Qed.

Lemma updateDoc_storage id x w r w' :
  updateDoc be id x w = (r, w') -> storage w' = storage w.
Proof.
  unfold updateDoc, request. intros H.
  destruct (fault be w _), (sponsors w !! id); simplify_eq/=; reflexivity.
Qed.

Lemma uploadImages_storage files : forall acc w r w',
  uploadImages be files acc w = (r, w') ->
  grows (storage w) (storage w') /\
  forall p f, UploadBytes p f ∈ accepted_calls (new_events w w') ->
              is_Some (storage w' !! p).
Proof.
  induction files as [|file rest IH]; intros acc w r w' H.
  - cbn in H. unfold mret, M_ret, ret in H. simplify_eq.
    split; [apply grows_refl|].
    intros p f Hin. unfold new_events in Hin. rewrite drop_all in Hin.
    inversion Hin.
  - rewrite uploadImages_cons in H.
    set (p0 := storage_path (clock w) file) in *.
    destruct (uploadBytes be p0 file w) as [r1 w1] eqn:E1.
    pose proof (uploadBytes_storage _ _ _ _ _ E1) as [Hg1 Hin1].
    apply uploadBytes_inv in E1 as (_ & _ & _ & ok1 & Ht1 & Hok1 & _).
    destruct r1 as [e1|[]]; cbn in Hok1; subst ok1.
    { simplify_eq. split; [exact Hg1|].
      intros p f Hin. rewrite (new_events_app _ _ _ Ht1) in Hin.
      inversion Hin. }
    specialize (Hin1 eq_refl).
    destruct (getDownloadURL be p0 w1) as [r2 w2] eqn:E2.
    pose proof (getDownloadURL_storage _ _ _ _ E2) as Hs2.
    apply getDownloadURL_inv in E2 as (_ & _ & _ & ok2 & Ht2 & Hok2 & _).
    destruct r2 as [e2|url]; cbn in Hok2; subst ok2.
    { injection H as <- <-. split; [rewrite Hs2; exact Hg1|].
      intros p f Hin.
      rewrite (new_events_app w w2 [mkEvent (UploadBytes p0 file) true;
                                    mkEvent (GetDownloadURL p0) false]) in Hin
        by (rewrite Ht2, Ht1, <- app_assoc; reflexivity).
      rewrite Hs2.
      apply elem_of_cons in Hin as [Heq|Hin]; [|inversion Hin].
      injection Heq as -> _. exact Hin1. }
    pose proof H as H'.
    apply IH in H as [Hg3 Hin3].
    apply uploadImages_inv in H' as (_ & _ & _ & evs & Ht3 & _ & _).
    assert (Hg : grows (storage w1) (storage w'))
      by (rewrite <- Hs2; exact Hg3).
    split; [exact (grows_trans _ _ _ Hg1 Hg)|].
    intros p f Hin.
    rewrite (new_events_app w w' (mkEvent (UploadBytes p0 file) true ::
                                  mkEvent (GetDownloadURL p0) true :: evs)) in Hin
      by (rewrite Ht3, Ht2, Ht1, <- !app_assoc; reflexivity).
    unfold accepted_calls in Hin. rewrite !filter_cons_True in Hin by reflexivity.
    cbn [map ev_call] in Hin.
    apply elem_of_cons in Hin as [Heq|Hin].
    + simplify_eq. apply Hg, Hin1.
    + apply elem_of_cons in Hin as [Heq|Hin]; [discriminate|].
      apply (Hin3 p f). rewrite (new_events_app _ _ _ Ht3). exact Hin.
Qed.

End StorageFacts.

(** X4.  Nothing is removed from Storage and no upload is undone: every
    object that was stored before a run is stored after it, and so is
    every object whose upload went through, also when the run throws. *)
Theorem createPrizeDocument_keeps_uploads be data imageFiles sponsorId w r w' :
  createPrizeDocument be data imageFiles sponsorId w = (r, w') ->
  (forall p, is_Some (storage w !! p) -> is_Some (storage w' !! p)) /\
  (forall p f, UploadBytes p f ∈ accepted_calls (new_events w w') ->
               is_Some (storage w' !! p)).
Proof.
  rewrite createPrizeDocument_unfold. intros H.
  destruct (uploadImages be imageFiles [] w) as [r1 w1] eqn:E1.
  pose proof (uploadImages_storage be _ _ _ _ _ E1) as [Hg1 Hin1].
  apply uploadImages_inv in E1 as (_ & _ & _ & evs & Ht1 & Hst & _).
  rewrite (new_events_app _ _ _ Ht1) in Hin1.
  assert (Htail : forall tail w2, storage w2 = storage w1 ->
            trace w2 = trace w ++ evs ++ tail ->
            Forall (fun e => stage (ev_call e) <> Uploading) tail ->
            (forall p, is_Some (storage w !! p) -> is_Some (storage w2 !! p)) /\
            (forall p f, UploadBytes p f ∈ accepted_calls (new_events w w2) ->
                         is_Some (storage w2 !! p))).
  { intros tail w2 Hs Ht Htl. rewrite Hs. split; [exact Hg1|].
    intros p f Hin. apply (Hin1 p f).
    rewrite (new_events_app _ _ _ Ht) in Hin.
    unfold accepted_calls in *. rewrite filter_app, map_app in Hin.
    apply elem_of_app in Hin as [Hin|Hin]; [exact Hin|].
    exfalso. apply list_elem_of_fmap in Hin as (e & He & Hin).
    apply list_elem_of_filter in Hin as [_ Hin].
    rewrite Forall_forall in Htl. apply (Htl e Hin). rewrite <- He. reflexivity. }
  destruct r1 as [e|urls].
  { simplify_eq. apply (Htail []); [reflexivity|rewrite app_nil_r; exact Ht1|constructor]. }
  destruct (addDoc be _ _ w1) as [r2 w2] eqn:E2.
  pose proof (addDoc_storage be _ _ _ _ _ E2) as Hs2.
  apply addDoc_inv in E2 as (_ & _ & ok2 & Ht2 & _ & _).
  destruct r2 as [e|id].
  { simplify_eq. eapply Htail; [exact Hs2| |].
    - rewrite Ht2, Ht1, <- app_assoc. reflexivity.
    - repeat constructor. discriminate. }
  destruct (updateDoc be sponsorId id w2) as [r3 w3] eqn:E3.
  pose proof (updateDoc_storage be _ _ _ _ _ E3) as Hs3.
  apply updateDoc_inv in E3 as (_ & _ & ok3 & Ht3 & _ & _).
  assert (Hw : storage w' = storage w3 /\ trace w' = trace w3)
    by (destruct r3 as [e|[]]; simplify_eq; split; reflexivity).
  destruct Hw as [Hsw Htw].
  eapply Htail.
  - congruence.
  - rewrite Htw, Ht3, Ht2, Ht1, <- !app_assoc. reflexivity.
  - repeat constructor; discriminate.
Qed.

Lemma createPrizeDocument_keeps_uploads_witness :
  exists r w',
    createPrizeDocument backend_insert_fails (submitted_data sample_form)
      sample_files "s1" sample_world = (r, w') /\
    is_throw r = true /\
    is_Some (storage w' !! "prize_database/1700000000000_front.png") /\
    is_Some (storage w' !! "prize_database/1700000000080_back.png").
Proof.
  pose (run := createPrizeDocument backend_insert_fails
                 (submitted_data sample_form) sample_files "s1" sample_world).
  assert (Hrun : run = (run.1, run.2)) by apply surjective_pairing.
  exists run.1, run.2. split; [exact Hrun|].
  split; [vm_compute; reflexivity|].
  destruct (createPrizeDocument_keeps_uploads _ _ _ _ _ _ _ Hrun) as [_ Hup].
  split.
  - apply (Hup _ (mkFile "front.png" "PNG1")).
    vm_compute. apply list_elem_of_here.
  - apply (Hup _ (mkFile "back.png" "PNG2")).
    vm_compute. apply list_elem_of_further, list_elem_of_further, list_elem_of_here.
Defined.

(** X5.  The object path is made of the upload time and the file name
    only: when the clock does not advance between two uploads of files
    with the same name, both go to the same path and the second replaces
    the first.  Storage gains one object, holding the second file, while
    the document lists two images. *)
Theorem uploads_collide be data f1 f2 sponsorId w :
  never_rejects be ->
  (forall w0 c, elapsed be w0 c = 0) ->
  file_name f1 = file_name f2 ->
  let path := storage_path (clock w) f1 in
  exists id w' doc,
    createPrizeDocument be data [f1; f2] sponsorId w = (inr id, w') /\
    prize_database w' !! id = Some doc /\
    length (PrizeDoc.images doc) = 2%nat /\
    storage w' = <[path := f2]> (storage w).
Proof.
  intros Hnf Hel Hname path.
  assert (Hup : exists urls w1,
    uploadImages be [f1; f2] [] w = (inr urls, w1) /\ length urls = 2%nat /\
    storage w1 = <[path := f2]> (storage w)).
  { rewrite uploadImages_cons. fold path.
    rewrite uploadBytes_accepted by apply Hnf.
    erewrite getDownloadURL_accepted; [|apply Hnf|cbn; apply lookup_insert_eq].
    rewrite uploadImages_cons.
    cbn [clock log_event set_clock set_storage]. rewrite !Hel, !Z.add_0_r.
    replace (storage_path (clock w) f2) with path
      by (unfold path, storage_path; rewrite Hname; reflexivity).
    rewrite uploadBytes_accepted by apply Hnf.
    erewrite getDownloadURL_accepted; [|apply Hnf|cbn; apply lookup_insert_eq].
    eexists _, _. split; [reflexivity|]. split; [reflexivity|].
    cbn. apply insert_insert_eq. }
  destruct Hup as (urls & w1 & Hup & Hlen & Hst1).
  destruct (createPrizeDocument_accepted be data [f1; f2] sponsorId w Hnf)
    as (id & w' & Hrun).
  pose proof Hrun as Hrun'.
  rewrite createPrizeDocument_unfold, Hup in Hrun'.
  destruct (addDoc be _ _ w1) as [[e|id2] w2] eqn:E2; [discriminate|].
  pose proof (addDoc_storage be _ _ _ _ _ E2) as Hs2.
  apply addDoc_inv in E2 as (_ & _ & _ & _ & _ & Hp2 & _).
  destruct (updateDoc be sponsorId id2 w2) as [r3 w3] eqn:E3.
  pose proof (updateDoc_storage be _ _ _ _ _ E3) as Hs3.
  apply updateDoc_inv in E3 as (Hp3 & _).
  assert (Hw : id = id2 /\ storage w' = storage w3 /\
               prize_database w' = prize_database w3)
    by (destruct r3 as [e|[]]; simplify_eq; split_and!; reflexivity).
  destruct Hw as (-> & Hsw & Hpw).
  exists id2, w', (buildPrizeDoc data urls (clock w1)).
  split_and!.
  - exact Hrun.
  - rewrite Hpw, Hp3, Hp2. apply lookup_insert_eq.
  - exact Hlen.
  - rewrite Hsw, Hs3, Hs2. exact Hst1.
Qed.

Lemma uploads_collide_witness :
  never_rejects backend_frozen /\
  (forall w0 c, elapsed backend_frozen w0 c = 0) /\
  exists id w',
    createPrizeDocument backend_frozen (submitted_data sample_form)
      same_name_files "s1" sample_world = (inr id, w') /\
    storage w' !! "prize_database/1700000000000_photo.png"
      = Some (mkFile "photo.png" "SECOND") /\
    size (storage w') = 1%nat.
Proof.
  assert (Hnf : never_rejects backend_frozen) by (intros w c; reflexivity).
  assert (Hel : forall w0 c, elapsed backend_frozen w0 c = 0) by reflexivity.
  split; [exact Hnf|]. split; [exact Hel|].
  destruct (uploads_collide backend_frozen (submitted_data sample_form)
              (mkFile "photo.png" "FIRST") (mkFile "photo.png" "SECOND")
              "s1" sample_world Hnf Hel eq_refl)
    as (id & w' & doc & Hrun & _ & _ & Hst).
  exists id, w'. split; [exact Hrun|].
  rewrite Hst. split; [apply lookup_insert_eq|].
  vm_compute. reflexivity.
Defined.

(** ** CreatePrizeModal.tsx: images *)

Lemma filter_index_past {A} idx (l : list A) : forall i,
  (idx < i)%nat -> filter_index idx i l = l.
Proof.
  induction l as [|x l IH]; intros i Hi; cbn; [reflexivity|].
  rewrite decide_False by lia. rewrite IH by lia. reflexivity.
Qed.

Lemma filter_index_spec {A} idx (l : list A) : forall i,
  (i <= idx)%nat ->
  filter_index idx i l = take (idx - i) l ++ drop (S (idx - i)) l.
Proof.
  induction l as [|x l IH]; intros i Hi; cbn [filter_index].
  - rewrite take_nil, drop_nil. reflexivity.
  - destruct (decide (i = idx)) as [->|Hne].
    + rewrite Nat.sub_diag. cbn. apply filter_index_past. lia.
    + rewrite IH by lia.
      replace (idx - i)%nat with (S (idx - S i)) by lia. reflexivity.
Qed.

(** X6.  removeImage takes the entry at the given index out of the staged
    files and out of the previews and keeps the others in their order; an
    index past the end changes nothing; lists of equal length stay so. *)
Theorem removeImage_spec idx st :
  imageFiles (removeImage idx st)
    = take idx (imageFiles st) ++ drop (S idx) (imageFiles st) /\
  imagePreviews (removeImage idx st)
    = take idx (imagePreviews st) ++ drop (S idx) (imagePreviews st) /\
  (forall j, (j < idx)%nat ->
     imageFiles (removeImage idx st) !! j = imageFiles st !! j) /\
  (forall j, (idx <= j)%nat ->
     imageFiles (removeImage idx st) !! j = imageFiles st !! S j) /\
  ((length (imageFiles st) <= idx)%nat ->
     imageFiles (removeImage idx st) = imageFiles st) /\
  (length (imageFiles st) = length (imagePreviews st) ->
     length (imageFiles (removeImage idx st))
       = length (imagePreviews (removeImage idx st))).
Proof.
  assert (Hf : imageFiles (removeImage idx st)
               = take idx (imageFiles st) ++ drop (S idx) (imageFiles st)).
  { cbn. rewrite filter_index_spec by lia. rewrite Nat.sub_0_r. reflexivity. }
  assert (Hp : imagePreviews (removeImage idx st)
               = take idx (imagePreviews st) ++ drop (S idx) (imagePreviews st)).
  { cbn. rewrite filter_index_spec by lia. rewrite Nat.sub_0_r. reflexivity. }
  split_and!.
  - exact Hf.
  - exact Hp.
  - intros j Hj. rewrite Hf.
    destruct (decide (idx <= length (imageFiles st))%nat).
    + rewrite lookup_app_l by (rewrite length_take; lia).
      apply lookup_take_lt. exact Hj.
    + rewrite drop_ge, app_nil_r, take_ge by lia. reflexivity.
  - intros j Hj. rewrite Hf.
    destruct (decide (idx <= length (imageFiles st))%nat).
    + rewrite lookup_app_r by (rewrite length_take; lia).
      rewrite length_take, Nat.min_l by lia. rewrite lookup_drop.
      f_equal. lia.
    + rewrite drop_ge, app_nil_r, take_ge by lia.
      rewrite !lookup_ge_None_2 by lia. reflexivity.
  - intros Hge. rewrite Hf, drop_ge, app_nil_r, take_ge by lia. reflexivity.
  - intros Hlen. rewrite Hf, Hp, !length_app, !length_take, !length_drop. lia.
Qed.

(** X7.  Below the cap, removing the file that was just attached gives the
    staged files back. *)
Theorem attach_then_remove f st :
  (length (imageFiles st) < 4)%nat ->
  imageFiles (removeImage (length (imageFiles st))
                (handleImageUpload (Some [f]) st))
    = imageFiles st.
Proof.
  intros Hk. cbn [removeImage imageFiles set_imagePreviews set_imageFiles].
  rewrite filter_index_spec by lia. rewrite Nat.sub_0_r.
  rewrite handleImageUpload_files by lia.
  rewrite take_app_length.
  rewrite drop_ge; [apply app_nil_r|].
  rewrite length_app, length_take. cbn. lia.
Qed.

Lemma attach_then_remove_witness :
  (length (imageFiles filled_two_images) < 4)%nat /\
  imageFiles (removeImage 2 (handleImageUpload
                               (Some [mkFile "side.png" "PNG3"]) filled_two_images))
    = sample_files.
Proof.
  assert (Hk : (length (imageFiles filled_two_images) < 4)%nat) by (cbn; lia).
  split; [exact Hk|].
  exact (attach_then_remove (mkFile "side.png" "PNG3") filled_two_images Hk).
Defined.

(** X8.  The upload box is rendered exactly while attaching can still add
    a file: when it is shown, a non-empty batch stages at least one more
    file; when it is hidden, attaching changes no staged file; it is
    hidden once the batch fills the four places. *)
Theorem uploadBox_matches_cap st :
  (length (imageFiles st) <= 4)%nat ->
  (uploadBoxVisible st = true ->
     forall f fs, (length (imageFiles st)
                   < length (imageFiles (handleImageUpload (Some (f :: fs)) st)))%nat) /\
  (uploadBoxVisible st = false ->
     forall files, imageFiles (handleImageUpload (Some files) st) = imageFiles st) /\
  (forall files, (4 <= length (imageFiles st) + length files)%nat ->
     uploadBoxVisible (handleImageUpload (Some files) st) = false).
Proof.
  intros Hk. unfold uploadBoxVisible. split_and!.
  - intros Hv f fs. apply bool_decide_eq_true in Hv.
    rewrite handleImageUpload_length by exact Hk. cbn. lia.
  - intros Hv files. apply bool_decide_eq_false in Hv.
    rewrite handleImageUpload_files by exact Hk.
    replace (4 - length (imageFiles st))%nat with 0%nat by lia.
    apply app_nil_r.
  - intros files Hfull. apply bool_decide_eq_false.
    rewrite handleImageUpload_length by exact Hk. lia.
Qed.

Lemma uploadBox_matches_cap_witness :
  (length (imageFiles filled_two_images) <= 4)%nat /\
  uploadBoxVisible filled_two_images = true /\
  uploadBoxVisible (handleImageUpload (Some six_files) filled_two_images) = false.
Proof.
  assert (Hk : (length (imageFiles filled_two_images) <= 4)%nat) by (cbn; lia).
  split; [exact Hk|]. split; [reflexivity|].
  destruct (uploadBox_matches_cap filled_two_images Hk) as (_ & _ & Hfull).
  apply Hfull. cbn. lia.
Defined.

(** ** CreatePrizeModal.tsx: regions and categories *)

Lemma toggled_elem_of region prev x :
  x ∈ toggled region prev <->
  (x <> region /\ x ∈ prev) \/ (x = region /\ region ∉ prev).
Proof.
  unfold toggled. destruct (decide (region ∈ prev)) as [Hin|Hnot].
  - rewrite list_elem_of_filter. tauto.
  - rewrite elem_of_app, list_elem_of_singleton. split.
    + intros [Hx| ->]; [left|right]; split; try assumption; congruence.
    + intros [[_ Hx]|[-> _]]; tauto.
Qed.

Lemma toggled_NoDup region prev : NoDup prev -> NoDup (toggled region prev).
Proof.
  intros Hnd. unfold toggled. destruct (decide (region ∈ prev)) as [Hin|Hnot].
  - apply NoDup_filter, Hnd.
  - apply NoDup_app. split_and!; [exact Hnd| |apply NoDup_singleton].
    intros y Hy Hy'. apply list_elem_of_singleton in Hy'. congruence.
Qed.

(** X9.  A toggle flips whether the region is selected and leaves every
    other region as it was; a selection without duplicates stays without
    duplicates. *)
Theorem toggleRegion_membership region st x :
  (x ∈ selectedRegions (toggleRegion region st) <->
   (x <> region /\ x ∈ selectedRegions st) \/
   (x = region /\ region ∉ selectedRegions st)) /\
  (NoDup (selectedRegions st) -> NoDup (selectedRegions (toggleRegion region st))).
Proof.
  split; [apply toggled_elem_of|apply toggled_NoDup].
Qed.

Lemma join_snoc_nonempty sep (l : list string) x :
  x <> "" -> Js.join sep (l ++ [x]) <> "".
Proof.
  intros Hx. induction l as [|y l IH]; [exact Hx|].
  cbn [app]. destruct (l ++ [x]) as [|z r] eqn:E.
  - destruct l; discriminate.
  - cbn [Js.join]. intros Habs.
    destruct y; [|discriminate]. cbn in Habs.
    destruct sep; [|discriminate]. cbn in Habs. exact (IH Habs).
Qed.

Lemma filter_z_min_other q p n msg v :
  p <> q -> filter (fun i => issue_path i = q) (z_min p n msg v) = [].
Proof.
  intros Hne. unfold z_min. destruct (decide _); [|reflexivity].
  rewrite filter_cons_False by (cbn; exact Hne). reflexivity.
Qed.

Lemma filter_z_max_other q p n v :
  p <> q -> filter (fun i => issue_path i = q) (z_max p n v) = [].
Proof.
  intros Hne. unfold z_max. destruct (decide _); [|reflexivity].
  rewrite filter_cons_False by (cbn; exact Hne). reflexivity.
Qed.

Lemma formSchema_eligibleRegions v :
  filter (fun i => issue_path i = "eligibleRegions") (formSchema v)
    = if decide (FormValues.eligibleRegions v = "")
      then [mkIssue "eligibleRegions" (Some "Eligible regions required")]
      else [].
Proof.
  unfold formSchema. rewrite !filter_app.
  rewrite !filter_z_max_other by discriminate.
  rewrite !(filter_z_min_other "eligibleRegions" "prizeName") by discriminate.
  rewrite !(filter_z_min_other "eligibleRegions" "quantityAvailable") by discriminate.
  rewrite !(filter_z_min_other "eligibleRegions" "fullDescription") by discriminate.
  rewrite !(filter_z_min_other "eligibleRegions" "tags") by discriminate.
  rewrite !(filter_z_min_other "eligibleRegions" "sponsorId") by discriminate.
  rewrite !(filter_z_min_other "eligibleRegions" "prizeCategory") by discriminate.
  rewrite !(filter_z_min_other "eligibleRegions" "stockDate") by discriminate.
  rewrite !(filter_z_min_other "eligibleRegions" "fulfillmentMethod") by discriminate.
  rewrite !(filter_z_min_other "eligibleRegions" "deliveryTimeline") by discriminate.
  rewrite !(filter_z_min_other "eligibleRegions" "claimWindow") by discriminate.
  rewrite !(filter_z_min_other "eligibleRegions" "retailValueUSD") by discriminate.
  rewrite !(filter_z_min_other "eligibleRegions" "ageRestriction") by discriminate.
  cbn [app]. rewrite app_nil_r.
  unfold z_min. destruct (FormValues.eligibleRegions v) as [|c r]; cbn.
  - rewrite decide_True by lia. rewrite decide_True by reflexivity. reflexivity.
  - rewrite decide_False by lia. rewrite decide_False by discriminate. reflexivity.
Qed.

Lemma filter_split_same {A} (P : A -> Prop) `{!forall x, Decision (P x)} (l k : list A) :
  filter P (filter (fun x => ~ P x) l ++ filter P k) = filter P k.
Proof.
  rewrite filter_app, !list_filter_filter.
  rewrite (list_filter_iff _ (fun _ => False)) by tauto.
  rewrite (list_filter_iff (fun x => P x /\ P x) P) by tauto.
  induction l as [|x l IH]; [reflexivity|].
  rewrite filter_cons_False by tauto. exact IH.
Qed.

Lemma filter_split_other {A} (P : A -> Prop) `{!forall x, Decision (P x)} (l k : list A) :
  filter (fun x => ~ P x) (filter (fun x => ~ P x) l ++ filter P k)
    = filter (fun x => ~ P x) l.
Proof.
  rewrite filter_app, !list_filter_filter.
  rewrite (list_filter_iff (fun x => ~ P x /\ ~ P x) (fun x => ~ P x)) by tauto.
  rewrite (list_filter_iff (fun x => ~ P x /\ P x) (fun _ => False)) by tauto.
  assert (Hnil : filter (fun _ : A => False) k = []).
  { induction k as [|x k IH]; [reflexivity|].
    rewrite filter_cons_False by tauto. exact IH. }
  rewrite Hnil. apply app_nil_r.
Qed.

(** X10.  A toggle validates eligibleRegions again and no other field:
    afterwards the form carries the "Eligible regions required" error
    exactly when the joined string is empty, as it is when the last region
    has been removed, and as it is not when a region with a name has been
    added; the errors of the other fields are those from before. *)
Theorem toggleRegion_validates region st :
  let st' := toggleRegion region st in
  filter (fun i => issue_path i = "eligibleRegions") (errors st')
    = (if decide (FormValues.eligibleRegions (form st') = "")
       then [mkIssue "eligibleRegions" (Some "Eligible regions required")]
       else []) /\
  filter (fun i => issue_path i <> "eligibleRegions") (errors st')
    = filter (fun i => issue_path i <> "eligibleRegions") (errors st) /\
  (selectedRegions st' = [] -> FormValues.eligibleRegions (form st') = "") /\
  (region <> "" -> region ∉ selectedRegions st ->
     FormValues.eligibleRegions (form st') <> "").
Proof.
  cbv zeta. split_and!.
  - cbn [toggleRegion errors set_selectedRegions setValue_eligibleRegions
         set_errors set_form form].
    rewrite (filter_split_same (fun i => issue_path i = "eligibleRegions")).
    apply formSchema_eligibleRegions.
  - cbn [toggleRegion errors set_selectedRegions setValue_eligibleRegions
         set_errors set_form form].
    apply (filter_split_other (fun i => issue_path i = "eligibleRegions")).
  - destruct (toggleRegion_fields region st) as [Hl Hs].
    rewrite Hs, Hl. intros ->. reflexivity.
  - intros Hne Hnot. destruct (toggleRegion_fields region st) as [_ Hs].
    rewrite Hs. unfold toggled. rewrite decide_False by exact Hnot.
    apply join_snoc_nonempty, Hne.
Qed.

Lemma toggleRegion_validates_witness :
  "arima" <> "" /\ ("arima" ∉ selectedRegions initial_modal) /\
  FormValues.eligibleRegions (form (toggleRegion "arima" initial_modal)) <> "" /\
  errors (toggleRegion "arima" (toggleRegion "arima" initial_modal))
    = [mkIssue "eligibleRegions" (Some "Eligible regions required")].
Proof.
  assert (Hne : "arima" <> "") by discriminate.
  assert (Hnot : "arima" ∉ selectedRegions initial_modal) by (cbn; apply not_elem_of_nil).
  split; [exact Hne|]. split; [exact Hnot|].
  destruct (toggleRegion_validates "arima" initial_modal) as (_ & _ & _ & H).
  split; [exact (H Hne Hnot)|]. vm_compute. reflexivity.
Defined.

(** X11.  addCategory is idempotent: a second call without typing in
    between changes nothing, because the first one either did nothing or
    emptied the input. *)
Theorem addCategory_idempotent st :
  addCategory (addCategory st) = addCategory st.
Proof.
  destruct (decide (Js.trim (newCategory st) <> "" /\
                    Js.trim (newCategory st) ∉ categories st)) as [Hadd|Hno].
  - assert (E : addCategory st =
      set_newCategory ""
        (set_form (FormValues.set_prizeCategory (Js.trim (newCategory st)) (form st))
           (set_categories (categories st ++ [Js.trim (newCategory st)]) st)))
      by (unfold addCategory; rewrite decide_True by exact Hadd; reflexivity).
    rewrite E. unfold addCategory. cbn [newCategory set_newCategory].
    rewrite decide_False; [reflexivity|].
    intros [Habs _]. apply Habs. reflexivity.
  - assert (E : addCategory st = st)
      by (unfold addCategory; rewrite decide_False by exact Hno; reflexivity).
    rewrite E. exact E.
Qed.

Lemma addCategory_categories st :
  categories st `prefix_of` categories (addCategory st) /\
  (NoDup (categories st) -> NoDup (categories (addCategory st))).
Proof.
  unfold addCategory. destruct (decide _) as [[_ Hnew]|_].
  - cbn. split; [apply prefix_app_r; reflexivity|].
    intros Hnd. apply NoDup_app. split_and!; [exact Hnd| |apply NoDup_singleton].
    intros y Hy Hy'. apply list_elem_of_singleton in Hy'. congruence.
  - split; [reflexivity|tauto].
Qed.

Lemma onSubmit_lists be values st w :
  categories (onSubmit be values st w).1 = categories st /\
  (selectedRegions (onSubmit be values st w).1 = selectedRegions st \/
   selectedRegions (onSubmit be values st w).1 = []).
Proof.
  unfold onSubmit. destruct (decide _); [split; [reflexivity|left; reflexivity]|].
  destruct (createPrizeDocument _ _ _ _ _) as [[e|id] w'];
    (split; [reflexivity|]); [left|right]; reflexivity.
Qed.

Lemma handleSubmit_lists be st w :
  categories (handleSubmit be st w).1 = categories st /\
  (selectedRegions (handleSubmit be st w).1 = selectedRegions st \/
   selectedRegions (handleSubmit be st w).1 = []).
Proof.
  unfold handleSubmit. destruct (formSchema (form st)).
  - apply (onSubmit_lists be (form st) (set_errors [] st) w).
  - split; [reflexivity|left; reflexivity].
Qed.

(** X12.  In every state a modal reaches, the category list starts with
    the nine built-in categories and has no duplicate, and the selected
    regions have no duplicate. *)
Theorem modal_lists_invariant be w (actions : list Action) :
  let st := (foldl (act be) (initial_modal, w) actions).1 in
  PRIZE_CATEGORIES `prefix_of` categories st /\
  NoDup (categories st) /\
  NoDup (selectedRegions st).
Proof.
  assert (H : forall s,
    (PRIZE_CATEGORIES `prefix_of` categories s.1 /\ NoDup (categories s.1) /\
     NoDup (selectedRegions s.1)) ->
    let st := (foldl (act be) s actions).1 in
    PRIZE_CATEGORIES `prefix_of` categories st /\ NoDup (categories st) /\
    NoDup (selectedRegions st)).
  { induction actions as [|a actions IH]; intros [st w0] Hst; [exact Hst|].
    cbn [foldl]. apply IH. cbn [fst] in Hst. destruct Hst as (Hpre & Hc & Hr).
    destruct a as [[files|]| | | | | | |]; cbn [act fst];
      try (split_and!; assumption).
    - split_and!; [assumption..|]. apply toggled_NoDup, Hr.
    - destruct (addCategory_categories st) as [Hp Hn].
      split_and!; [etrans; eassumption|auto|].
      unfold addCategory. destruct (decide _); exact Hr.
    - destruct (handleSubmit_lists be st w0) as [-> [-> | ->]];
        split_and!; try assumption. apply NoDup_nil_2. }
  apply H. cbn. split_and!; [reflexivity| |apply NoDup_nil_2].
  refine (bool_decide_unpack _ _). vm_compute. exact I.
Qed.

Lemma filter_Boolean_spec (l : list (option string)) :
  (forall k, k ∈ filter_Boolean l <-> k <> "" /\ Some k ∈ l) /\
  (length (filter_Boolean l) <= length l)%nat /\
  filter_Boolean l `sublist_of` omap id l.
Proof.
  unfold filter_Boolean. split_and!.
  - intros k. rewrite list_elem_of_omap. split.
    + intros ([s|] & Hin & Hk); [|discriminate].
      destruct (decide (s = "")); [discriminate|].
      injection Hk as <-. tauto.
    + intros [Hne Hin]. exists (Some k). split; [exact Hin|].
      rewrite decide_False by exact Hne. reflexivity.
  - induction l as [|[s|] l IH]; cbn; [lia| |lia].
    destruct (decide (s = "")); cbn; lia.
  - induction l as [|[s|] l IH]; cbn; [constructor| |exact IH].
    destruct (decide (s = "")); [apply sublist_cons|apply sublist_skip]; exact IH.
Qed.

(** X13.  The keywords sent to the service are the details that are
    filled in, in the order of the three inputs: at most three, none of
    them empty, and all three when all are filled in. *)
Theorem submitted_keywords values :
  let ks := CreatePrizeData.keywords (submitted_data values) in
  let details := [FormValues.detail1 values; FormValues.detail2 values;
                  FormValues.detail3 values] in
  (forall k, k ∈ ks <-> k <> "" /\ Some k ∈ details) /\
  (length ks <= 3)%nat /\
  ks `sublist_of` omap id details /\
  (forall a b c, details = [Some a; Some b; Some c] ->
     a <> "" -> b <> "" -> c <> "" -> ks = [a; b; c]).
Proof.
  cbv zeta. cbn [submitted_data CreatePrizeData.keywords].
  destruct (filter_Boolean_spec [FormValues.detail1 values; FormValues.detail2 values;
                                 FormValues.detail3 values]) as (Hin & Hlen & Hsub).
  split_and!; [exact Hin|exact Hlen|exact Hsub|].
  intros a b c Heq Ha Hb Hc. rewrite Heq. unfold filter_Boolean. cbn.
  rewrite !decide_False by assumption. reflexivity.
Qed.

Lemma submitted_keywords_witness :
  CreatePrizeData.keywords (submitted_data sample_form) = ["55 inch"; "4K"] /\
  CreatePrizeData.keywords
    (submitted_data (FormValues.mk "n" "1" (Some "A") (Some "B") (Some "C")
       "d" "t" "s1" "c" "d" "f" "d" "c" false "r" "1" "18+" false true
       None None None None None)) = ["A"; "B"; "C"].
Proof.
  split; [reflexivity|].
  destruct (submitted_keywords (FormValues.mk "n" "1" (Some "A") (Some "B") (Some "C")
       "d" "t" "s1" "c" "d" "f" "d" "c" false "r" "1" "18+" false true
       None None None None None)) as (_ & _ & _ & H).
  apply H; [reflexivity|discriminate..].
Defined.

(** ** CreatePrizeModal.tsx: submission *)

Lemma createPrizeDocument_issues_call be data files sid w r w' :
  createPrizeDocument be data files sid w = (r, w') -> trace w' <> trace w.
Proof.
  intros H. apply createPrizeDocument_run in H as (ups & _ & _ & Hcases).
  assert (Hne : forall evs, evs <> [] -> trace w' = trace w ++ evs ->
                            trace w' <> trace w).
  { intros evs Hevs Ht Heq. rewrite Heq in Ht.
    rewrite <- (app_nil_r (trace w)) in Ht at 1.
    apply app_inv_head in Ht. congruence. }
  destruct Hcases as [(_ & Ht & Hf & _) | (doc & _ & _ & _ & _ & Hcases)].
  { apply (Hne ups); [|exact Ht]. intros ->. discriminate. }
  destruct Hcases as [(_ & Ht & _) | (id & up & _ & Ht & _)];
    (eapply Hne; [|exact Ht]); destruct ups; discriminate.
Qed.

Lemma str_or_same (url : string) : str_or (Some url) "" = url.
Proof. unfold str_or. destruct (decide (url = "")) as [->|]; reflexivity. Qed.

(** X14.  With a backend that rejects nothing, submitting a form the
    schema accepts with at least one staged file succeeds.  One document
    is inserted, and it carries every field of the form: the texts and
    flags as entered, the details that are filled in as keywords, the
    empty string for an optional text left out, status "Active", the
    break-even value computed from the retail value, one image per staged
    file and the first image as thumbnail.  The modal is closed, its form,
    staged files, previews and regions are back to their defaults, the
    categories are kept and onCreated is called. *)
Theorem handleSubmit_success be st w :
  never_rejects be -> accepts (form st) = true -> imageFiles st <> [] ->
  let st' := (handleSubmit be st w).1 in
  let w' := (handleSubmit be st w).2 in
  let v := form st in
  (open st' = false /\ saving st' = false /\
   form st' = FormValues.defaultValues /\ errors st' = [] /\
   imageFiles st' = [] /\ imagePreviews st' = [] /\ selectedRegions st' = [] /\
   created st' = S (created st) /\
   categories st' = categories st /\ newCategory st' = newCategory st /\
   toasts st' = toasts st ++
     [mkToast "Prize created"
        (dquote +:+ FormValues.prizeName v +:+ dquote
                +:+ " saved successfully.") "default"]) /\
  exists id url urls now,
    length (url :: urls) = length (imageFiles st) /\
    prize_database w' =
      <[id :=
        {| PrizeDoc.prizeName := FormValues.prizeName v;
           PrizeDoc.quantityAvailable := FormValues.quantityAvailable v;
           PrizeDoc.fullDescription := FormValues.fullDescription v;
           PrizeDoc.keywords :=
             filter_Boolean [FormValues.detail1 v; FormValues.detail2 v;
                             FormValues.detail3 v];
           PrizeDoc.tags := FormValues.tags v;
           PrizeDoc.thumbnail := url;
           PrizeDoc.images := url :: urls;
           PrizeDoc.sponsorId := FormValues.sponsorId v;
           PrizeDoc.prizeCategory := FormValues.prizeCategory v;
           PrizeDoc.stockDate := FormValues.stockDate v;
           PrizeDoc.fulfillmentMethod := FormValues.fulfillmentMethod v;
           PrizeDoc.deliveryTimeline := FormValues.deliveryTimeline v;
           PrizeDoc.claimWindow := FormValues.claimWindow v;
           PrizeDoc.pickupRequired := FormValues.pickupRequired v;
           PrizeDoc.eligibleRegions := FormValues.eligibleRegions v;
           PrizeDoc.retailValueUSD := FormValues.retailValueUSD v;
           PrizeDoc.breakEvenValue :=
             submitted_breakEven (FormValues.retailValueUSD v);
           PrizeDoc.ageRestriction := FormValues.ageRestriction v;
           PrizeDoc.idRequired := FormValues.idRequired v;
           PrizeDoc.useStandardTerms := FormValues.useStandardTerms v;
           PrizeDoc.termsConditionsUrl :=
             str_or (FormValues.termsConditionsUrl v) "";
           PrizeDoc.customTermsType := str_or (FormValues.customTermsType v) "";
           PrizeDoc.customTermsUrl := str_or (FormValues.customTermsUrl v) "";
           PrizeDoc.additionalInfo := str_or (FormValues.additionalInfo v) "";
           PrizeDoc.status := "Active";
           PrizeDoc.createdAt := now |}]> (prize_database w).
Proof.
  intros Hnf Hacc Hfiles. cbv zeta.
  unfold handleSubmit. unfold accepts in Hacc.
  destruct (formSchema (form st)); [clear Hacc|discriminate].
  unfold onSubmit.
  rewrite decide_False
    by (cbn; destruct (imageFiles st); [congruence|discriminate]).
  cbn [imageFiles set_saving set_errors].
  destruct (createPrizeDocument_accepted be (submitted_data (form st))
              (imageFiles st) (FormValues.sponsorId (form st)) w Hnf)
    as (id & w' & Hrun).
  rewrite Hrun. cbn [fst snd].
  split; [split_and!; reflexivity|].
  apply createPrizeDocument_run in Hrun as (ups & _ & _ & Hcases).
  destruct Hcases as [(Hthrow & _) | (doc & _ & Hups & Himg & [now Hdoc] & Hcases)];
    [discriminate|].
  destruct Hcases as [(Hthrow & _) | (id' & up & Hid & _ & Hp & _)];
    [discriminate|].
  assert (Hlen : length (PrizeDoc.images doc) = length (imageFiles st))
    by (rewrite Himg, length_map, <- (length_map snd), Hups; reflexivity).
  destruct (PrizeDoc.images doc) as [|url urls] eqn:Eimg.
  { destruct (imageFiles st); [congruence|discriminate]. }
  exists id', url, urls, now. split; [exact Hlen|].
  rewrite Hp, Hdoc. unfold buildPrizeDoc, submitted_data.
  cbn [lookup list_lookup CreatePrizeData.prizeName
       CreatePrizeData.quantityAvailable CreatePrizeData.fullDescription
       CreatePrizeData.keywords CreatePrizeData.tags CreatePrizeData.sponsorId
       CreatePrizeData.prizeCategory CreatePrizeData.stockDate
       CreatePrizeData.fulfillmentMethod CreatePrizeData.deliveryTimeline
       CreatePrizeData.claimWindow CreatePrizeData.pickupRequired
       CreatePrizeData.eligibleRegions CreatePrizeData.retailValueUSD
       CreatePrizeData.breakEvenValue CreatePrizeData.ageRestriction
       CreatePrizeData.idRequired CreatePrizeData.useStandardTerms
       CreatePrizeData.termsConditionsUrl CreatePrizeData.customTermsType
       CreatePrizeData.customTermsUrl CreatePrizeData.additionalInfo
       CreatePrizeData.status].
  rewrite str_or_same. reflexivity.
Qed.

Lemma handleSubmit_success_witness :
  never_rejects backend_ok /\
  accepts (form filled_two_images) = true /\
  imageFiles filled_two_images <> [] /\
  open (handleSubmit backend_ok filled_two_images sample_world).1 = false /\
  exists id doc,
    prize_database (handleSubmit backend_ok filled_two_images sample_world).2
      = <[id := doc]> (prize_database sample_world) /\
    PrizeDoc.status doc = "Active" /\
    PrizeDoc.keywords doc = ["55 inch"; "4K"] /\
    PrizeDoc.breakEvenValue doc = Js.of_Z 250.
Proof.
  assert (Hnf : never_rejects backend_ok) by (intros w c; reflexivity).
  assert (Hacc : accepts (form filled_two_images) = true) by (vm_compute; reflexivity).
  assert (Hne : imageFiles filled_two_images <> []) by discriminate.
  split_and!; [exact Hnf|exact Hacc|exact Hne|..];
    destruct (handleSubmit_success backend_ok filled_two_images sample_world
                Hnf Hacc Hne) as ((Hopen & _) & id & url & urls & now & _ & Hp).
  - exact Hopen.
  - eexists id, _. split; [exact Hp|].
    split; [reflexivity|]. split; vm_compute; reflexivity.
Defined.

(** X15.  Submitting reaches the network exactly when the schema accepts
    the form and at least one file is staged; otherwise the world is left
    as it is. *)
Theorem handleSubmit_network be st w :
  (trace (handleSubmit be st w).2 <> trace w <->
   accepts (form st) = true /\ imageFiles st <> []) /\
  (accepts (form st) = false \/ imageFiles st = [] ->
   (handleSubmit be st w).2 = w).
Proof.
  assert (Hquiet : accepts (form st) = false \/ imageFiles st = [] ->
                   (handleSubmit be st w).2 = w).
  { unfold handleSubmit, accepts.
    destruct (formSchema (form st)); [|reflexivity].
    intros [Habs|Hnil]; [discriminate|].
    unfold onSubmit. cbn [imageFiles set_errors]. rewrite Hnil. reflexivity. }
  split; [|exact Hquiet]. split.
  - intros Hne. destruct (accepts (form st)) eqn:Hacc.
    + split; [reflexivity|]. intros Hnil.
      apply Hne. rewrite Hquiet by (right; exact Hnil). reflexivity.
    + exfalso. apply Hne. rewrite Hquiet by (left; reflexivity). reflexivity.
  - intros [Hacc Hfiles]. unfold handleSubmit. unfold accepts in Hacc.
    destruct (formSchema (form st)); [clear Hacc|discriminate].
    unfold onSubmit.
    rewrite decide_False
      by (cbn; destruct (imageFiles st); [congruence|discriminate]).
    cbn [imageFiles set_saving set_errors].
    destruct (createPrizeDocument be _ _ _ w) as [r w'] eqn:Hrun.
    apply createPrizeDocument_issues_call in Hrun.
    destruct r; exact Hrun.
Qed.

Lemma handleSubmit_network_witness :
  (accepts (form initial_modal) = false \/ imageFiles initial_modal = []) /\
  (handleSubmit backend_ok initial_modal sample_world).2 = sample_world.
Proof.
  assert (H : accepts (form initial_modal) = false \/ imageFiles initial_modal = [])
    by (right; reflexivity).
  split; [exact H|].
  destruct (handleSubmit_network backend_ok initial_modal sample_world) as [_ Hq].
  exact (Hq H).
Defined.

Lemma onSubmit_failure_keeps_form_witness :
  imageFiles filled_two_images <> [] /\
  form (onSubmit backend_insert_fails sample_form filled_two_images sample_world).1
    = sample_form /\
  imageFiles (onSubmit backend_insert_fails sample_form filled_two_images
                sample_world).1 = sample_files /\
  saving (onSubmit backend_insert_fails sample_form filled_two_images
            sample_world).1 = false.
Proof.
  assert (Hne : imageFiles filled_two_images <> []) by discriminate.
  split; [exact Hne|].
  pose (run := createPrizeDocument backend_insert_fails (submitted_data sample_form)
                 (imageFiles filled_two_images) (FormValues.sponsorId sample_form)
                 sample_world).
  assert (Hrun : run = (inl (Error "unavailable"), run.2)).
  { rewrite (surjective_pairing run) at 1. f_equal; vm_compute; reflexivity. }
  destruct (onSubmit_failure_keeps_form backend_insert_fails sample_form
              filled_two_images sample_world _ _ Hne Hrun) as (Hf & Hi & _ & Hs & _).
  split_and!; [exact Hf|exact Hi|exact Hs].
Defined.

(** X16.  When the retail value does not parse to a finite number other
    than zero, so for a text that is no number, for "Infinity" and for
    zero, the break-even value that is submitted is the parsed value
    itself: NaN stays NaN, an infinity stays that infinity and a zero keeps
    its sign. *)
Theorem breakEven_passes_through v :
  (forall s m e, Js.parseFloat v <> S754_finite s m e) ->
  submitted_breakEven v = Js.parseFloat v /\
  (Js.parseFloat v = S754_nan -> v <> "" -> breakEvenValue v = "NaN").
Proof.
  intros Hnot. unfold breakEvenValue, submitted_breakEven.
  destruct (Js.parseFloat v) as [s|s| |s m e] eqn:E.
  - split; [destruct s; reflexivity|discriminate].
  - split; [destruct s; reflexivity|discriminate].
  - split; [reflexivity|]. intros _ Hv. rewrite decide_False by exact Hv. reflexivity.
  - exfalso. exact (Hnot s m e eq_refl).
Qed.

Lemma breakEven_passes_through_witness :
  (forall s m e, Js.parseFloat "n/a" <> S754_finite s m e) /\
  submitted_breakEven "n/a" = S754_nan /\ breakEvenValue "n/a" = "NaN".
Proof.
  assert (Hp : Js.parseFloat "n/a" = S754_nan) by (vm_compute; reflexivity).
  assert (Hnot : forall s m e, Js.parseFloat "n/a" <> S754_finite s m e)
    by (intros s m e; rewrite Hp; discriminate).
  split; [exact Hnot|].
  destruct (breakEven_passes_through "n/a" Hnot) as [Hsub Hprev].
  split; [rewrite Hsub; exact Hp|]. apply Hprev; [exact Hp|discriminate].
Defined.

(** X24.  For every amount from 0.00 to 100.00 written with two decimals,
    the break-even value that is submitted and previewed is the quarter of
    the amount rounded to cents, halves up, except on the 143 amounts
    listed in [half_cent_slips], where it is one cent less; each of those
    is an amount whose quarter ends on exactly half a cent. *)
Theorem breakEven_checked_range c :
  0 <= c <= checked_cents ->
  let v := cents_string c in
  let k := quarter_half_up c in
  (c ∉ half_cent_slips ->
     submitted_breakEven v = Js.of_decimal false k (-2) /\
     breakEvenValue v = cents_string k) /\
  (c ∈ half_cent_slips ->
     c mod 4 = 2 /\
     submitted_breakEven v = Js.of_decimal false (k - 1) (-2) /\
     breakEvenValue v = cents_string (k - 1)) /\
  length half_cent_slips = 143%nat.
Proof.
  intros Hc v k.
  pose proof (all_from_spec _ _ _ break_even_checked c) as Hchk.
  rewrite Z2Nat.id in Hchk by (unfold checked_cents; lia).
  specialize (Hchk ltac:(lia)).
  unfold break_even_check, expected_cents in Hchk.
  assert (Hmem : existsb (Z.eqb c) half_cent_slips = true <-> c ∈ half_cent_slips).
  { rewrite existsb_exists. split.
    - intros (x & Hin & Heq). apply Z.eqb_eq in Heq. subst x.
      apply list_elem_of_In. exact Hin.
    - intros Hin. exists c. split; [apply list_elem_of_In; exact Hin|apply Z.eqb_refl]. }
  split; [|split; [|reflexivity]].
  - intros Hnot. destruct (existsb (Z.eqb c) half_cent_slips) eqn:E.
    + exfalso. apply Hnot, Hmem. reflexivity.
    + apply break_even_is_spec. exact Hchk.
  - intros Hin. split.
    + clear -Hin. unfold half_cent_slips in Hin.
      repeat (apply elem_of_cons in Hin as [->|Hin]; [reflexivity|]).
      apply elem_of_nil in Hin. destruct Hin.
    + apply Hmem in Hin. rewrite Hin in Hchk.
      apply break_even_is_spec. exact Hchk.
Qed.

Lemma breakEven_checked_range_witness :
  0 <= 58 <= checked_cents /\
  58 ∈ half_cent_slips /\
  cents_string 58 = "0.58" /\
  breakEvenValue "0.58" = "0.14" /\
  (1999 ∉ half_cent_slips) /\
  breakEvenValue (cents_string 1999) = "5.00".
Proof.
  assert (Hc : 0 <= 58 <= checked_cents) by (unfold checked_cents; lia).
  assert (Hc' : 0 <= 1999 <= checked_cents) by (unfold checked_cents; lia).
  assert (Hin : 58 ∈ half_cent_slips) by (apply elem_of_cons; left; reflexivity).
  assert (Hout : 1999 ∉ half_cent_slips)
    by (refine (bool_decide_unpack _ _); vm_compute; exact I).
  split; [exact Hc|]. split; [exact Hin|]. split; [reflexivity|].
  destruct (breakEven_checked_range 58 Hc) as (_ & Hslip & _).
  destruct (breakEven_checked_range 1999 Hc') as (Hok & _).
  split; [exact (proj2 (proj2 (Hslip Hin)))|].
  split; [exact Hout|]. exact (proj2 (Hok Hout)).
Defined.

(** ** The prize list page *)

(** X17.  A value that a two-decimal amount denotes is shown as that
    amount: for a double with exponent at most -8 (as every double below
    2^45 has) that is read from [c] cents, the text is the sign, "$", the
    grouped dollars and the cents without trailing zeros; a whole number
    of dollars is shown without a fraction. *)
Theorem formatCurrency_cents s m e c :
  e <= -8 -> Js.denotes m e (Js.decimal c (-2)) ->
  Prizes.formatCurrency (S754_finite s m e)
    = Js.sign_string s +:+ "$" +:+ Js.group (pretty (c / 100))
        +:+ shown_cents (c mod 100).
Proof.
  intros He Hc.
  destruct (shortest_decimal_spec m e) as (_ & Hd & _ & _).
  pose proof (round_decimal_spec (Js.shortest_decimal m e).1
                (Js.shortest_decimal m e).2 2) as [Hr1 Hr2].
  change (10 ^ Z.of_nat 2)%Q with 100%Q in Hr1, Hr2.
  rewrite formatCurrency_finite. cbv zeta.
  set (n := Js.round_decimal _ _ 2) in *.
  set (y := Js.decimal (Js.shortest_decimal m e).1 (Js.shortest_decimal m e).2) in *.
  set (z := Js.decimal c (-2)) in *.
  apply denotes_near in Hd as [Hd1 Hd2]. apply denotes_near in Hc as [Hc1 Hc2].
  assert (Hcents : (100 * z == inject_Z c)%Q).
  { unfold z, Js.decimal. change (10 ^ (-2))%Q with (1 # 100)%Q. field. }
  assert (Hulp : (2 ^ (e - 1) <= 1 # 512)%Q).
  { change (1 # 512)%Q with (2 ^ (-9))%Q.
    apply Qpower_le_compat_l; [lia|discriminate]. }
  assert (Hn : n = c).
  { assert (H1 : (inject_Z n < inject_Z (c + 1))%Q)
      by (rewrite inject_Z_plus; change (inject_Z 1) with 1%Q; lra).
    assert (H2 : (inject_Z c < inject_Z (n + 1))%Q)
      by (rewrite inject_Z_plus; change (inject_Z 1) with 1%Q; lra).
    rewrite <- Zlt_Qlt in H1, H2. lia. }
  rewrite Hn. reflexivity.
Qed.

Lemma formatCurrency_cents_witness :
  Js.parseFloat "19.99" = S754_finite false 5626684784446013 (-48) /\
  -48 <= -8 /\
  Js.denotes 5626684784446013 (-48) (Js.decimal 1999 (-2)) /\
  Prizes.formatCurrency (S754_finite false 5626684784446013 (-48)) = "$19.99".
Proof.
  assert (He : -48 <= -8) by lia.
  assert (Hd : Js.denotes 5626684784446013 (-48) (Js.decimal 1999 (-2)))
    by (apply denotesb_spec; vm_compute; reflexivity).
  split; [vm_compute; reflexivity|]. split; [exact He|]. split; [exact Hd|].
  rewrite (formatCurrency_cents false 5626684784446013 (-48) 1999 He Hd).
  vm_compute. reflexivity.
Defined.

(** X18.  When the read of the prizes fails, fetchPrizes keeps the rows it
    had, writes one line to the console and changes nothing else in the
    world; whatever the outcome, it ends with loading off and leaves the
    create dialog as it was. *)
Theorem fetchPrizes_failure {R} (getPrizes : M (list (Prizes.Prize R))) st w :
  Prizes.loading (Prizes.fetchPrizes getPrizes st w).1 = false /\
  Prizes.createOpen (Prizes.fetchPrizes getPrizes st w).1 = Prizes.createOpen st /\
  (forall e w1, getPrizes w = (inl e, w1) ->
     Prizes.prizes (Prizes.fetchPrizes getPrizes st w).1 = Prizes.prizes st /\
     (Prizes.fetchPrizes getPrizes st w).2
       = log_console ("Error fetching prizes: " +:+ message e) w1) /\
  (forall data w1, getPrizes w = (inr data, w1) ->
     length (Prizes.prizes (Prizes.fetchPrizes getPrizes st w).1) = length data).
Proof.
  unfold Prizes.fetchPrizes.
  destruct (getPrizes w) as [[e|data] w1]; cbn [fst snd Prizes.loading
    Prizes.createOpen Prizes.prizes]; split_and!; try reflexivity.
  - intros e' w1' Heq. injection Heq as <- <-. split; reflexivity.
  - discriminate.
  - discriminate.
  - intros data' w1' Heq. injection Heq as <- <-. apply length_map.
Qed.

Lemma fetchPrizes_failure_witness :
  failing_read sample_world = (inl (Error "permission-denied"), sample_world) /\
  Prizes.prizes (Prizes.fetchPrizes failing_read
                   (Prizes.fetchPrizes two_prizes empty_page sample_world).1
                   sample_world).1
    = [Prizes.mkRow "$1,000" "Smart TV"; Prizes.mkRow "$19.99" "Mug"] /\
  console (Prizes.fetchPrizes failing_read empty_page sample_world).2
    = ["Error fetching prizes: permission-denied"].
Proof.
  assert (Hread : failing_read sample_world
                  = (inl (Error "permission-denied"), sample_world)) by reflexivity.
  split; [exact Hread|].
  split.
  - destruct (fetchPrizes_failure failing_read
                (Prizes.fetchPrizes two_prizes empty_page sample_world).1
                sample_world) as (_ & _ & Hfail & _).
    destruct (Hfail _ _ Hread) as [Hrows _]. rewrite Hrows.
    vm_compute. reflexivity.
  - destruct (fetchPrizes_failure failing_read empty_page sample_world)
      as (_ & _ & Hfail & _).
    destruct (Hfail _ _ Hread) as [_ Hw]. rewrite Hw. reflexivity.
Defined.

(** ** Render-time logic of the modal *)

Lemma same_id_same_sponsor (sponsors : list Sponsor) a b :
  NoDup (map sponsor_id sponsors) -> a ∈ sponsors -> b ∈ sponsors ->
  sponsor_id a = sponsor_id b -> a = b.
Proof.
  induction sponsors as [|s l IH]; intros Hnd Ha Hb Heq; [inversion Ha|].
  cbn in Hnd. apply NoDup_cons in Hnd as [Hs Hnd].
  apply elem_of_cons in Ha as [->|Ha]; apply elem_of_cons in Hb as [->|Hb].
  - reflexivity.
  - exfalso. apply Hs. rewrite Heq. apply list_elem_of_fmap. eauto.
  - exfalso. apply Hs. rewrite <- Heq. apply list_elem_of_fmap. eauto.
  - apply IH; assumption.
Qed.

Lemma sponsorOptions_order (sponsors : list Sponsor) :
  map fst (sponsorOptions sponsors) `sublist_of` map sponsor_id sponsors.
Proof.
  unfold sponsorOptions. induction sponsors as [|s l IH]; [constructor|].
  cbn [map]. destruct (decide (sponsor_status s = "Active")).
  - rewrite filter_cons_True by assumption. apply sublist_skip, IH.
  - rewrite filter_cons_False by assumption. apply sublist_cons, IH.
Qed.

(** X19.  The sponsor select offers exactly the sponsors whose status is
    "Active", in the order of the list.  An id that no sponsor has selects
    nothing and shows no logo.  When ids are unique, picking an offered
    item selects the active sponsor it stands for. *)
Theorem sponsorOptions_spec (sponsors : list Sponsor) :
  (forall id name, (id, name) ∈ sponsorOptions sponsors <->
     exists s, s ∈ sponsors /\ sponsor_status s = "Active" /\
               sponsor_id s = id /\ sponsor_name s = name) /\
  map fst (sponsorOptions sponsors) `sublist_of` map sponsor_id sponsors /\
  (forall id, id ∉ map sponsor_id sponsors ->
     selectedSponsor sponsors id = None /\ shownLogo sponsors id = None) /\
  (NoDup (map sponsor_id sponsors) ->
   forall id name, (id, name) ∈ sponsorOptions sponsors ->
     exists s, selectedSponsor sponsors id = Some s /\
               sponsor_status s = "Active" /\ sponsor_name s = name).
Proof.
  assert (Hmem : forall id name, (id, name) ∈ sponsorOptions sponsors <->
     exists s, s ∈ sponsors /\ sponsor_status s = "Active" /\
               sponsor_id s = id /\ sponsor_name s = name).
  { intros id name. unfold sponsorOptions. rewrite list_elem_of_fmap. split.
    - intros (s & Heq & Hin). apply list_elem_of_filter in Hin as [Hact Hin].
      injection Heq as -> ->. eauto.
    - intros (s & Hin & Hact & <- & <-). exists s. split; [reflexivity|].
      apply list_elem_of_filter. split; assumption. }
  split_and!.
  - exact Hmem.
  - apply sponsorOptions_order.
  - intros id Hnot.
    assert (Hnone : selectedSponsor sponsors id = None).
    { unfold selectedSponsor.
      destruct (list_find _ sponsors) as [[i s]|] eqn:E; [|reflexivity].
      apply list_find_Some in E as (Hi & Hid & _).
      exfalso. apply Hnot. rewrite <- Hid. apply list_elem_of_fmap.
      exists s. split; [reflexivity|]. apply list_elem_of_lookup. eauto. }
    split; [exact Hnone|]. unfold shownLogo. rewrite Hnone. reflexivity.
  - intros Hnd id name Hin. apply Hmem in Hin as (s & Hin & Hact & Hid & Hname).
    destruct (list_find_elem_of (fun s0 => sponsor_id s0 = id) sponsors s Hin Hid)
      as [[i s'] E].
    unfold selectedSponsor. rewrite E. cbn.
    apply list_find_Some in E as (Hi & Hid' & _).
    assert (s' = s) as ->.
    { apply (same_id_same_sponsor sponsors); [exact Hnd| |exact Hin|congruence].
      apply list_elem_of_lookup. eauto. }
    eauto.
Qed.

Lemma sponsorOptions_spec_witness :
  NoDup (map sponsor_id sample_sponsors) /\
  sponsorOptions sample_sponsors = [("s1", "Acme"); ("s3", "Initech")] /\
  (exists s, selectedSponsor sample_sponsors "s3" = Some s /\
             sponsor_status s = "Active" /\ sponsor_name s = "Initech") /\
  shownLogo sample_sponsors "s9" = None.
Proof.
  assert (Hnd : NoDup (map sponsor_id sample_sponsors))
    by (refine (bool_decide_unpack _ _); vm_compute; exact I).
  split; [exact Hnd|]. split; [reflexivity|].
  destruct (sponsorOptions_spec sample_sponsors) as (_ & _ & Hnone & Hpick).
  split.
  - apply (Hpick Hnd "s3" "Initech").
    apply list_elem_of_further, list_elem_of_here.
  - apply Hnone. refine (bool_decide_unpack _ _). vm_compute. exact I.
Defined.

(** X20.  The terms radio group is a faithful view of useStandardTerms:
    storing what is shown gives the flag back, and showing what was stored
    gives the choice back exactly for the two items of the group; any
    other value is stored as custom terms. *)
Theorem termsRadio_round_trip :
  (forall b, termsRadioChange (termsRadioValue b) = b) /\
  (forall v, termsRadioValue (termsRadioChange v) = v <->
             v = "standard" \/ v = "custom") /\
  (forall v, v <> "standard" -> termsRadioChange v = false).
Proof.
  unfold termsRadioChange, termsRadioValue. split_and!.
  - intros []; reflexivity.
  - intros v. destruct (decide (v = "standard")) as [->|Hne].
    + rewrite bool_decide_eq_true_2 by reflexivity. tauto.
    + rewrite bool_decide_eq_false_2 by exact Hne. split.
      * intros <-. right. reflexivity.
      * intros [Habs| ->]; [congruence|reflexivity].
  - intros v Hne. apply bool_decide_eq_false_2, Hne.
Qed.

(** ** The schema as a whole *)

Lemma z_min_paths p msg v (rest k : list string) :
  rest `sublist_of` k ->
  (map issue_path (z_min p 1 msg v) ++ rest) `sublist_of` (p :: k).
Proof.
  intros H. unfold z_min. destruct (decide _); cbn.
  - apply sublist_skip, H.
  - apply sublist_cons, H.
Qed.

Lemma z_min_max_paths p msg n v (rest k : list string) :
  (1 <= n)%nat -> rest `sublist_of` k ->
  (map issue_path (z_min p 1 msg v) ++ map issue_path (z_max p n v) ++ rest)
    `sublist_of` (p :: k).
Proof.
  intros Hn H. unfold z_min, z_max.
  destruct (decide (String.length v < 1)%nat), (decide (n < String.length v)%nat);
    cbn; try lia.
  - apply sublist_skip, H.
  - apply sublist_skip, H.
  - apply sublist_cons, H.
Qed.

(** The fields the schema can raise an issue on, in its order. *)
Lemma formSchema_paths v :
  map issue_path (formSchema v) `sublist_of`
    ["prizeName"; "quantityAvailable"; "fullDescription"; "tags"; "sponsorId";
     "prizeCategory"; "stockDate"; "fulfillmentMethod"; "deliveryTimeline";
     "claimWindow"; "eligibleRegions"; "retailValueUSD"; "ageRestriction"].
Proof.
  unfold formSchema. rewrite !map_app.
  apply z_min_max_paths; [lia|].
  apply z_min_paths.
  apply z_min_max_paths; [lia|].
  do 9 apply z_min_paths.
  rewrite <- (app_nil_r (map issue_path (z_min _ _ _ _))).
  apply z_min_paths. constructor.
Qed.

(** X21.  The schema raises at most one issue per field, in the order of
    the fields, so at most thirteen in all, and it never raises one on a
    boolean or an optional field: forms that differ only there get the
    same issues. *)
Theorem formSchema_one_issue_per_field v :
  NoDup (map issue_path (formSchema v)) /\
  (length (formSchema v) <= 13)%nat /\
  (map issue_path (formSchema v) `sublist_of`
    ["prizeName"; "quantityAvailable"; "fullDescription"; "tags"; "sponsorId";
     "prizeCategory"; "stockDate"; "fulfillmentMethod"; "deliveryTimeline";
     "claimWindow"; "eligibleRegions"; "retailValueUSD"; "ageRestriction"]) /\
  (forall d1 d2 d3 pickup idReq std terms ctype curl info acc,
     formSchema
       (FormValues.mk (FormValues.prizeName v) (FormValues.quantityAvailable v)
          d1 d2 d3 (FormValues.fullDescription v) (FormValues.tags v)
          (FormValues.sponsorId v) (FormValues.prizeCategory v)
          (FormValues.stockDate v) (FormValues.fulfillmentMethod v)
          (FormValues.deliveryTimeline v) (FormValues.claimWindow v) pickup
          (FormValues.eligibleRegions v) (FormValues.retailValueUSD v)
          (FormValues.ageRestriction v) idReq std terms ctype curl info acc)
     = formSchema v).
Proof.
  pose proof (formSchema_paths v) as Hsub.
  split_and!.
  - eapply sublist_NoDup; [|exact Hsub].
    refine (bool_decide_unpack _ _). vm_compute. exact I.
  - rewrite <- (length_map issue_path). apply sublist_length in Hsub. exact Hsub.
  - exact Hsub.
  - reflexivity.
Qed.

(** X22.  Removing a staged file brings the upload box back: after
    removeImage at an index that holds a file, fewer than four files are
    staged. *)
Theorem removeImage_shows_uploadBox idx st :
  (length (imageFiles st) <= 4)%nat -> (idx < length (imageFiles st))%nat ->
  uploadBoxVisible (removeImage idx st) = true /\
  length (imageFiles (removeImage idx st)) = pred (length (imageFiles st)).
Proof.
  intros Hk Hidx.
  assert (Hlen : length (imageFiles (removeImage idx st))
                 = pred (length (imageFiles st))).
  { cbn [removeImage imageFiles set_imagePreviews set_imageFiles].
    rewrite filter_index_spec by lia. rewrite Nat.sub_0_r.
    rewrite length_app, length_take, length_drop. lia. }
  split; [|exact Hlen].
  unfold uploadBoxVisible. apply bool_decide_eq_true. rewrite Hlen. lia.
Qed.

Lemma removeImage_shows_uploadBox_witness :
  let full := handleImageUpload (Some six_files) initial_modal in
  (length (imageFiles full) <= 4)%nat /\ (0 < length (imageFiles full))%nat /\
  uploadBoxVisible full = false /\
  uploadBoxVisible (removeImage 0 full) = true.
Proof.
  cbv zeta.
  assert (Hk : (length (imageFiles (handleImageUpload (Some six_files)
                                      initial_modal)) <= 4)%nat) by (vm_compute; lia).
  assert (Hi : (0 < length (imageFiles (handleImageUpload (Some six_files)
                                          initial_modal)))%nat) by (vm_compute; lia).
  split_and!; [exact Hk|exact Hi|reflexivity|].
  exact (proj1 (removeImage_shows_uploadBox 0 _ Hk Hi)).
Defined.
